(** * Wikipedia pageview comparison: title extraction, fetching, merge and
    synthetic shares (app.py)

  A shallow embedding of the three functions of [app.py] that carry logic
  ([extract_page_title], [fetch_pageviews], [analyze_wiki_pages]) and the
  properties of them that the specification states.

  Conventions
  - A Python [str] is a [string]; its characters are the bytes of the
    UTF-8 encoding of the text.
  - A Python call that may raise is a value of [outcome]: [Ret v] when it
    returns [v], [Raise e] when exception [e] escapes.
  - [print], [requests.get] and numpy's global generator are effects on a
    [world] that is threaded through the calls ([Py] monad below). *)

From Stdlib Require Import ZArith List Bool Ascii String Lia Arith PeanoNat.
From Stdlib Require Import SpecFloat DecimalString Sorted Permutation.
Import ListNotations.

Local Open Scope string_scope.
Local Open Scope Z_scope.

(* ------------------------------------------------------------------ *)
(** * Python outcomes *)

Inductive exn : Type :=
| ValueError          (* urlparse on a malformed host, strptime on a bad date *)
| KeyError            (* item["timestamp"], item["views"] on a missing key *)
| IndexError          (* list index out of range *)
| JSONDecodeError     (* response.json() on a body that is not JSON *)
| RequestException    (* requests.get could not complete *)
| IntCastingNaNError. (* Series.astype(int) on a column holding NaN *)

Inductive outcome (A : Type) : Type :=
| Ret (a : A)
| Raise (e : exn).
Arguments Ret {A} a.
Arguments Raise {A} e.

Definition obind {A B} (x : outcome A) (k : A -> outcome B) : outcome B :=
match x with
| Ret a => k a
| Raise e => Raise e
end.

Definition returns_value {A} (x : outcome A) : Prop := exists a, x = Ret a.
Definition raises {A} (x : outcome A) : Prop := exists e, x = Raise e.

(* ------------------------------------------------------------------ *)
(** * The [str] methods the program uses *)

Module PyStr.

(** [s[n:]] *)
Fixpoint drop (n : nat) (s : string) : string :=
  match n, s with
  | O, _ => s
  | S _, EmptyString => EmptyString
  | S n', String _ s' => drop n' s'
  end.

(** [s[:n]] *)
Fixpoint take (n : nat) (s : string) : string :=
  match n, s with
  | O, _ => EmptyString
  | S _, EmptyString => EmptyString
  | S n', String c s' => String c (take n' s')
  end.

(** [s.startswith(p)] *)
Definition startswith (s p : string) : bool := String.prefix p s.

(** [c in s] for a one-character [c] *)
Fixpoint contains (c : ascii) (s : string) : bool :=
  match s with
  | EmptyString => false
  | String d s' => if Ascii.eqb c d then true else contains c s'
  end.

(** [s.find(c)] for a one-character [c]; [None] stands for -1. *)
Fixpoint find (c : ascii) (s : string) : option nat :=
  match s with
  | EmptyString => None
  | String d s' =>
      if Ascii.eqb c d then Some O
      else match find c s' with
           | Some i => Some (S i)
           | None => None
           end
  end.

(** [s.rfind(c)] *)
Fixpoint rfind (c : ascii) (s : string) : option nat :=
  match s with
  | EmptyString => None
  | String d s' =>
      match rfind c s' with
      | Some i => Some (S i)
      | None => if Ascii.eqb c d then Some O else None
      end
  end.

(** [s.find(c, start)] *)
Definition find_from (c : ascii) (start : nat) (s : string) : option nat :=
  match find c (drop start s) with
  | Some i => Some (start + i)%nat
  | None => None
  end.

(** [s.replace(c, "")] for a one-character [c] *)
Fixpoint remove (c : ascii) (s : string) : string :=
  match s with
  | EmptyString => EmptyString
  | String d s' => if Ascii.eqb c d then remove c s' else String d (remove c s')
  end.

(** [s.split(sep)] for a non-empty [sep]: the pieces between the
    occurrences of [sep], found left to right without overlap.  [skip]
    counts the characters of a separator still to be passed over and [cur]
    holds the piece being read, last character first. *)
Fixpoint rev_string (acc : string) (s : string) : string :=
  match s with
  | EmptyString => acc
  | String c s' => rev_string (String c acc) s'
  end.

Fixpoint split_go (sep : string) (s : string) (skip : nat) (cur : string)
  : list string :=
  match s with
  | EmptyString => [rev_string EmptyString cur]
  | String c s' =>
      match skip with
      | S k => split_go sep s' k cur
      | O =>
          if String.prefix sep s
          then rev_string EmptyString cur
                 :: split_go sep s' (Nat.pred (String.length sep)) EmptyString
          else split_go sep s' O (String c cur)
      end
  end.

Definition split (s sep : string) : list string := split_go sep s O EmptyString.

(** [xs[i]] *)
Definition index {A} (xs : list A) (i : nat) : outcome A :=
  match nth_error xs i with
  | Some x => Ret x
  | None => Raise IndexError
  end.

(** [s.lower()] on ASCII letters *)
Definition lower_char (c : ascii) : ascii :=
  let n := nat_of_ascii c in
  if ((65 <=? n) && (n <=? 90))%nat then ascii_of_nat (n + 32) else c.

Fixpoint lower (s : string) : string :=
  match s with
  | EmptyString => EmptyString
  | String c s' => String (lower_char c) (lower s')
  end.

End PyStr.

(* ------------------------------------------------------------------ *)
(** * [urllib.parse]: the two library functions the extractor calls

  [urlparse] and [unquote] belong to Python's standard library, not to
  the program.  They are modelled after CPython's [urllib/parse.py]:
  [urlparse] with the scheme, authority, fragment, query and parameter
  splitting and the [ValueError] raised on an authority with an unmatched
  square bracket; [unquote] as the replacement of every [%XX] escape by
  the byte it denotes.  Two refinements of the library are left out: the
  validation of what stands between matched brackets and the NFKC check of
  a non-ASCII authority (both only add [ValueError] cases), and the
  re-decoding of the unescaped bytes as UTF-8 (which only changes escapes
  that do not form well-formed UTF-8). *)

Module UrlLib.
Import PyStr.

Record ParseResult : Type := mkParseResult
  { scheme : string; netloc : string; path : string;
    params : string; query : string; fragment : string }.

Definition is_alpha (c : ascii) : bool :=
  let n := nat_of_ascii c in
  (((65 <=? n) && (n <=? 90)) || ((97 <=? n) && (n <=? 122)))%nat.

Definition is_digit (c : ascii) : bool :=
  let n := nat_of_ascii c in ((48 <=? n) && (n <=? 57))%nat.

(** [scheme_chars]: letters, digits and [+-.] *)
Definition is_scheme_char (c : ascii) : bool :=
  is_alpha c || is_digit c
  || Ascii.eqb c "+" || Ascii.eqb c "-" || Ascii.eqb c ".".

Fixpoint all_chars (p : ascii -> bool) (s : string) : bool :=
  match s with
  | EmptyString => true
  | String c s' => p c && all_chars p s'
  end.

(** [url.lstrip(_WHATWG_C0_CONTROL_OR_SPACE)] *)
Fixpoint lstrip_c0 (s : string) : string :=
  match s with
  | EmptyString => EmptyString
  | String c s' => if (nat_of_ascii c <=? 32)%nat then lstrip_c0 s' else s
  end.

(** the loop over [_UNSAFE_URL_BYTES_TO_REMOVE] = tab, CR, LF *)
Definition remove_unsafe (s : string) : string :=
  remove "010"%char (remove "013"%char (remove "009"%char s)).

(** the scheme test of [urlsplit]: some [i > 0] with [url[i] = ':'], a
    letter first and only scheme characters before the colon *)
Definition split_scheme (url : string) : string * string :=
  match find ":" url with
  | Some (S i) =>
      match url with
      | String c0 _ =>
          if is_alpha c0 && all_chars is_scheme_char (take (S i) url)
          then (lower (take (S i) url), drop (S (S i)) url)
          else (EmptyString, url)
      | EmptyString => (EmptyString, url)
      end
  | _ => (EmptyString, url)
  end.

Definition min_opt (delim : nat) (w : option nat) : nat :=
  match w with
  | Some i => Nat.min delim i
  | None => delim
  end.

(** [_splitnetloc(url, 2)] *)
Definition splitnetloc (url : string) : string * string :=
  let delim := String.length url in
  let delim := min_opt delim (find_from "/" 2 url) in
  let delim := min_opt delim (find_from "?" 2 url) in
  let delim := min_opt delim (find_from "#" 2 url) in
  (drop 2 (take delim url), drop delim url).

(** [s.split(c, 1)] as the pair (before, after) when [c] occurs *)
Definition split_once (c : ascii) (s : string) : string * string :=
  match find c s with
  | Some i => (take i s, drop (S i) s)
  | None => (s, EmptyString)
  end.

(** [urlsplit]: the authority is refused when only one of its brackets
    is there.  The further checks of the authority that some Python
    versions make (of the text between the brackets, and of a host that is
    not ASCII) are not modelled. *)
Definition urlsplit (url0 : string) : outcome ParseResult :=
  let url := remove_unsafe (lstrip_c0 url0) in
  let '(sch, url) := split_scheme url in
  obind
    (if String.prefix "//" url then
       let '(nl, rest) := splitnetloc url in
       if xorb (contains "[" nl) (contains "]" nl)
       then Raise ValueError
       else Ret (nl, rest)
     else Ret (EmptyString, url))
    (fun '(nl, url) =>
       let '(url, frag) := split_once "#" url in
       let '(url, q) := split_once "?" url in
       Ret (mkParseResult sch nl url EmptyString q frag)).

Definition uses_params : list string :=
  [""; "ftp"; "hdl"; "prospero"; "http"; "imap"; "https"; "shttp"; "rtsp";
   "rtsps"; "rtspu"; "sip"; "sips"; "mms"; "sftp"; "tel"].

(** [_splitparams] *)
Definition splitparams (url : string) : string * string :=
  match rfind "/" url with
  | Some j =>
      match find_from ";" j url with
      | Some i => (take i url, drop (S i) url)
      | None => (url, EmptyString)
      end
  | None =>
      match find ";" url with
      | Some i => (take i url, drop (S i) url)
      | None => (take (Nat.pred (String.length url)) url, url)
      end
  end.

Definition urlparse (url : string) : outcome ParseResult :=
  obind (urlsplit url) (fun r =>
    if existsb (String.eqb (scheme r)) uses_params && contains ";" (path r)
    then let '(p, ps) := splitparams (path r) in
         Ret (mkParseResult (scheme r) (netloc r) p ps (query r) (fragment r))
    else Ret r).

(** [_hextobyte]: both cases of the hexadecimal digits *)
Definition hex_val (c : ascii) : option nat :=
  let n := nat_of_ascii c in
  if ((48 <=? n) && (n <=? 57))%nat then Some (n - 48)%nat
  else if ((65 <=? n) && (n <=? 70))%nat then Some (n - 55)%nat
  else if ((97 <=? n) && (n <=? 102))%nat then Some (n - 87)%nat
  else None.

Definition escape (s : string) : option ascii :=
  match s with
  | String h (String l _) =>
      match hex_val h, hex_val l with
      | Some a, Some b => Some (ascii_of_nat (16 * a + b))
      | _, _ => None
      end
  | _ => None
  end.

(** [unquote]: [skip] counts the hexadecimal digits of an escape that
    has just been decoded and are still to be passed over.  The result is
    the bytes the escapes spell; Python reads them as UTF-8 and puts
    U+FFFD for a sequence that is not, which the model does not. *)
Fixpoint unquote_go (s : string) (skip : nat) : string :=
  match s with
  | EmptyString => EmptyString
  | String c s' =>
      match skip with
      | S k => unquote_go s' k
      | O =>
          if Ascii.eqb c "%" then
            match escape s' with
            | Some b => String b (unquote_go s' 2)
            | None => String c (unquote_go s' 0)
            end
          else String c (unquote_go s' 0)
      end
  end.

Definition unquote (s : string) : string := unquote_go s 0.

End UrlLib.

(* ------------------------------------------------------------------ *)
(** * Title extractor *)

Definition wiki_prefix : string := "/wiki/".

(** [extract_page_title(url)]: [Ret None] is Python's [None]. *)
Definition extract_page_title (url : string) : outcome (option string) :=
obind (UrlLib.urlparse url) (fun parsed =>
  let path := UrlLib.path parsed in
  if PyStr.startswith path wiki_prefix then
    obind (PyStr.index (PyStr.split path wiki_prefix) 1) (fun title =>
      Ret (Some (UrlLib.unquote title)))
  else Ret None).

(** The text of [s] before the first occurrence of [sep] (all of [s] when
  [sep] does not occur): what [s.split(sep)[0]] is. *)
Fixpoint until_sep (sep s : string) : string :=
match s with
| EmptyString => EmptyString
| String c s' => if String.prefix sep s then EmptyString else String c (until_sep sep s')
end.

(** [sep in s] *)
Fixpoint occurs (sep s : string) : bool :=
match s with
| EmptyString => String.prefix sep s
| String _ s' => String.prefix sep s || occurs sep s'
end.

(** The part of a path that follows the article prefix. *)
Definition remainder (path : string) : string :=
PyStr.drop (String.length wiki_prefix) path.


(* ------------------------------------------------------------------ *)
(** * Calendar dates: [datetime.date], [strptime] and [strftime] *)

Record date : Type := mkDate { year : Z; month : Z; day : Z }.

Definition date_eqb (a b : date) : bool :=
  (year a =? year b) && (month a =? month b) && (day a =? day b).

(** Python compares dates as the triples (year, month, day). *)
Definition date_ltb (a b : date) : bool :=
  (year a <? year b)
  || ((year a =? year b)
      && ((month a <? month b) || ((month a =? month b) && (day a <? day b)))).

Definition date_leb (a b : date) : bool := negb (date_ltb b a).

Definition is_leap (y : Z) : bool :=
  (y mod 4 =? 0) && (negb (y mod 100 =? 0) || (y mod 400 =? 0)).

Definition days_in_month (y m : Z) : Z :=
  if m =? 2 then (if is_leap y then 29 else 28)
  else if (m =? 4) || (m =? 6) || (m =? 9) || (m =? 11) then 30
  else 31.

(** What the constructor [datetime.date(y, m, d)] accepts. *)
Definition valid_date (d : date) : bool :=
  (1 <=? year d) && (year d <=? 9999)
  && (1 <=? month d) && (month d <=? 12)
  && (1 <=? day d) && (day d <=? days_in_month (year d) (month d)).

Definition digit_val (c : ascii) : option Z :=
  if UrlLib.is_digit c then Some (Z.of_nat (nat_of_ascii c) - 48) else None.

(** The directives of the format ["%Y%m%d"] as [_strptime] compiles them:
    [%Y] is [\d\d\d\d], [%m] is [1[0-2]|0[1-9]|[1-9]] and [%d] is
    [3[0-1]|[1-2]\d|0[1-9]|[1-9]| [1-9]].  Each function lists the ways its
    directive matches at the front of [s], in the order the regular
    expression tries them, with the text left over. *)
Definition match_Y (s : string) : list (Z * string) :=
  match s with
  | String a (String b (String c (String d rest))) =>
      match digit_val a, digit_val b, digit_val c, digit_val d with
      | Some x, Some y, Some z, Some w => [(1000 * x + 100 * y + 10 * z + w, rest)]
      | _, _, _, _ => []
      end
  | _ => []
  end.

Definition two_digits (s : string) (ok : Z -> Z -> bool) : list (Z * string) :=
  match s with
  | String a (String b rest) =>
      match digit_val a, digit_val b with
      | Some x, Some y => if ok x y then [(10 * x + y, rest)] else []
      | _, _ => []
      end
  | _ => []
  end.

Definition one_digit (s : string) : list (Z * string) :=
  match s with
  | String a rest =>
      match digit_val a with
      | Some x => if 1 <=? x then [(x, rest)] else []
      | None => []
      end
  | _ => []
  end.

Definition match_m (s : string) : list (Z * string) :=
  two_digits s (fun x y => (x =? 1) && (y <=? 2))
  ++ two_digits s (fun x y => (x =? 0) && (1 <=? y))
  ++ one_digit s.

Definition match_d (s : string) : list (Z * string) :=
  two_digits s (fun x y => (x =? 3) && (y <=? 1))
  ++ two_digits s (fun x y => (1 <=? x) && (x <=? 2))
  ++ two_digits s (fun x y => (x =? 0) && (1 <=? y))
  ++ one_digit s
  ++ match s with
     | String " " rest => one_digit rest
     | _ => []
     end.

(** [datetime.strptime(s, "%Y%m%d").date()]: the first match of the
    compiled expression, which must use up all of [s], and a date that
    exists. *)
Definition strptime_Ymd (s : string) : outcome date :=
  let found :=
    flat_map (fun '(y, r1) =>
      flat_map (fun '(m, r2) =>
        map (fun '(d, r3) => (mkDate y m d, r3)) (match_d r2)) (match_m r1))
      (match_Y s) in
  match found with
  | (d, EmptyString) :: _ => if valid_date d then Ret d else Raise ValueError
  | _ => Raise ValueError
  end.

Definition digit_char (n : Z) : ascii := ascii_of_nat (48 + Z.to_nat (n mod 10)).

(** [d.strftime("%Y%m%d")], for the years from 1000 on (where the C
    library pads nothing). *)
Definition strftime_Ymd (d : date) : string :=
  String (digit_char (year d / 1000)) (String (digit_char (year d / 100))
  (String (digit_char (year d / 10)) (String (digit_char (year d))
  (String (digit_char (month d / 10)) (String (digit_char (month d))
  (String (digit_char (day d / 10)) (String (digit_char (day d)) EmptyString))))))).

(* ------------------------------------------------------------------ *)
(** * The upstream response

    The JSON body is modelled by its shape: an object whose ["items"] key
    may be missing, holding objects whose ["timestamp"] (a string) and
    ["views"] (an integer) keys may be missing.  A body that is not JSON at
    all is [None].  JSON of another shape (a body that is not an object,
    ["items"] that is null or no list, an item that is no object, a
    timestamp that is no string, views that are no integer) is outside the
    model: the statements about bodies are about bodies of this shape. *)

Record item : Type := mkItem
  { timestamp : option string; item_views : option Z }.

Record payload : Type := mkPayload { items : option (list item) }.

Record response : Type := mkResponse
  { status_code : Z; body : option payload }.

(** [response.json()] *)
Definition json (r : response) : outcome payload :=
  match body r with
  | Some p => Ret p
  | None => Raise JSONDecodeError
  end.

(** [d[key]] on a key that may be missing *)
Definition getitem {A} (field : option A) : outcome A :=
  match field with
  | Some a => Ret a
  | None => Raise KeyError
  end.

(** [d.get(key, default)] *)
Definition get_default {A} (field : option A) (default : A) : A :=
  match field with
  | Some a => a
  | None => default
  end.

(** One row of the fetcher's DataFrame: the dict
    [{"date": date_obj, "views": item["views"]}]. *)
Record PageviewRecord : Type := mkRecord { rec_date : date; rec_views : Z }.

(** A DataFrame of fetched records is the list of its rows;
    [pd.DataFrame()] is the empty list and [df.empty] tests for it. *)
Definition DataFrame := list PageviewRecord.

Definition df_empty (df : DataFrame) : bool :=
  match df with
  | [] => true
  | _ :: _ => false
  end.

(* ------------------------------------------------------------------ *)
(** * Effects: printed lines, requests sent, numpy's global generator *)

Record world : Type := mkWorld
  { stdout : list string;        (* lines printed, oldest first *)
    requested : list string;     (* URLs passed to requests.get, oldest first *)
    gen_seed : Z;                (* seed of numpy's global generator *)
    gen_pos : nat }.             (* draws already consumed from its sequence *)

Definition Py (A : Type) : Type := world -> outcome A * world.

Definition ret {A} (a : A) : Py A := fun w => (Ret a, w).

Definition throw {A} (e : exn) : Py A := fun w => (Raise e, w).

Definition bind {A B} (m : Py A) (k : A -> Py B) : Py B :=
  fun w =>
    match m w with
    | (Ret a, w') => k a w'
    | (Raise e, w') => (Raise e, w')
    end.

Definition lift {A} (x : outcome A) : Py A := fun w => (x, w).

Notation "x <- m ;; k" := (bind m (fun x => k))
  (at level 61, m at next level, right associativity).
Notation "m ;;; k" := (bind m (fun _ => k))
  (at level 61, right associativity).

(** [print(line)] *)
Definition print (line : string) : Py unit :=
  fun w => (Ret tt, mkWorld (stdout w ++ [line]) (requested w) (gen_seed w) (gen_pos w)).

Definition decimal (n : Z) : string := NilZero.string_of_int (Z.to_int n).

Definition newline : string := String "010"%char EmptyString.

Section Program.

(** The network: what [requests.get] answers to the [n]-th request of the
    run when asked for [url]; it may fail to answer. *)
Variable network : nat -> string -> outcome response.

(** numpy's bounded draws: [noise seed i] is the [i]-th integer that
    [np.random.randint(0, 10, ...)] hands out after [np.random.seed(seed)].
    The legacy generator produces each of them from fresh 32-bit outputs
    of the Mersenne Twister (masked rejection, nothing buffered between
    calls), so successive calls continue one sequence. *)
Variable noise : Z -> nat -> Z.

(** [requests.get(url, headers=headers)] *)
Definition requests_get (url : string) : Py response :=
  fun w =>
    (network (List.length (requested w)) url,
     mkWorld (stdout w) (requested w ++ [url]) (gen_seed w) (gen_pos w)).

Definition api_url (page_title : string) (start_date end_date : date) : string :=
  "https://wikimedia.org/api/rest_v1/metrics/pageviews/per-article/"
  ++ "en.wikipedia/all-access/all-agents/" ++ page_title ++ "/daily/"
  ++ strftime_Ymd start_date ++ "/" ++ strftime_Ymd end_date.

(** The body of the [for item in ...] loop: one record per item.  The
    slice [[:8]] and the parsing are on bytes, which are the characters of
    an ASCII timestamp. *)
Definition record_of_item (it : item) : outcome PageviewRecord :=
  obind (getitem (timestamp it)) (fun ts =>
    let date_str := PyStr.take 8 ts in
    obind (strptime_Ymd date_str) (fun date_obj =>
      obind (getitem (item_views it)) (fun v =>
        Ret (mkRecord date_obj v)))).

(** The loop: [records] grows by one record per item, in order; the first
    item that raises ends it. *)
Fixpoint records_loop (its : list item) (records : list PageviewRecord)
  : outcome (list PageviewRecord) :=
  match its with
  | [] => Ret records
  | it :: rest =>
      obind (record_of_item it) (fun r => records_loop rest (records ++ [r]))
  end.

(** [fetch_pageviews(page_title, start_date, end_date)] *)
Definition fetch_pageviews (page_title : string) (start_date end_date : date)
  : Py DataFrame :=
  response <- requests_get (api_url page_title start_date end_date) ;;
  if negb (status_code response =? 200) then
    print ("Error fetching data for " ++ page_title ++ ": HTTP "
           ++ decimal (status_code response)) ;;;
    ret []
  else
    data <- lift (json response) ;;
    lift (records_loop (get_default (items data) []) []).

(* ------------------------------------------------------------------ *)
(** * The merged table: [pd.merge(df1, df2, on="date", how="outer")]

    pandas' outer join keeps every key of either frame, in ascending order
    of the key, and pairs the rows of the two frames that carry the same
    key (every left row with every right row); a key that one frame lacks
    gives rows whose cell for that frame is NaN, here [None].  A column
    with a NaN is a float64 column in pandas; a cell of the model is the
    count itself, which is the same number as long as the count is one a
    float64 holds exactly (up to [2^53] in magnitude). *)

Record MergedRow : Type := mkRow
  { row_date : date; views_a : option Z; views_b : option Z }.

Fixpoint insert_key (d : date) (keys : list date) : list date :=
  match keys with
  | [] => [d]
  | k :: keys' =>
      if date_ltb d k then d :: keys
      else if date_eqb d k then keys
      else k :: insert_key d keys'
  end.

(** The keys of the join: the dates of both frames, ascending, each once. *)
Definition join_keys (df1 df2 : DataFrame) : list date :=
  fold_right insert_key [] (map rec_date df1 ++ map rec_date df2).

Definition with_date (k : date) (df : DataFrame) : DataFrame :=
  filter (fun r => date_eqb (rec_date r) k) df.

Definition rows_for (df1 df2 : DataFrame) (k : date) : list MergedRow :=
  match with_date k df1, with_date k df2 with
  | [], rs => map (fun r => mkRow k None (Some (rec_views r))) rs
  | ls, [] => map (fun l => mkRow k (Some (rec_views l)) None) ls
  | ls, rs =>
      flat_map (fun l =>
        map (fun r => mkRow k (Some (rec_views l)) (Some (rec_views r))) rs) ls
  end.

Definition merge_outer (df1 df2 : DataFrame) : list MergedRow :=
  flat_map (rows_for df1 df2) (join_keys df1 df2).

(** [df.sort_values("date")]: rows in ascending order of the date.  Rows
    of equal date are kept in the order they had; pandas' default sort does
    not promise that order, and no statement below depends on it. *)
Fixpoint insert_row (r : MergedRow) (rows : list MergedRow) : list MergedRow :=
  match rows with
  | [] => [r]
  | x :: rows' =>
      if date_ltb (row_date r) (row_date x) then r :: rows
      else x :: insert_row r rows'
  end.

Definition sort_values (rows : list MergedRow) : list MergedRow :=
  fold_right insert_row [] (rev rows).

(* ------------------------------------------------------------------ *)
(** * float64 arithmetic of the share columns

    [views * 0.1 + noise] is computed by numpy in IEEE 754 binary64; the
    operations are those of the standard library's [SpecFloat], at
    precision 53 and maximal exponent 1024. *)

Definition prec64 : Z := 53.
Definition emax64 : Z := 1024.

(** Conversion of an integer to float64 (round to nearest, ties to even). *)
Definition b64_of_Z (z : Z) : spec_float := binary_normalize prec64 emax64 z 0 false.

(** The float64 literal [0.1], 0x3FB999999999999A. *)
Definition tenth : spec_float := S754_finite false 7205759403792794 (-56).

Definition b64_mul : spec_float -> spec_float -> spec_float := SFmul prec64 emax64.
Definition b64_add : spec_float -> spec_float -> spec_float := SFadd prec64 emax64.

(** A cell of a views column once the column takes part in float
    arithmetic: the count as a float64, or NaN where the cell is absent. *)
Definition cell_float (c : option Z) : spec_float :=
  match c with
  | Some v => b64_of_Z v
  | None => S754_nan
  end.

(** Conversion of one float64 to an integer by [astype(int)]: the
    fraction is cut off (rounding toward zero); NaN and the infinities are
    refused.  The result is an integer without bound: the range of int64
    is not modelled. *)
Definition trunc_b64 (x : spec_float) : outcome Z :=
  match x with
  | S754_zero _ => Ret 0
  | S754_finite s m e =>
      let a := if 0 <=? e then Z.pos m * 2 ^ e else Z.pos m / 2 ^ (- e) in
      Ret (if s then - a else a)
  | S754_infinity _ | S754_nan => Raise IntCastingNaNError
  end.

(** [series.astype(int)] *)
Fixpoint astype_int (xs : list spec_float) : outcome (list Z) :=
  match xs with
  | [] => Ret []
  | x :: xs' =>
      obind (trunc_b64 x) (fun n =>
        obind (astype_int xs') (fun ns => Ret (n :: ns)))
  end.

(** [(views * 0.1 + draws).astype(int)], element by element. *)
Definition share_float (c : option Z) (draw : Z) : spec_float :=
  b64_add (b64_mul (cell_float c) tenth) (b64_of_Z draw).

Definition shares_column (views : list (option Z)) (draws : list Z)
  : outcome (list Z) :=
  astype_int (map (fun '(c, r) => share_float c r) (combine views draws)).

(* ------------------------------------------------------------------ *)
(** * Pipeline *)

(** A row of the table the pipeline returns. *)
Record SharesRow : Type := mkSharesRow
  { merged : MergedRow; shares_a : Z; shares_b : Z }.

(** [np.random.seed(s)] *)
Definition np_random_seed (s : Z) : Py unit :=
  fun w => (Ret tt, mkWorld (stdout w) (requested w) s O).

(** [np.random.randint(0, 10, size=n)] *)
Definition np_random_randint (n : nat) : Py (list Z) :=
  fun w =>
    (Ret (map (noise (gen_seed w)) (seq (gen_pos w) n)),
     mkWorld (stdout w) (requested w) (gen_seed w) (gen_pos w + n)).

(** Python's truth value of a title: [None] and [""] are false. *)
Definition truthy (title : option string) : bool :=
  match title with
  | None => false
  | Some EmptyString => false
  | Some _ => true
  end.

Definition msg_bad_input : string :=
  "Error: Could not extract page title from one or both URLs.".

Definition msg_no_data : string :=
  "No data available for one or both pages. Check your URLs or date range.".

Definition msg_fetching (t1 t2 : string) : string :=
  newline ++ "Fetching data for '" ++ t1 ++ "' and '" ++ t2 ++ "' ...".

(** [df_merged[f"views_{title}"]]: after the renaming the two views
    columns are named after the titles; when the titles are equal the
    merge tells them apart by the suffixes [_x] and [_y], and no column has
    the name asked for. *)
Definition views_column (t1 t2 : string) (col : MergedRow -> option Z)
           (rows : list MergedRow) : outcome (list (option Z)) :=
  if String.eqb t1 t2 then Raise KeyError else Ret (map col rows).

Definition add_shares (rows : list MergedRow) (sa sb : list Z) : list SharesRow :=
  map (fun '(r, (a, b)) => mkSharesRow r a b) (combine rows (combine sa sb)).

(** Lines 83 to 96: merge, sort, seed, the two share columns. *)
Definition derive (t1 t2 : string) (df1 df2 : DataFrame) : Py (list SharesRow) :=
  let df_merged := sort_values (merge_outer df1 df2) in
  np_random_seed 42 ;;;
  col_a <- lift (views_column t1 t2 views_a df_merged) ;;
  draws_a <- np_random_randint (List.length df_merged) ;;
  sa <- lift (shares_column col_a draws_a) ;;
  col_b <- lift (views_column t1 t2 views_b df_merged) ;;
  draws_b <- np_random_randint (List.length df_merged) ;;
  sb <- lift (shares_column col_b draws_b) ;;
  ret (add_shares df_merged sa sb).

(** [analyze_wiki_pages(url1, url2, start_date, end_date)]; the plotting
    calls (lines 98 to 122), which do not change the table, are left out:
    the model describes the runs up to them, and what is returned when
    they return. *)
Definition analyze_wiki_pages (url1 url2 : string) (start_date end_date : date)
  : Py (option (list SharesRow)) :=
  page1_title <- lift (extract_page_title url1) ;;
  page2_title <- lift (extract_page_title url2) ;;
  match page1_title, page2_title with
  | Some t1, Some t2 =>
      if truthy page1_title && truthy page2_title then
        print (msg_fetching t1 t2) ;;;
        df1 <- fetch_pageviews t1 start_date end_date ;;
        df2 <- fetch_pageviews t2 start_date end_date ;;
        if df_empty df1 || df_empty df2 then
          print msg_no_data ;;;
          ret None
        else
          table <- derive t1 t2 df1 df2 ;;
          ret (Some table)
      else
        print msg_bad_input ;;;
        ret None
  | _, _ =>
      print msg_bad_input ;;;
      ret None
  end.

End Program.

(* ------------------------------------------------------------------ *)
(** * Vocabulary of the statements *)

(** The date that eight decimal digits YYYYMMDD denote. *)
Definition ymd_digits (s : string) : option date :=
  match s with
  | String a (String b (String c (String d (String e (String f (String g
      (String h EmptyString))))))) =>
      match digit_val a, digit_val b, digit_val c, digit_val d,
            digit_val e, digit_val f, digit_val g, digit_val h with
      | Some y1, Some y2, Some y3, Some y4, Some m1, Some m2, Some d1, Some d2 =>
          Some (mkDate (1000 * y1 + 100 * y2 + 10 * y3 + y4)
                       (10 * m1 + m2) (10 * d1 + d2))
      | _, _, _, _, _, _, _, _ => None
      end
  | _ => None
  end.

(** An item bears a timestamp that starts with the digits of the calendar
    date [d], and the views count [v]. *)
Definition item_bears (it : item) (d : date) (v : Z) : Prop :=
  exists ts,
    timestamp it = Some ts
    /\ ymd_digits (PyStr.take 8 ts) = Some d
    /\ valid_date d = true
    /\ item_views it = Some v.

Definition well_formed_item (it : item) : Prop := exists d v, item_bears it d v.

(** An item lacks one of the two fields the loop reads. *)
Definition lacks_field (it : item) : Prop :=
  timestamp it = None \/ item_views it = None.

(** The world after one request for [url] that printed nothing. *)
Definition after_request (w : world) (url : string) : world :=
  mkWorld (stdout w) (requested w ++ [url]) (gen_seed w) (gen_pos w).

Definition after_print (w : world) (line : string) : world :=
  mkWorld (stdout w ++ [line]) (requested w) (gen_seed w) (gen_pos w).

Definition msg_http_error (page_title : string) (status : Z) : string :=
  "Error fetching data for " ++ page_title ++ ": HTTP " ++ decimal status.

(** The dates a frame holds. *)
Definition dates (df : DataFrame) : list date := map rec_date df.

(** The views a frame records for date [k] (of its first record with that
    date), if any. *)
Definition views_on (k : date) (df : DataFrame) : option Z :=
  option_map rec_views (List.find (fun r => date_eqb (rec_date r) k) df).

Definition same_dates (df1 df2 : DataFrame) : Prop :=
  forall d, In d (dates df1) <-> In d (dates df2).

Definition date_lt (a b : date) : Prop := date_ltb a b = true.

(** The row the join holds for key [k] when neither frame repeats a date. *)
Definition joined_row (df1 df2 : DataFrame) (k : date) : MergedRow :=
  mkRow k (views_on k df1) (views_on k df2).

(** The world once the generator is seeded with 42 and [n] draws are used. *)
Definition seeded (w : world) (n : nat) : world :=
  mkWorld (stdout w) (requested w) 42 n.

(** Draws number [pos], ..., [pos + n - 1] of the sequence of seed 42. *)
Definition draws (noise : Z -> nat -> Z) (pos n : nat) : list Z :=
  map (noise 42) (seq pos n).

(** The merged table of line 88. *)
Definition merged_table (df1 df2 : DataFrame) : list MergedRow :=
  sort_values (merge_outer df1 df2).

(** Values are compared on the scale of [2^-108]: a float [m * 2^e] with
    [-108 <= e] is the integer [m * 2^(e + 108)] there. *)
Definition scaled (m : positive) (e : Z) : Z := Z.pos m * 2 ^ (e + 108).

(** The mantissa of the float64 [0.1], ten times which is [2^56 + 4]. *)
Definition tenth_m : positive := 7205759403792794.

(* ------------------------------------------------------------------ *)
(** * Sample inputs *)

Definition jan (d : Z) : date := mkDate 2022 1 d.

Definition world0 : world := mkWorld [] [] 0 0.

Definition url_python : string :=
  "https://en.wikipedia.org/wiki/Python_(programming_language)".

Definition url_java : string :=
  "https://en.wikipedia.org/wiki/Java_(programming_language)".

Definition two_items : list item :=
  [mkItem (Some "2022010100") (Some 100); mkItem (Some "2022010200") (Some 205)].

(** An upstream that answers every request with the same two items. *)
Definition network_two_items : nat -> string -> outcome response :=
  fun _ _ => Ret (mkResponse 200 (Some (mkPayload (Some two_items)))).

(** An upstream that knows no page. *)
Definition network_not_found : nat -> string -> outcome response :=
  fun _ _ => Ret (mkResponse 404 None).

(** An upstream whose answer has no ["items"]. *)
Definition network_no_items : nat -> string -> outcome response :=
  fun _ _ => Ret (mkResponse 200 (Some (mkPayload None))).

(** An upstream whose second item has no ["views"]. *)
Definition network_no_views : nat -> string -> outcome response :=
  fun _ _ =>
    Ret (mkResponse 200 (Some (mkPayload (Some
      [mkItem (Some "2022010100") (Some 100); mkItem (Some "2022010200") None])))).

(** An upstream that holds one more day for the second page asked. *)
Definition network_uneven : nat -> string -> outcome response :=
  fun n _ =>
    Ret (mkResponse 200 (Some (mkPayload (Some
      (match n with
       | O => two_items
       | _ => (two_items ++ [mkItem (Some "2022010300") (Some 47)])%list
       end))))).

(** A sequence of draws in [0, 10) to run the pipeline on. *)
Definition sample_noise : Z -> nat -> Z := fun _ i => Z.of_nat (i mod 10).

(** An upstream that does not know the first page asked and answers the
    second request with an item without ["views"]. *)
Definition network_not_found_then_no_views : nat -> string -> outcome response :=
  fun n url =>
    match n with
    | O => network_not_found n url
    | _ => network_no_views n url
    end.

(* ------------------------------------------------------------------ *)
(** * The button callback

    [str.strip()] removes the white space of Unicode at both ends; on
    the UTF-8 bytes of a string these are the bytes 0x09 to 0x0D, 0x1C to
    0x1F and 0x20, the two-byte characters U+0085 and U+00A0 and the
    three-byte characters U+1680, U+2000 to U+200A, U+2028, U+2029, U+202F,
    U+205F and U+3000. *)

Module Strip.

Definition code (c : ascii) : nat := nat_of_ascii c.

Definition space1 (a : ascii) : bool :=
  (((9 <=? code a) && (code a <=? 13)) || ((28 <=? code a) && (code a <=? 32)))%nat.

Definition space2 (a b : ascii) : bool :=
  ((code a =? 194) && ((code b =? 133) || (code b =? 160)))%nat.

Definition space3 (a b c : ascii) : bool :=
  (((code a =? 225) && (code b =? 154) && (code c =? 128))
   || ((code a =? 226) && (code b =? 128)
       && (((128 <=? code c) && (code c <=? 138))
           || (code c =? 168) || (code c =? 169) || (code c =? 175)))
   || ((code a =? 226) && (code b =? 129) && (code c =? 159))
   || ((code a =? 227) && (code b =? 128) && (code c =? 128)))%nat.

(** Removal of the white space at the front, for tests [w1], [w2], [w3] of
    the characters of one, two and three bytes. *)
Fixpoint strip_front (w1 : ascii -> bool) (w2 : ascii -> ascii -> bool)
         (w3 : ascii -> ascii -> ascii -> bool) (s : string) : string :=
  match s with
  | EmptyString => EmptyString
  | String a s1 =>
      if w1 a then strip_front w1 w2 w3 s1
      else
        match s1 with
        | EmptyString => s
        | String b s2 =>
            if w2 a b then strip_front w1 w2 w3 s2
            else
              match s2 with
              | EmptyString => s
              | String c s3 =>
                  if w3 a b c then strip_front w1 w2 w3 s3 else s
              end
        end
  end.

Definition reverse (s : string) : string := PyStr.rev_string EmptyString s.

(** [s.lstrip()] *)
Definition lstrip (s : string) : string := strip_front space1 space2 space3 s.

(** [s.rstrip()]: the same from the end, on the bytes in reverse. *)
Definition rstrip (s : string) : string :=
  reverse (strip_front space1 (fun a b => space2 b a)
                       (fun a b c => space3 c b a) (reverse s)).

(** [s.strip()] *)
Definition strip (s : string) : string := rstrip (lstrip s).

End Strip.

(** The values of the four input widgets; a date picker may be unset. *)
Record widgets : Type := mkWidgets
  { url1_value : string; url2_value : string;
    start_value : option date; end_value : option date }.

(** What the output area holds: the printed lines (in [stdout] of the
    world) and the tables handed to [show]. *)
Record notebook : Type := mkNotebook
  { nb_world : world; nb_shown : list (list SharesRow) }.

Definition msg_select_dates : string := "Please select both start and end dates.".
Definition msg_starting : string := "Starting analysis...".
Definition msg_merged : string :=
  newline ++ "Merged DataFrame (Pageviews & Simulated Shares):".

(** [clear_output()] inside the output area: what was printed and shown
    there is gone; requests sent and the generator are not affected. *)
Definition clear_output (nb : notebook) : notebook :=
  mkNotebook (mkWorld [] (requested (nb_world nb)) (gen_seed (nb_world nb))
                      (gen_pos (nb_world nb)))
             [].

Section Callback.

Variable network : nat -> string -> outcome response.
Variable noise : Z -> nat -> Z.

(** The body of [with output_area:] in [on_run_button_clicked(b)].  The
    outcome tells whether the body ended or an exception left it (the
    exception is then handed to the output area's context manager). *)
Definition on_run_button_clicked (ws : widgets) (nb : notebook)
  : outcome unit * notebook :=
  let nb := clear_output nb in
  let url1 := Strip.strip (url1_value ws) in
  let url2 := Strip.strip (url2_value ws) in
  match start_value ws, end_value ws with
  | Some start_date, Some end_date =>
      let w := after_print (nb_world nb) msg_starting in
      match analyze_wiki_pages network noise url1 url2 start_date end_date w with
      | (Ret (Some df_result), w') =>
          (Ret tt, mkNotebook (after_print w' msg_merged)
                              (nb_shown nb ++ [df_result]))
      | (Ret None, w') => (Ret tt, mkNotebook w' (nb_shown nb))
      | (Raise exc, w') => (Raise exc, mkNotebook w' (nb_shown nb))
      end
  | _, _ =>
      (Ret tt, mkNotebook (after_print (nb_world nb) msg_select_dates) (nb_shown nb))
  end.

End Callback.

(* ------------------------------------------------------------------ *)
(** * Further vocabulary *)

(** No character of [cs] occurs in [s]. *)
Fixpoint free_of (cs s : string) : bool :=
  match cs with
  | EmptyString => true
  | String c cs' => negb (PyStr.contains c s) && free_of cs' s
  end.

(** Tab, carriage return and line feed, which [urlsplit] removes. *)
Definition unsafe_chars : string :=
  String "009"%char (String "013"%char (String "010"%char EmptyString)).

(** An ASCII host without the characters that end or bracket an
    authority. *)
Definition plain_host (host : string) : bool :=
  free_of ("/?#[]" ++ unsafe_chars) host
  && UrlLib.all_chars (fun c => (nat_of_ascii c <? 128)%nat) host.

(** A title without query, fragment and parameter marks. *)
Definition plain_title (t : string) : bool :=
  free_of ("?#;" ++ unsafe_chars) t.

(** Nothing, a query or a fragment. *)
Definition query_or_fragment (sfx : string) : bool :=
  free_of unsafe_chars sfx
  && match sfx with
     | EmptyString => true
     | String c _ => Ascii.eqb c "?" || Ascii.eqb c "#"
     end.

(** An item converts to the record [r]. *)
Definition converts_to (it : item) (r : PageviewRecord) : Prop :=
  record_of_item it = Ret r.

(** What [fetch_pageviews] prints, given the answer to its request. *)
Definition fetch_output (title : string) (answer : outcome response) : list string :=
  match answer with
  | Ret resp =>
      if status_code resp =? 200 then []
      else [msg_http_error title (status_code resp)]
  | Raise _ => []
  end.

(** Dates in ascending order, equal dates allowed. *)
Definition date_le (a b : date) : Prop := date_ltb b a = false.

(** A cell of the merged table agrees with a frame on a date: absent when
    the frame has no record of the date, else the views of one of its
    records of that date. *)
Definition cell_of (df : DataFrame) (k : date) (cell : option Z) : Prop :=
  match cell with
  | None => ~ In k (dates df)
  | Some v => exists r, In r df /\ rec_date r = k /\ rec_views r = v
  end.

(** What [fetch_pageviews] returns or raises, given the number [n] of
    requests sent before it. *)
Definition fetch_result (network : nat -> string -> outcome response)
           (title : string) (s e : date) (n : nat) : outcome DataFrame :=
  match network n (api_url title s e) with
  | Raise exc => Raise exc
  | Ret resp =>
      if negb (status_code resp =? 200) then Ret []
      else obind (json resp) (fun data =>
             records_loop (get_default (items data) []) [])
  end.

(** The world after a call of [fetch_pageviews]. *)
Definition fetch_world (network : nat -> string -> outcome response)
           (title : string) (s e : date) (w : world) : world :=
  mkWorld (stdout w
           ++ fetch_output title
                (network (List.length (requested w)) (api_url title s e)))%list
          (requested w ++ [api_url title s e])
          (gen_seed w) (gen_pos w).

(** Only ASCII white space: the bytes that [str.strip()] removes one by
    one. *)
Definition blank (s : string) : bool := UrlLib.all_chars Strip.space1 s.

(** The world inside the output area once it is cleared. *)
Definition cleared (w : world) : world :=
  mkWorld [] (requested w) (gen_seed w) (gen_pos w).

(** The values the widgets are built with (lines 128 to 147). *)
Definition default_widgets : widgets :=
  mkWidgets url_python url_java (Some (mkDate 2022 1 1)) (Some (mkDate 2022 1 31)).

(** Counts that a float64 holds exactly.  A views column of the merged
    table that has an absent cell is a float64 column in pandas; the model
    keeps the count itself, which is the same number for these counts. *)
Definition float_exact (df : DataFrame) : Prop :=
  Forall (fun r => Z.abs (rec_views r) <= 2 ^ 53) df.

(** Only bytes below 128. *)
Definition ascii_string (s : string) : bool :=
  UrlLib.all_chars (fun c => (nat_of_ascii c <? 128)%nat) s.

(** Items whose timestamps, where present, are ASCII: there the bytes the
    model slices and reads are the characters Python slices and reads. *)
Definition ascii_stamps (its : list item) : Prop :=
  Forall (fun it => match timestamp it with
                    | Some ts => ascii_string ts = true
                    | None => True
                    end) its.

(* ================================================================== *)
(** * Properties *)

Section TitleExtractorFacts.
Import PyStr.

Lemma append_empty_r (s : string) : (s ++ "")%string = s.
Proof. induction s; simpl; congruence. Qed.

Lemma append_assoc (s t u : string) : ((s ++ t) ++ u = s ++ (t ++ u))%string.
Proof. induction s; simpl; congruence. Qed.

Lemma rev_string_app (s acc : string) :
  rev_string acc s = (rev_string EmptyString s ++ acc)%string.
Proof.
  revert acc. induction s as [|c s IH]; intro acc; simpl.
  - reflexivity.
  - rewrite IH. rewrite (IH (String c EmptyString)).
    rewrite append_assoc. reflexivity.
Qed.

Lemma split_go_skip (sep : string) (k : nat) :
  forall s cur, split_go sep s k cur = split_go sep (drop k s) 0 cur.
Proof.
  induction k as [|k IH]; intros s cur.
  - reflexivity.
  - destruct s as [|c s]; simpl; [reflexivity | apply IH].
Qed.

Lemma split_go_head (sep : string) :
  forall s cur, exists rest,
    split_go sep s 0 cur
    = (rev_string EmptyString cur ++ until_sep sep s)%string :: rest.
Proof.
  induction s as [|c s IH]; intro cur.
  - exists []. simpl. now rewrite append_empty_r.
  - cbn [split_go until_sep]. destruct (String.prefix sep (String c s)).
    + eexists. now rewrite append_empty_r.
    + destruct (IH (String c cur)) as [rest Hrest]. exists rest.
      rewrite Hrest. f_equal. cbn [rev_string].
      rewrite (rev_string_app cur (String c EmptyString)).
      rewrite append_assoc. reflexivity.
Qed.

Lemma prefix_drop (p : string) :
  forall s, String.prefix p s = true ->
            forall c s', s = String c s' ->
                         drop (Nat.pred (String.length p)) s'
                         = drop (String.length p) s \/ p = EmptyString.
Proof.
  intros s _ c s' ->. destruct p as [|a p]; [now right | now left].
Qed.

(** [path.split(sep)] on a path that starts with the non-empty [sep]:
    an empty first piece, then the text up to the next [sep]. *)
Lemma split_startswith (sep s : string) :
  sep <> EmptyString ->
  startswith s sep = true ->
  exists rest,
    split s sep
    = EmptyString :: until_sep sep (drop (String.length sep) s) :: rest.
Proof.
  intros Hne Hp. unfold startswith in Hp. unfold split.
  destruct s as [|c s].
  - destruct sep; [congruence | discriminate].
  - cbn [split_go]. rewrite Hp. rewrite split_go_skip.
    destruct (prefix_drop sep _ Hp c s eq_refl) as [-> | ->]; [|congruence].
    destruct (split_go_head sep (drop (String.length sep) (String c s)) EmptyString)
      as [rest ->].
    exists rest. reflexivity.
Qed.

Lemma until_sep_absent (sep : string) :
  forall s, occurs sep s = false -> until_sep sep s = s.
Proof.
  induction s as [|c s IH]; intro H; [reflexivity|].
  cbn [occurs until_sep] in *. apply orb_false_iff in H as [H1 H2].
  rewrite H1. f_equal. auto.
Qed.



(** What the extractor computes on a path that starts with the prefix. *)
Lemma extract_page_title_on_prefix (url : string) (parsed : UrlLib.ParseResult) :
  UrlLib.urlparse url = Ret parsed ->
  startswith (UrlLib.path parsed) wiki_prefix = true ->
  extract_page_title url
  = Ret (Some (UrlLib.unquote
                 (until_sep wiki_prefix (remainder (UrlLib.path parsed))))).
Proof.
  intros Hu Hp. unfold extract_page_title. rewrite Hu. cbn [obind]. rewrite Hp.
  destruct (split_startswith wiki_prefix (UrlLib.path parsed)) as [rest ->];
    [discriminate | assumption |].
  reflexivity.
Qed.

Lemma extract_page_title_off_prefix (url : string) (parsed : UrlLib.ParseResult) :
  UrlLib.urlparse url = Ret parsed ->
  startswith (UrlLib.path parsed) wiki_prefix = false ->
  extract_page_title url = Ret None.
Proof.
  intros Hu Hp. unfold extract_page_title. rewrite Hu. cbn [obind].
  now rewrite Hp.
Qed.

Lemma extract_page_title_parse_error (url : string) (e : exn) :
  UrlLib.urlparse url = Raise e -> extract_page_title url = Raise e.
Proof. intros Hu. unfold extract_page_title. now rewrite Hu. Qed.

End TitleExtractorFacts.

(* ------------------------------------------------------------------ *)
(** * Pageview fetcher *)

Section FetcherFacts.

Variable network : nat -> string -> outcome response.

Lemma digit_val_range (c : ascii) (x : Z) : digit_val c = Some x -> 0 <= x <= 9.
Proof.
  unfold digit_val, UrlLib.is_digit.
  destruct ((48 <=? nat_of_ascii c)%nat && (nat_of_ascii c <=? 57)%nat) eqn:E;
    [|discriminate].
  apply andb_true_iff in E as [E1 E2].
  apply Nat.leb_le in E1, E2. intros [= <-]. lia.
Qed.

Lemma match_m_two_digits (a b : ascii) (x y : Z) (rest : string) :
  digit_val a = Some x -> digit_val b = Some y ->
  1 <= 10 * x + y <= 12 ->
  exists tl, match_m (String a (String b rest)) = (10 * x + y, rest) :: tl.
Proof.
  intros Ha Hb Hm.
  pose proof (digit_val_range _ _ Ha). pose proof (digit_val_range _ _ Hb).
  unfold match_m, two_digits. rewrite Ha, Hb.
  destruct ((x =? 1) && (y <=? 2)) eqn:E1; [eexists; reflexivity|].
  destruct ((x =? 0) && (1 <=? y)) eqn:E2; [eexists; reflexivity|].
  exfalso.
  apply andb_false_iff in E1, E2.
  rewrite Z.eqb_neq, Z.leb_gt in E1, E2. lia.
Qed.

Lemma match_d_two_digits (a b : ascii) (x y : Z) (rest : string) :
  digit_val a = Some x -> digit_val b = Some y ->
  1 <= 10 * x + y <= 31 ->
  exists tl, match_d (String a (String b rest)) = (10 * x + y, rest) :: tl.
Proof.
  intros Ha Hb Hm.
  pose proof (digit_val_range _ _ Ha). pose proof (digit_val_range _ _ Hb).
  unfold match_d, two_digits. rewrite Ha, Hb.
  destruct ((x =? 3) && (y <=? 1)) eqn:E1; [eexists; reflexivity|].
  destruct ((1 <=? x) && (x <=? 2)) eqn:E2; [eexists; reflexivity|].
  destruct ((x =? 0) && (1 <=? y)) eqn:E3; [eexists; reflexivity|].
  exfalso.
  apply andb_false_iff in E1, E2, E3.
  rewrite Z.eqb_neq, Z.leb_gt in E1, E3. rewrite !Z.leb_gt in E2. lia.
Qed.

Lemma days_in_month_le (y m : Z) : days_in_month y m <= 31.
Proof.
  unfold days_in_month.
  repeat match goal with |- context [if ?b then _ else _] => destruct b end; lia.
Qed.

Lemma valid_date_bounds (d : date) :
  valid_date d = true -> 1 <= month d <= 12 /\ 1 <= day d <= 31.
Proof.
  unfold valid_date. rewrite !andb_true_iff, !Z.leb_le.
  pose proof (days_in_month_le (year d) (month d)). lia.
Qed.

(** [strptime] reads eight digits of a calendar date as that date. *)
Lemma strptime_Ymd_digits (s : string) (d : date) :
  ymd_digits s = Some d -> valid_date d = true -> strptime_Ymd s = Ret d.
Proof.
  unfold ymd_digits. intros Hs Hv.
  do 8 (destruct s as [|? s]; [discriminate|]).
  destruct s; [|discriminate].
  destruct (digit_val a) as [y1|] eqn:H1; [|discriminate].
  destruct (digit_val a0) as [y2|] eqn:H2; [|discriminate].
  destruct (digit_val a1) as [y3|] eqn:H3; [|discriminate].
  destruct (digit_val a2) as [y4|] eqn:H4; [|discriminate].
  destruct (digit_val a3) as [m1|] eqn:H5; [|discriminate].
  destruct (digit_val a4) as [m2|] eqn:H6; [|discriminate].
  destruct (digit_val a5) as [d1|] eqn:H7; [|discriminate].
  destruct (digit_val a6) as [d2|] eqn:H8; [|discriminate].
  assert (Hs' : mkDate (1000 * y1 + 100 * y2 + 10 * y3 + y4)
                       (10 * m1 + m2) (10 * d1 + d2) = d) by congruence.
  clear Hs. subst d.
  destruct (valid_date_bounds _ Hv) as [Hm Hd]. cbn [month day] in Hm, Hd.
  destruct (match_m_two_digits _ _ _ _ (String a5 (String a6 "")) H5 H6 Hm)
    as [tlm Hmm].
  destruct (match_d_two_digits _ _ _ _ "" H7 H8 Hd) as [tld Hmd].
  unfold strptime_Ymd, match_Y. rewrite H1, H2, H3, H4.
  cbn [flat_map]. rewrite Hmm. cbn [flat_map]. rewrite Hmd. cbn [map app].
  now rewrite Hv.
Qed.

Lemma record_of_item_bears (it : item) (d : date) (v : Z) :
  item_bears it d v -> record_of_item it = Ret (mkRecord d v).
Proof.
  intros (ts & Hts & Hd & Hv & Hviews). unfold record_of_item.
  rewrite Hts. cbn [getitem obind].
  rewrite (strptime_Ymd_digits _ _ Hd Hv). cbn [obind].
  now rewrite Hviews.
Qed.

Lemma records_loop_well_formed (its : list item) :
  Forall well_formed_item its ->
  forall acc, exists recs,
    records_loop its acc = Ret (acc ++ recs)%list
    /\ Forall2 (fun it r => item_bears it (rec_date r) (rec_views r)) its recs.
Proof.
  induction 1 as [|it its (d & v & Hit) _ IH]; intro acc.
  - exists []. split; [now rewrite app_nil_r | constructor].
  - destruct (IH (acc ++ [mkRecord d v])%list) as (recs & Hloop & Hall).
    exists (mkRecord d v :: recs). split.
    + cbn [records_loop]. rewrite (record_of_item_bears _ _ _ Hit). cbn [obind].
      rewrite Hloop. now rewrite <- app_assoc.
    + constructor; assumption.
Qed.

Lemma record_of_item_lacking (it : item) :
  lacks_field it ->
  record_of_item it = Raise KeyError \/ record_of_item it = Raise ValueError.
Proof.
  unfold record_of_item. intros [H | H].
  - rewrite H. now left.
  - destruct (timestamp it) as [ts|]; [|now left]. cbn [getitem obind].
    destruct (strptime_Ymd (PyStr.take 8 ts)) as [d|e] eqn:E; cbn [obind].
    + rewrite H. now left.
    + right. unfold strptime_Ymd in E.
      destruct (flat_map _ _) as [|[d' [|]] ?]; try (now inversion E).
      destruct (valid_date d'); now inversion E.
Qed.

Lemma record_of_item_raises (it : item) (e : exn) :
  record_of_item it = Raise e -> e = KeyError \/ e = ValueError.
Proof.
  unfold record_of_item.
  destruct (timestamp it) as [ts|]; cbn [getitem obind]; [|intros [= <-]; now left].
  destruct (strptime_Ymd (PyStr.take 8 ts)) as [d|e'] eqn:E; cbn [obind].
  - destruct (item_views it); cbn [getitem obind]; [discriminate|].
    intros [= <-]; now left.
  - intros [= <-]. right. unfold strptime_Ymd in E.
    destruct (flat_map _ _) as [|[d' [|]] ?]; try (now inversion E).
    destruct (valid_date d'); now inversion E.
Qed.

Lemma records_loop_lacking (its : list item) :
  Exists lacks_field its ->
  forall acc, exists e,
    records_loop its acc = Raise e /\ (e = KeyError \/ e = ValueError).
Proof.
  induction its as [|it its IH]; intros Hex acc.
  - inversion Hex.
  - cbn [records_loop].
    destruct (record_of_item it) as [r|e] eqn:E; cbn [obind].
    + apply IH. inversion Hex as [? ? Hl|]; subst; [|assumption].
      destruct (record_of_item_lacking _ Hl); congruence.
    + exists e. split; [reflexivity | eapply record_of_item_raises; eassumption].
Qed.

(** The three ways through [fetch_pageviews] once the request is answered. *)
Lemma fetch_pageviews_answered (title : string) (s e : date) (w : world)
      (resp : response) :
  network (List.length (requested w)) (api_url title s e) = Ret resp ->
  fetch_pageviews network title s e w
  = if negb (status_code resp =? 200)
    then (Ret [], after_print (after_request w (api_url title s e))
                    (msg_http_error title (status_code resp)))
    else (obind (json resp) (fun data =>
            records_loop (get_default (items data) []) []),
          after_request w (api_url title s e)).
Proof.
  intro Hn. unfold fetch_pageviews, bind, requests_get. rewrite Hn.
  destruct (negb (status_code resp =? 200)); [reflexivity|].
  unfold lift. destruct (json resp); reflexivity.
Qed.

End FetcherFacts.

(** C5. On a response with status 200 whose body holds a list of N items,
    each with a timestamp that starts with the eight digits of a calendar
    date and with a views count, the fetcher returns N records, in the order
    of the items, each with the date of its item's first eight characters
    and its item's views; it prints nothing. *)
Theorem fetch_pageviews_success
        (network : nat -> string -> outcome response)
        (title : string) (s e : date) (w : world)
        (resp : response) (its : list item) :
  network (List.length (requested w)) (api_url title s e) = Ret resp ->
  status_code resp = 200 ->
  body resp = Some (mkPayload (Some its)) ->
  Forall well_formed_item its ->
  exists recs,
    fetch_pageviews network title s e w
    = (Ret recs, after_request w (api_url title s e))
    /\ List.length recs = List.length its
    /\ Forall2 (fun it r => item_bears it (rec_date r) (rec_views r)) its recs.
Proof.
  intros Hn Hs Hb Hits.
  rewrite (fetch_pageviews_answered _ _ _ _ _ _ Hn), Hs. cbn [Z.eqb negb Pos.eqb].
  unfold json. rewrite Hb. cbn [obind items get_default].
  destruct (records_loop_well_formed its Hits []) as (recs & -> & Hall).
  exists recs. repeat split; [|assumption].
  symmetry. eapply Forall2_length; eassumption.
Qed.

(** C6. On a response whose status is not 200 the fetcher prints the
    failure, naming the page and the status code, and returns the empty
    frame; nothing is raised. *)
Theorem fetch_pageviews_non_success
        (network : nat -> string -> outcome response)
        (title : string) (s e : date) (w : world) (resp : response) :
  network (List.length (requested w)) (api_url title s e) = Ret resp ->
  status_code resp <> 200 ->
  fetch_pageviews network title s e w
  = (Ret [], after_print (after_request w (api_url title s e))
               (msg_http_error title (status_code resp))).
Proof.
  intros Hn Hs. rewrite (fetch_pageviews_answered _ _ _ _ _ _ Hn).
  apply Z.eqb_neq in Hs. now rewrite Hs.
Qed.

(** C9, as amended.  On a response with status 200 and a JSON body: when
    the [items] list is missing the fetcher takes it to be empty and returns
    the empty frame; when some item lacks its timestamp or its views, an
    exception ([KeyError], or the [ValueError] of an earlier or the same
    item's date) leaves the fetcher uncaught. *)
Theorem fetch_pageviews_unexpected_shape
        (network : nat -> string -> outcome response)
        (title : string) (s e : date) (w : world)
        (resp : response) (p : payload) :
  network (List.length (requested w)) (api_url title s e) = Ret resp ->
  status_code resp = 200 ->
  body resp = Some p ->
  (items p = None ->
   fetch_pageviews network title s e w
   = (Ret [], after_request w (api_url title s e)))
  /\ (forall its, items p = Some its -> Exists lacks_field its ->
      exists exc,
        fetch_pageviews network title s e w
        = (Raise exc, after_request w (api_url title s e))
        /\ (exc = KeyError \/ exc = ValueError)).
Proof.
  intros Hn Hs Hb.
  rewrite (fetch_pageviews_answered _ _ _ _ _ _ Hn), Hs. cbn [Z.eqb negb Pos.eqb].
  unfold json. rewrite Hb. cbn [obind]. split.
  - now intros ->.
  - intros its -> Hex. cbn [get_default].
    destruct (records_loop_lacking its Hex []) as (exc & -> & Hexc).
    exists exc. now split.
Qed.

(* ------------------------------------------------------------------ *)
(** * Dates are totally ordered *)

Lemma date_eqb_eq (a b : date) : date_eqb a b = true <-> a = b.
Proof.
  unfold date_eqb. rewrite !andb_true_iff, !Z.eqb_eq.
  destruct a, b; cbn. split; [intros [[-> ->] ->]; reflexivity|].
  intros [= -> -> ->]; auto.
Qed.

Lemma date_eqb_refl (a : date) : date_eqb a a = true.
Proof. now apply date_eqb_eq. Qed.

Lemma date_eqb_neq (a b : date) : date_eqb a b = false <-> a <> b.
Proof.
  rewrite <- date_eqb_eq. destruct (date_eqb a b); split; congruence.
Qed.

Lemma date_ltb_spec (a b : date) :
  date_ltb a b = true
  <-> year a < year b
      \/ (year a = year b
          /\ (month a < month b \/ (month a = month b /\ day a < day b))).
Proof.
  unfold date_ltb.
  rewrite !orb_true_iff, !andb_true_iff, !orb_true_iff, !andb_true_iff,
    !Z.ltb_lt, !Z.eqb_eq.
  tauto.
Qed.

Lemma date_lt_irrefl (a : date) : ~ date_lt a a.
Proof. unfold date_lt. rewrite date_ltb_spec. lia. Qed.

Lemma date_lt_trans (a b c : date) : date_lt a b -> date_lt b c -> date_lt a c.
Proof. unfold date_lt. rewrite !date_ltb_spec. lia. Qed.

Lemma date_trichotomy (a b : date) : date_lt a b \/ a = b \/ date_lt b a.
Proof.
  unfold date_lt. rewrite !date_ltb_spec.
  destruct a as [y m d], b as [y' m' d']; cbn.
  destruct (Z.lt_total y y') as [|[->|]]; [lia| |lia].
  destruct (Z.lt_total m m') as [|[->|]]; [lia| |lia].
  destruct (Z.lt_total d d') as [|[->|]]; [lia| |lia].
  right; left; reflexivity.
Qed.

Lemma date_ltb_false (a b : date) :
  date_ltb a b = false -> date_eqb a b = false -> date_lt b a.
Proof.
  intros Hlt Heq. apply date_eqb_neq in Heq.
  destruct (date_trichotomy a b) as [H|[H|H]]; [|contradiction|assumption].
  unfold date_lt in H. congruence.
Qed.

Lemma In_dates_dec (d : date) (ds : list date) : In d ds \/ ~ In d ds.
Proof.
  induction ds as [|x ds [IH|IH]]; [now right | left; now right |].
  destruct (date_eqb x d) eqn:E.
  - apply date_eqb_eq in E. left; now left.
  - apply date_eqb_neq in E. right. intros [H|H]; contradiction.
Qed.

(* ------------------------------------------------------------------ *)
(** * The keys of the join *)

Lemma insert_key_In (d x : date) (keys : list date) :
  In x (insert_key d keys) <-> x = d \/ In x keys.
Proof.
  induction keys as [|k keys IH]; cbn.
  - intuition.
  - destruct (date_ltb d k); [cbn; intuition|].
    destruct (date_eqb d k) eqn:E.
    + apply date_eqb_eq in E. subst k. cbn. intuition.
    + cbn. rewrite IH. intuition.
Qed.

Lemma insert_key_sorted (d : date) (keys : list date) :
  StronglySorted date_lt keys -> StronglySorted date_lt (insert_key d keys).
Proof.
  induction 1 as [|k keys Hs IH Hall]; cbn.
  - repeat constructor.
  - destruct (date_ltb d k) eqn:E1.
    + constructor; [now constructor|].
      constructor; [exact E1|].
      eapply Forall_impl; [|exact Hall]. intros x Hx.
      eapply date_lt_trans; eassumption.
    + destruct (date_eqb d k) eqn:E2; [now constructor|].
      constructor; [assumption|].
      apply Forall_forall. intros x Hx. apply insert_key_In in Hx as [->|Hx].
      * now apply date_ltb_false.
      * rewrite Forall_forall in Hall. now apply Hall.
Qed.

Lemma join_keys_In (df1 df2 : DataFrame) (d : date) :
  In d (join_keys df1 df2) <-> In d (dates df1) \/ In d (dates df2).
Proof.
  unfold join_keys, dates. rewrite <- in_app_iff.
  induction (map rec_date df1 ++ map rec_date df2)%list as [|x l IH]; cbn.
  - tauto.
  - rewrite insert_key_In, IH. intuition.
Qed.

Lemma join_keys_sorted (df1 df2 : DataFrame) :
  StronglySorted date_lt (join_keys df1 df2).
Proof.
  unfold join_keys.
  induction (map rec_date df1 ++ map rec_date df2)%list as [|x l IH]; cbn.
  - constructor.
  - now apply insert_key_sorted.
Qed.

(* ------------------------------------------------------------------ *)
(** * Rows of one key *)

Lemma with_date_In (k : date) (df : DataFrame) (r : PageviewRecord) :
  In r (with_date k df) <-> In r df /\ rec_date r = k.
Proof. unfold with_date. rewrite filter_In, date_eqb_eq. tauto. Qed.

Lemma with_date_nil (k : date) (df : DataFrame) :
  with_date k df = [] <-> ~ In k (dates df).
Proof.
  unfold dates. induction df as [|r df IH]; cbn.
  - tauto.
  - destruct (date_eqb (rec_date r) k) eqn:E.
    + apply date_eqb_eq in E. split; [discriminate | intros H; exfalso; auto].
    + apply date_eqb_neq in E. rewrite IH. tauto.
Qed.

Lemma with_date_nodup (k : date) (df : DataFrame) :
  NoDup (dates df) ->
  with_date k df
  = match List.find (fun r => date_eqb (rec_date r) k) df with
    | Some r => [r]
    | None => []
    end.
Proof.
  unfold dates. induction df as [|r df IH]; cbn; [reflexivity|].
  intros Hnd. inversion Hnd as [|? ? Hnot Hnd']; subst.
  destruct (date_eqb (rec_date r) k) eqn:E; [|auto].
  apply date_eqb_eq in E. subst k. f_equal.
  now apply with_date_nil.
Qed.

Lemma views_on_None (k : date) (df : DataFrame) :
  views_on k df = None <-> ~ In k (dates df).
Proof.
  unfold views_on, dates. induction df as [|r df IH]; cbn.
  - tauto.
  - destruct (date_eqb (rec_date r) k) eqn:E; cbn.
    + apply date_eqb_eq in E. split; [discriminate | intros H; exfalso; auto].
    + apply date_eqb_neq in E. rewrite IH. tauto.
Qed.

Lemma rows_for_nodup (df1 df2 : DataFrame) (k : date) :
  NoDup (dates df1) -> NoDup (dates df2) ->
  In k (dates df1) \/ In k (dates df2) ->
  rows_for df1 df2 k = [joined_row df1 df2 k].
Proof.
  intros H1 H2 Hk. unfold rows_for, joined_row, views_on.
  rewrite (with_date_nodup k df1 H1), (with_date_nodup k df2 H2).
  destruct (List.find _ df1) as [l|] eqn:E1, (List.find _ df2) as [r|] eqn:E2;
    cbn; try reflexivity.
  exfalso.
  assert (N1 : views_on k df1 = None) by (unfold views_on; now rewrite E1).
  assert (N2 : views_on k df2 = None) by (unfold views_on; now rewrite E2).
  apply views_on_None in N1, N2. tauto.
Qed.

Lemma rows_for_date (df1 df2 : DataFrame) (k : date) (row : MergedRow) :
  In row (rows_for df1 df2 k) -> row_date row = k.
Proof.
  unfold rows_for.
  destruct (with_date k df1) as [|l ls], (with_date k df2) as [|r rs]; cbn [In map].
  - tauto.
  - rewrite in_map_iff. intros [<-|(x & <- & _)]; reflexivity.
  - rewrite in_map_iff. intros [<-|(x & <- & _)]; reflexivity.
  - rewrite in_flat_map. intros (x & _ & [<-|Hin]); [reflexivity|].
    apply in_map_iff in Hin as (y & <- & _). reflexivity.
Qed.

(** A date that only the first frame holds gives a row without views for
    the second page, and the other way round. *)
Lemma rows_for_left_only (df1 df2 : DataFrame) (k : date) :
  In k (dates df1) -> ~ In k (dates df2) ->
  exists row, In row (rows_for df1 df2 k) /\ views_b row = None.
Proof.
  intros H1 H2. unfold rows_for.
  apply with_date_nil in H2. rewrite H2.
  destruct (with_date k df1) as [|l ls] eqn:E.
  - apply with_date_nil in E. contradiction.
  - eexists. split; [left; reflexivity | reflexivity].
Qed.

Lemma rows_for_right_only (df1 df2 : DataFrame) (k : date) :
  ~ In k (dates df1) -> In k (dates df2) ->
  exists row, In row (rows_for df1 df2 k) /\ views_a row = None.
Proof.
  intros H1 H2. unfold rows_for.
  apply with_date_nil in H1. rewrite H1.
  destruct (with_date k df2) as [|r rs] eqn:E.
  - apply with_date_nil in E. contradiction.
  - eexists. split; [left; reflexivity | reflexivity].
Qed.

(* ------------------------------------------------------------------ *)
(** * Sorting the merged rows *)

Lemma insert_row_perm (r : MergedRow) (rows : list MergedRow) :
  Permutation (r :: rows) (insert_row r rows).
Proof.
  induction rows as [|x rows IH]; cbn; [reflexivity|].
  destruct (date_ltb (row_date r) (row_date x)); [reflexivity|].
  rewrite perm_swap. now constructor.
Qed.

Lemma sort_values_perm (rows : list MergedRow) :
  Permutation rows (sort_values rows).
Proof.
  unfold sort_values. rewrite (Permutation_rev rows) at 1.
  induction (rev rows) as [|r l IH]; cbn; [reflexivity|].
  rewrite <- insert_row_perm. now constructor.
Qed.

Lemma sort_values_In (rows : list MergedRow) (r : MergedRow) :
  In r (sort_values rows) <-> In r rows.
Proof.
  split; apply Permutation_in;
    [symmetry|]; apply sort_values_perm.
Qed.

Lemma sort_values_length (rows : list MergedRow) :
  List.length (sort_values rows) = List.length rows.
Proof. symmetry. apply Permutation_length, sort_values_perm. Qed.

Lemma insert_row_last (r : MergedRow) (rows : list MergedRow) :
  Forall (fun x => date_ltb (row_date r) (row_date x) = false) rows ->
  insert_row r rows = (rows ++ [r])%list.
Proof.
  induction 1 as [|x rows Hx _ IH]; cbn; [reflexivity|].
  now rewrite Hx, IH.
Qed.

Lemma sort_values_snoc (rows : list MergedRow) (r : MergedRow) :
  sort_values (rows ++ [r]) = insert_row r (sort_values rows).
Proof. unfold sort_values. now rewrite rev_app_distr. Qed.

(** Rows that are already in ascending order of the date stay as they
    are. *)
Lemma sort_values_sorted (keys : list date) (f : date -> MergedRow) :
  (forall k, row_date (f k) = k) ->
  StronglySorted date_lt keys ->
  sort_values (map f keys) = map f keys.
Proof.
  intros Hf. induction keys as [|k keys IH] using rev_ind; intro Hs;
    [reflexivity|].
  rewrite map_app. cbn [map]. rewrite sort_values_snoc.
  assert (Hs' : StronglySorted date_lt keys /\ Forall (fun x => date_lt x k) keys).
  { clear IH. induction keys as [|a keys IHk]; cbn in *.
    - split; constructor.
    - inversion Hs as [|? ? Hs1 Hall]; subst.
      destruct (IHk Hs1) as [Ha Hb]. apply Forall_app in Hall as [Hall1 Hall2].
      split; constructor; auto. now inversion Hall2. }
  destruct Hs' as [Hs1 Hs2]. rewrite (IH Hs1).
  apply insert_row_last. apply Forall_forall. intros x Hx.
  apply in_map_iff in Hx as (y & <- & Hy). rewrite !Hf.
  rewrite Forall_forall in Hs2. specialize (Hs2 _ Hy).
  destruct (date_ltb k y) eqn:E; [|reflexivity].
  exfalso. apply (date_lt_irrefl k). eapply date_lt_trans; eassumption.
Qed.

Lemma flat_map_singletons {A B} (f : A -> list B) (g : A -> B) (l : list A) :
  (forall x, In x l -> f x = [g x]) -> flat_map f l = map g l.
Proof.
  induction l as [|x l IH]; intro H; cbn; [reflexivity|].
  rewrite (H x (or_introl eq_refl)), IH; [reflexivity|].
  intros y Hy. apply H. now right.
Qed.

(** The merged and sorted table of two frames that each hold a date at
    most once. *)
Lemma merged_table_nodup (df1 df2 : DataFrame) :
  NoDup (dates df1) -> NoDup (dates df2) ->
  sort_values (merge_outer df1 df2)
  = map (joined_row df1 df2) (join_keys df1 df2).
Proof.
  intros H1 H2. unfold merge_outer.
  rewrite (flat_map_singletons _ (joined_row df1 df2)).
  - apply sort_values_sorted; [reflexivity | apply join_keys_sorted].
  - intros k Hk. apply rows_for_nodup; auto. now apply join_keys_In.
Qed.

(* ------------------------------------------------------------------ *)
(** * float64: what rounding does to a positive value

    The share columns are computed in binary64.  The lemmas below follow
    [SpecFloat]'s rounding ([binary_round_aux]) on positive mantissas, away
    from overflow and from the subnormal numbers, and bound its result. *)


Lemma digits2_pos_size (p : positive) : digits2_pos p = Pos.size p.
Proof. induction p; cbn; congruence. Qed.

(** [2^(d-1) <= p < 2^d] for the number [d] of binary digits of [p]. *)
Lemma digits2_pos_bounds (p : positive) :
  2 ^ (Z.pos (digits2_pos p) - 1) <= Z.pos p < 2 ^ Z.pos (digits2_pos p).
Proof.
  rewrite digits2_pos_size. split.
  - pose proof (Pos.size_le p) as H.
    apply Pos2Z.pos_le_pos in H. rewrite Pos2Z.inj_pow, (Pos2Z.inj_xO p) in H.
    assert (E : 2 ^ Z.pos (Pos.size p) = 2 * 2 ^ (Z.pos (Pos.size p) - 1)).
    { rewrite <- Z.pow_succ_r by lia. f_equal. lia. }
    lia.
  - pose proof (Pos.size_gt p) as H.
    apply Pos2Z.pos_lt_pos in H. now rewrite Pos2Z.inj_pow in H.
Qed.

Lemma digits2_pos_unique (p : positive) (k : Z) :
  2 ^ (k - 1) <= Z.pos p < 2 ^ k -> Z.pos (digits2_pos p) = k.
Proof.
  intros [Hlo Hhi]. pose proof (digits2_pos_bounds p) as [Hl Hh].
  set (d := Z.pos (digits2_pos p)) in *.
  assert (Hd : 0 < d) by (unfold d; lia).
  destruct (Z.lt_trichotomy d k) as [Hlt|[Heq|Hgt]]; [|assumption|]; exfalso.
  - assert (2 ^ d <= 2 ^ (k - 1)) by (apply Z.pow_le_mono_r; lia). lia.
  - assert (0 <= k).
    { destruct (Z.le_gt_cases 0 k); [assumption|].
      rewrite (Z.pow_neg_r 2 k) in Hhi by lia. lia. }
    assert (2 ^ k <= 2 ^ (d - 1)) by (apply Z.pow_le_mono_r; lia). lia.
Qed.

Lemma shr_1_m (mrs : shr_record) :
  0 <= shr_m mrs -> shr_m (shr_1 mrs) = shr_m mrs / 2.
Proof.
  destruct mrs as [m r s]. cbn [shr_m]. intro Hm.
  destruct m as [|p|p]; [reflexivity| |lia].
  destruct p as [p|p|]; cbn [shr_1 shr_m].
  - rewrite Pos2Z.inj_xI. apply Z.div_unique with 1; lia.
  - rewrite Pos2Z.inj_xO. apply Z.div_unique with 0; lia.
  - reflexivity.
Qed.

Lemma shr_iter_m (n : positive) :
  forall mrs, 0 <= shr_m mrs ->
              shr_m (iter_pos shr_1 n mrs) = shr_m mrs / 2 ^ Z.pos n.
Proof.
  assert (Hnn : forall mrs, 0 <= shr_m mrs -> 0 <= shr_m (shr_1 mrs)).
  { intros mrs H. rewrite shr_1_m by assumption. apply Z.div_pos; lia. }
  induction n as [n IH|n IH|]; intros mrs Hm; cbn [iter_pos].
  - assert (H1 : 0 <= shr_m (shr_1 mrs)) by auto.
    assert (H2 : 0 <= shr_m (iter_pos shr_1 n (shr_1 mrs))).
    { rewrite IH by assumption. apply Z.div_pos; lia. }
    rewrite IH, IH, shr_1_m by assumption.
    rewrite !Z.div_div by lia. f_equal.
    change 2 with (2 ^ 1) at 1.
    rewrite <- !Z.pow_add_r by lia. f_equal. lia.
  - assert (H2 : 0 <= shr_m (iter_pos shr_1 n mrs)).
    { rewrite IH by assumption. apply Z.div_pos; lia. }
    rewrite IH, IH by assumption.
    rewrite !Z.div_div by lia. f_equal.
    rewrite <- !Z.pow_add_r by lia. f_equal. lia.
  - now apply shr_1_m.
Qed.

Lemma shr_record_of_loc_m (m : Z) (l : location) : shr_m (shr_record_of_loc m l) = m.
Proof. destruct l as [|[]]; reflexivity. Qed.

(** [shr_fexp] on a positive mantissa in the range of the normal numbers:
    nothing happens up to 53 digits; beyond, the digits in excess are
    shifted out. *)
Lemma shr_fexp_pos (p : positive) (e : Z) (l : location) :
  let d := Z.pos (digits2_pos p) in
  -1021 <= d + e ->
  (d <= 53 -> shr_fexp prec64 emax64 (Z.pos p) e l = (shr_record_of_loc (Z.pos p) l, e))
  /\ (53 < d ->
      exists mrs,
        shr_fexp prec64 emax64 (Z.pos p) e l = (mrs, e + (d - 53))
        /\ shr_m mrs = Z.pos p / 2 ^ (d - 53)).
Proof.
  intros d Hr. unfold shr_fexp, fexp, emin, prec64, emax64. cbn [Zdigits2]. fold d.
  replace (Z.max (d + e - 53) (3 - 1024 - 53)) with (d + e - 53) by lia.
  replace (d + e - 53 - e) with (d - 53) by lia.
  split; intro Hd.
  - unfold shr. destruct (d - 53) eqn:E; try reflexivity. lia.
  - unfold shr. destruct (d - 53) as [|n|n] eqn:E; try lia.
    eexists. split; [reflexivity|].
    rewrite shr_iter_m; rewrite shr_record_of_loc_m; [reflexivity | lia].
Qed.

Lemma round_nearest_even_cases (m : Z) (l : location) :
  round_nearest_even m l = m \/ round_nearest_even m l = m + 1.
Proof.
  destruct l as [|[]]; cbn; auto. destruct (Z.even m); auto.
Qed.


Lemma loc_of_exact (m : Z) :
  loc_of_shr_record (shr_record_of_loc m loc_Exact) = loc_Exact.
Proof. reflexivity. Qed.

(** Rounding of [M * 2^E] to float64, away from overflow and from the
    subnormal numbers: up to 53 digits nothing changes; beyond, the [n]
    digits in excess are dropped and the mantissa is kept or increased by
    one, with one more shift ([j = 1]) when it reaches [2^53]. *)
Lemma binary_round_aux_pos (M : positive) (E : Z) :
  let d := Z.pos (digits2_pos M) in
  -1021 <= d + E -> E <= 900 -> d + E <= 900 ->
  exists m e j,
    binary_round_aux prec64 emax64 false (Z.pos M) E loc_Exact = S754_finite false m e
    /\ e = E + Z.max 0 (d - 53) + j
    /\ (j = 0 \/ j = 1)
    /\ (Z.pos m * 2 ^ j = Z.pos M / 2 ^ Z.max 0 (d - 53)
        \/ Z.pos m * 2 ^ j = Z.pos M / 2 ^ Z.max 0 (d - 53) + 1)
    /\ (d <= 53 -> j = 0 /\ m = M)
    /\ (53 <= d -> 2 ^ 52 <= Z.pos m < 2 ^ 53).
Proof.
  intros d Hlo HE Hhi. pose proof (digits2_pos_bounds M) as HM. fold d in HM.
  unfold binary_round_aux.
  destruct (Z_le_gt_dec d 53) as [Hd|Hd].
  - (* no digit in excess *)
    rewrite (proj1 (shr_fexp_pos M E loc_Exact Hlo) Hd).
    rewrite shr_record_of_loc_m, loc_of_exact. cbn [round_nearest_even].
    rewrite (proj1 (shr_fexp_pos M E loc_Exact Hlo) Hd).
    rewrite shr_record_of_loc_m.
    replace (E <=? emax64 - prec64) with true
      by (symmetry; apply Z.leb_le; unfold emax64, prec64; lia).
    exists M, E, 0. rewrite Z.max_l by lia. change (2 ^ 0) with 1.
    rewrite Z.div_1_r.
    refine (conj eq_refl (conj _ (conj _ (conj _ (conj _ _))))); try lia; auto.
    intro H53. assert (Hd53 : d = 53) by lia. rewrite Hd53 in HM.
    change (53 - 1) with 52 in HM. exact HM.
  - (* n digits in excess *)
    destruct (proj2 (shr_fexp_pos M E loc_Exact Hlo)) as (mrs & -> & Hm); [lia|].
    fold d in Hm. set (n := d - 53) in *.
    assert (Hn : 0 < n) by (unfold n; lia).
    set (Q := Z.pos M / 2 ^ n) in *.
    assert (Hpn : 0 < 2 ^ n) by (apply Z.pow_pos_nonneg; lia).
    assert (Hsplit : 2 ^ (d - 1) = 2 ^ n * 2 ^ 52 /\ 2 ^ d = 2 ^ n * 2 ^ 53).
    { split; rewrite <- Z.pow_add_r by lia; f_equal; unfold n; lia. }
    destruct Hsplit as [Hs1 Hs2].
    assert (HQ : 2 ^ 52 <= Q < 2 ^ 53).
    { unfold Q. split.
      - apply Z.div_le_lower_bound; lia.
      - apply Z.div_lt_upper_bound; lia. }
    rewrite Hm.
    set (m2 := round_nearest_even Q (loc_of_shr_record mrs)).
    assert (Hm2 : m2 = Q \/ m2 = Q + 1) by apply round_nearest_even_cases.
    assert (Hm2pos : 0 < m2) by lia.
    destruct m2 as [|p2|p2] eqn:Ep2; try lia.
    rewrite Z.max_r by lia. fold d. fold n. fold Q.
    destruct (Z_lt_ge_dec (Z.pos p2) (2 ^ 53)) as [Hlt|Hge].
    + (* the rounded mantissa still has 53 digits *)
      assert (Hd2 : Z.pos (digits2_pos p2) = 53)
        by (apply digits2_pos_unique; change (53 - 1) with 52; lia).
      assert (Hlo2 : -1021 <= Z.pos (digits2_pos p2) + (E + n)) by lia.
      rewrite (proj1 (shr_fexp_pos p2 (E + n) loc_Exact Hlo2)) by lia.
      rewrite shr_record_of_loc_m.
      replace (E + n <=? emax64 - prec64) with true
        by (symmetry; apply Z.leb_le; unfold emax64, prec64, n; lia).
      exists p2, (E + n), 0. change (2 ^ 0) with 1.
      refine (conj eq_refl (conj _ (conj _ (conj _ (conj _ _))))); try lia.
    + (* it reached 2^53 *)
      assert (Hp2 : Z.pos p2 = 2 ^ 53) by lia.
      assert (Hd2 : Z.pos (digits2_pos p2) = 54).
      { apply digits2_pos_unique. rewrite Hp2. change (54 - 1) with 53.
        split; [lia|]. apply Z.pow_lt_mono_r; lia. }
      assert (Hlo2 : -1021 <= Z.pos (digits2_pos p2) + (E + n)) by lia.
      destruct (proj2 (shr_fexp_pos p2 (E + n) loc_Exact Hlo2)) as (mrs2 & -> & Hm2');
        [lia|].
      rewrite Hd2, Hp2 in Hm2'. change (2 ^ 53 / 2 ^ (54 - 53)) with (2 ^ 52) in Hm2'.
      rewrite Hm2', Hd2. change (2 ^ 52) with (Z.pos (2 ^ 52)).
      replace (E + n + (54 - 53) <=? emax64 - prec64) with true
        by (symmetry; apply Z.leb_le; unfold emax64, prec64, n; lia).
      exists (2 ^ 52)%positive, (E + n + (54 - 53)), 1.
      change (Z.pos (2 ^ 52) * 2 ^ 1) with (2 ^ 53).
      refine (conj eq_refl (conj _ (conj _ (conj _ (conj _ _))))); lia.
Qed.

Lemma pos_iter_xO (m d : positive) : Z.pos (Pos.iter xO m d) = Z.pos m * 2 ^ Z.pos d.
Proof.
  induction d as [|d IH] using Pos.peano_ind.
  - cbn [Pos.iter]. rewrite Pos2Z.inj_xO. change (2 ^ 1) with 2. lia.
  - rewrite Pos.iter_succ, Pos2Z.inj_xO, IH, Pos2Z.inj_succ, Z.pow_succ_r by lia. lia.
Qed.

(** [shl_align] lowers the exponent to [e'] and keeps the value. *)
Lemma shl_align_fst (m : positive) (e e' : Z) :
  e' <= e -> Z.pos (fst (shl_align m e e')) = Z.pos m * 2 ^ (e - e').
Proof.
  intro H. unfold shl_align. destruct (e' - e) as [|d|d] eqn:Ed; try lia.
  - replace (e - e') with 0 by lia. cbn [fst]. change (2 ^ 0) with 1. lia.
  - cbn [fst]. rewrite pos_iter_xO. f_equal. f_equal. lia.
Qed.

Lemma shl_align_eq (m : positive) (e e' : Z) :
  shl_align m e e'
  = if e' <? e
    then (fst (shl_align m e e'), e')
    else (m, e).
Proof.
  unfold shl_align. destruct (e' - e) as [|d|d] eqn:Ed.
  - replace (e' <? e) with false by (symmetry; apply Z.ltb_ge; lia). reflexivity.
  - replace (e' <? e) with false by (symmetry; apply Z.ltb_ge; lia). reflexivity.
  - replace (e' <? e) with true by (symmetry; apply Z.ltb_lt; lia). reflexivity.
Qed.

(** [binary_round] of a positive mantissa: up to 53 digits the value is
    kept, with the mantissa brought to 53 digits; from 53 digits on it is
    [binary_round_aux]. *)
Lemma binary_round_pos (s : positive) (ez : Z) :
  let d := Z.pos (digits2_pos s) in
  -1021 <= d + ez -> ez <= 900 -> d + ez <= 900 ->
  (d <= 53 ->
   exists m, binary_round prec64 emax64 false s ez = S754_finite false m (ez + d - 53)
             /\ Z.pos m = Z.pos s * 2 ^ (53 - d))
  /\ (53 <= d ->
      binary_round prec64 emax64 false s ez
      = binary_round_aux prec64 emax64 false (Z.pos s) ez loc_Exact).
Proof.
  intros d Hlo Hez Hhi. unfold binary_round. fold d.
  assert (Hf : fexp prec64 emax64 (d + ez) = d + ez - 53)
    by (unfold fexp, emin, prec64, emax64; lia).
  rewrite Hf, shl_align_eq. split; intro Hd.
  - pose proof (digits2_pos_bounds s) as Hs. fold d in Hs.
    assert (Hshift : Z.pos (fst (shl_align s ez (d + ez - 53))) = Z.pos s * 2 ^ (53 - d)).
    { rewrite shl_align_fst by lia. f_equal. f_equal. lia. }
    assert (Hp : 2 ^ 52 = 2 ^ (d - 1) * 2 ^ (53 - d) /\ 2 ^ 53 = 2 ^ d * 2 ^ (53 - d)).
    { split; rewrite <- Z.pow_add_r by lia; f_equal; lia. }
    assert (Hpp : 0 < 2 ^ (53 - d)) by (apply Z.pow_pos_nonneg; lia).
    destruct (d + ez - 53 <? ez) eqn:Elt.
    + set (mz := fst (shl_align s ez (d + ez - 53))) in *.
      assert (Hdz : Z.pos (digits2_pos mz) = 53).
      { apply digits2_pos_unique. change (53 - 1) with 52. rewrite Hshift. nia. }
      destruct (binary_round_aux_pos mz (d + ez - 53))
        as (m & e & j & -> & He & _ & _ & Hex & _); try lia.
      destruct Hex as [-> ->]; [lia|].
      exists mz. split; [|assumption]. f_equal. rewrite He, Hdz. lia.
    + apply Z.ltb_ge in Elt. assert (Hd53 : d = 53) by lia.
      destruct (binary_round_aux_pos s ez)
        as (m & e & j & -> & He & _ & _ & Hex & _); try (fold d; lia).
      fold d in Hex, He. destruct Hex as [-> ->]; [lia|].
      exists s. rewrite Hd53 in *. split; [f_equal; lia|].
      change (2 ^ (53 - 53)) with 1. lia.
  - replace (d + ez - 53 <? ez) with false by (symmetry; apply Z.ltb_ge; lia).
    reflexivity.
Qed.

(** The conversion of a positive integer below [2^53] is exact. *)
Lemma b64_of_Z_pos (v : Z) :
  0 < v < 2 ^ 53 ->
  exists m e,
    b64_of_Z v = S754_finite false m e
    /\ -52 <= e <= 0
    /\ Z.pos m = v * 2 ^ (- e)
    /\ 2 ^ 52 <= Z.pos m < 2 ^ 53.
Proof.
  intros [Hv0 Hv]. destruct v as [|p|p]; try lia.
  unfold b64_of_Z, binary_normalize.
  pose proof (digits2_pos_bounds p) as Hp.
  set (d := Z.pos (digits2_pos p)) in *.
  assert (Hd1 : 1 <= d) by (unfold d; lia).
  assert (Hd : d <= 53).
  { destruct (Z_le_gt_dec d 53); [assumption|]. exfalso.
    assert (2 ^ 53 <= 2 ^ (d - 1)) by (apply Z.pow_le_mono_r; lia). lia. }
  destruct (proj1 (binary_round_pos p 0 ltac:(fold d; lia) ltac:(lia) ltac:(fold d; lia)))
    as (m & -> & Hm); [fold d; lia|]. fold d in Hm.
  exists m, (0 + d - 53). split; [reflexivity|].
  replace (- (0 + d - 53)) with (53 - d) by lia.
  split; [lia|]. split; [assumption|].
  assert (Hpw : 2 ^ 52 = 2 ^ (d - 1) * 2 ^ (53 - d) /\ 2 ^ 53 = 2 ^ d * 2 ^ (53 - d)).
  { split; rewrite <- Z.pow_add_r by lia; f_equal; lia. }
  assert (Hpp : 0 < 2 ^ (53 - d)) by (apply Z.pow_pos_nonneg; lia).
  rewrite Hm. nia.
Qed.


(** Rounding moves a value to one of its two neighbours on a grid of
    step [2^g]: it does not go below a multiple of the step that the value
    reaches, and it goes up by less than one step. *)
Lemma round_grid (M : positive) (E : Z) :
  let d := Z.pos (digits2_pos M) in
  -108 <= E -> E <= 900 -> d + E <= 900 ->
  exists m e g,
    binary_round_aux prec64 emax64 false (Z.pos M) E loc_Exact = S754_finite false m e
    /\ g = E + Z.max 0 (d - 53) + 108
    /\ g <= e + 108 <= g + 1
    /\ (53 <= d -> 2 ^ 52 <= Z.pos m < 2 ^ 53)
    /\ scaled m e <= scaled M E + 2 ^ g
    /\ (forall c, 0 <= c -> g <= 108 ->
                  c * 2 ^ 108 <= scaled M E -> c * 2 ^ 108 <= scaled m e).
Proof.
  intros d HE1 HE2 Hd.
  assert (Hd1 : 1 <= d) by (unfold d; lia).
  destruct (binary_round_aux_pos M E) as (m & e & j & Hr & He & Hj & Hk & _ & Hn);
    try (fold d; lia).
  fold d in He, Hk, Hn.
  set (n := Z.max 0 (d - 53)) in *.
  assert (Hn0 : 0 <= n) by (unfold n; lia).
  exists m, e, (E + n + 108).
  split; [exact Hr|]. split; [reflexivity|]. split; [lia|]. split; [exact Hn|].
  set (c0 := 2 ^ (E + 108)) in *. set (N := 2 ^ n) in *.
  assert (Hc0 : 0 < c0) by (apply Z.pow_pos_nonneg; lia).
  assert (HN : 0 < N) by (apply Z.pow_pos_nonneg; lia).
  assert (Hg : 2 ^ (E + n + 108) = N * c0).
  { unfold N, c0. rewrite <- Z.pow_add_r by lia. f_equal; lia. }
  set (Q := Z.pos M / N) in *.
  assert (HQ : N * Q <= Z.pos M < N * Q + N).
  { unfold Q. pose proof (Z.mul_div_le (Z.pos M) N HN).
    pose proof (Z.mul_succ_div_gt (Z.pos M) N HN). lia. }
  assert (Hme : scaled m e = (Z.pos m * 2 ^ j) * (N * c0)).
  { unfold scaled. rewrite <- Hg, <- Z.mul_assoc, <- Z.pow_add_r by lia.
    replace (j + (E + n + 108)) with (e + 108) by (rewrite He; ring). reflexivity. }
  assert (HME : scaled M E = Z.pos M * c0) by reflexivity.
  rewrite Hme, HME, Hg. split.
  - assert (Hle : Z.pos m * 2 ^ j <= Q + 1) by lia.
    apply Z.le_trans with ((Q + 1) * (N * c0)).
    + apply Z.mul_le_mono_nonneg_r; lia.
    + replace ((Q + 1) * (N * c0)) with ((N * Q) * c0 + N * c0) by ring.
      apply Z.add_le_mono_r. apply Z.mul_le_mono_nonneg_r; lia.
  - intros c Hc Hg108 Hle.
    set (G2 := 2 ^ (108 - (E + n + 108))).
    assert (HG2 : 0 < G2) by (apply Z.pow_pos_nonneg; lia).
    assert (HW : 2 ^ 108 = G2 * (N * c0)).
    { rewrite <- Hg. unfold G2. rewrite <- Z.pow_add_r by lia. f_equal; lia. }
    rewrite HW in *.
    assert (HcN : c * G2 * N <= Z.pos M).
    { apply Z.mul_le_mono_pos_r with c0; [lia|].
      replace (c * G2 * N * c0) with (c * (G2 * (N * c0))) by ring. exact Hle. }
    assert (HcQ : c * G2 <= Q).
    { unfold Q. apply Z.div_le_lower_bound; lia. }
    replace (c * (G2 * (N * c0))) with ((c * G2) * (N * c0)) by ring.
    apply Z.mul_le_mono_nonneg_r; lia.
Qed.


(** [views * 0.1] for a positive count below [2^50]. *)
Lemma b64_mul_tenth (v : Z) :
  0 < v < 2 ^ 50 ->
  exists m e,
    b64_mul (b64_of_Z v) tenth = S754_finite false m e
    /\ -108 <= e <= -5
    /\ 2 ^ 52 <= Z.pos m < 2 ^ 53
    /\ (v / 10) * 2 ^ 108 <= scaled m e
    /\ 10 * scaled m e <= v * 2 ^ 108 + v * 2 ^ 54 + 10 * 2 ^ 102.
Proof.
  intros Hv.
  destruct (b64_of_Z_pos v) as (mv & ev & Hof & Hev & Hmv & Hmvr).
  { split; [lia|]. apply Z.lt_trans with (2 ^ 50); [lia | reflexivity]. }
  unfold b64_mul, tenth. rewrite Hof. cbn [SFmul xorb].
  set (M := (mv * tenth_m)%positive).
  change (Z.pos (mv * 7205759403792794)) with (Z.pos M).
  set (E := ev + -56).
  pose proof (digits2_pos_bounds M) as HdM.
  set (d := Z.pos (digits2_pos M)) in *.
  assert (HM : Z.pos M = Z.pos mv * Z.pos tenth_m) by apply Pos2Z.inj_mul.
  assert (Hp : 0 < 2 ^ (- ev)) by (apply Z.pow_pos_nonneg; lia).
  assert (Hpe : 2 ^ (- ev) * 2 ^ (ev + 52) = 2 ^ 52).
  { rewrite <- Z.pow_add_r by lia. f_equal; lia. }
  assert (Hpe' : 0 < 2 ^ (ev + 52)) by (apply Z.pow_pos_nonneg; lia).
  (* the product has 105 or 106 digits and stays below 2^(103 - ev) *)
  assert (Hd104 : 104 < d).
  { destruct (Z_lt_le_dec 104 d); [assumption|]. exfalso.
    assert (2 ^ d <= 2 ^ 104) by (apply Z.pow_le_mono_r; lia).
    assert (2 ^ 52 * 2 ^ 52 <= Z.pos M).
    { rewrite HM. apply Z.mul_le_mono_nonneg; try lia. unfold tenth_m. lia. }
    change (2 ^ 52 * 2 ^ 52) with (2 ^ 104) in *. lia. }
  assert (Hdev : d + ev <= 103).
  { destruct (Z_le_gt_dec (d + ev) 103); [assumption|]. exfalso.
    assert (H1 : 2 ^ (103 - ev) <= 2 ^ (d - 1)) by (apply Z.pow_le_mono_r; lia).
    assert (H2 : 2 ^ (103 - ev) = 2 ^ 103 * 2 ^ (- ev)).
    { rewrite <- Z.pow_add_r by lia. f_equal; lia. }
    assert (H3 : Z.pos M < 2 ^ 103 * 2 ^ (- ev)).
    { rewrite HM, Hmv. unfold tenth_m.
      replace (v * 2 ^ (- ev) * 7205759403792794)
        with ((v * 7205759403792794) * 2 ^ (- ev)) by ring.
      apply Z.mul_lt_mono_pos_r; [lia|].
      assert (v * 7205759403792794 < 2 ^ 50 * 2 ^ 53); [|exact H].
      apply Z.mul_lt_mono_nonneg; lia. }
    lia. }
  destruct (round_grid M E) as (m & e & g & -> & Hg & Heg & Hm & Hup & Hlow);
    try (fold d; unfold E; lia).
  fold d in Hg, Hm. rewrite Z.max_r in Hg by lia.
  assert (Hg102 : g <= 102) by (unfold E in Hg; lia).
  assert (Hg0 : 0 <= g) by (unfold E in Hg; lia).
  exists m, e. split; [reflexivity|]. split; [lia|]. split; [apply Hm; lia|].
  assert (HP : scaled M E = v * Z.pos tenth_m * 2 ^ 52).
  { unfold scaled, E. rewrite HM, Hmv.
    replace (ev + -56 + 108) with (ev + 52) by lia.
    rewrite <- Hpe. ring. }
  assert (H10 : 10 * scaled M E = v * 2 ^ 108 + v * 2 ^ 54).
  { rewrite HP. unfold tenth_m.
    change (2 ^ 108) with (2 ^ 56 * 2 ^ 52). change (2 ^ 54) with (4 * 2 ^ 52).
    change (2 ^ 56) with 72057594037927936. ring. }
  assert (Hg2 : 2 ^ g <= 2 ^ 102) by (apply Z.pow_le_mono_r; lia).
  split.
  - apply Hlow; [apply Z.div_pos; lia | lia |].
    pose proof (Z.mul_div_le v 10 ltac:(lia)) as Ha.
    assert (H108 : 0 < 2 ^ 108) by reflexivity.
    assert (H54 : 0 < 2 ^ 54) by reflexivity.
    nia.
  - lia.
Qed.

(** Cutting the fraction of a positive float below [2^53] with a negative
    exponent. *)
Lemma trunc_b64_scaled (m : positive) (e T : Z) :
  -108 <= e < 0 ->
  T * 2 ^ 108 <= scaled m e < (T + 1) * 2 ^ 108 ->
  trunc_b64 (S754_finite false m e) = Ret T.
Proof.
  intros He [Hlo Hhi]. unfold trunc_b64.
  replace (0 <=? e) with false by (symmetry; apply Z.leb_gt; lia).
  f_equal. unfold scaled in *.
  set (A := 2 ^ (- e)). set (B := 2 ^ (e + 108)) in *.
  assert (HA : 0 < A) by (apply Z.pow_pos_nonneg; lia).
  assert (HB : 0 < B) by (apply Z.pow_pos_nonneg; lia).
  assert (HW : 2 ^ 108 = A * B).
  { unfold A, B. rewrite <- Z.pow_add_r by lia. f_equal; lia. }
  rewrite HW in *.
  symmetry. apply Z.div_unique with (Z.pos m - A * T).
  - left. split.
    + assert (T * A <= Z.pos m); [|lia].
      apply Z.mul_le_mono_pos_r with B; [lia|].
      replace (T * A * B) with (T * (A * B)) by ring. exact Hlo.
    + assert (Z.pos m < (T + 1) * A); [|lia].
      apply Z.mul_lt_mono_pos_r with B; [lia|].
      replace ((T + 1) * A * B) with ((T + 1) * (A * B)) by ring. exact Hhi.
  - ring.
Qed.

(** [x + draw] for a normal positive [x] below [2^47] and a draw from 1
    to 9. *)
Lemma b64_add_draw (mx : positive) (ex r : Z) :
  -108 <= ex <= -5 ->
  2 ^ 52 <= Z.pos mx < 2 ^ 53 ->
  scaled mx ex < 2 ^ 155 ->
  1 <= r <= 9 ->
  exists my ey,
    b64_add (S754_finite false mx ex) (b64_of_Z r) = S754_finite false my ey
    /\ -108 <= ey <= -4
    /\ scaled my ey <= scaled mx ex + r * 2 ^ 108 + 2 ^ 103
    /\ (forall c, 0 <= c -> c * 2 ^ 108 <= scaled mx ex + r * 2 ^ 108 ->
                  c * 2 ^ 108 <= scaled my ey).
Proof.
  intros Hex Hmx HX Hr.
  destruct (b64_of_Z_pos r) as (mr & er & Hof & Her & Hmr & Hmrr).
  { split; [lia|]. apply Z.le_lt_trans with 9; [lia | reflexivity]. }
  assert (Her49 : er <= -49).
  { destruct (Z_le_gt_dec er (-49)); [assumption|]. exfalso.
    assert (2 ^ (- er) <= 2 ^ 48) by (apply Z.pow_le_mono_r; lia).
    assert (0 < 2 ^ (- er)) by (apply Z.pow_pos_nonneg; lia).
    assert (Z.pos mr <= 9 * 2 ^ 48) by (rewrite Hmr; nia).
    assert (9 * 2 ^ 48 < 2 ^ 52) by reflexivity. lia. }
  rewrite Hof. unfold b64_add, SFadd. cbn [cond_Zopp].
  set (ez := Z.min ex er).
  assert (Hez : ez <= ex /\ ez <= er /\ -108 <= ez) by (unfold ez; lia).
  pose proof (shl_align_fst mx ex ez ltac:(lia)) as Hax.
  pose proof (shl_align_fst mr er ez ltac:(lia)) as Har.
  set (ax := fst (shl_align mx ex ez)) in *.
  set (ar := fst (shl_align mr er ez)) in *.
  change (Z.pos ax + Z.pos ar) with (Z.pos (ax + ar)).
  cbn [binary_normalize].
  set (s := (ax + ar)%positive).
  assert (Hs : Z.pos s = Z.pos ax + Z.pos ar) by apply Pos2Z.inj_add.
  (* the sum on the scale of 2^-108 *)
  assert (HS : scaled s ez = scaled mx ex + r * 2 ^ 108).
  { unfold scaled. rewrite Hs, Hax, Har, Hmr.
    rewrite Z.mul_add_distr_r, <- !Z.mul_assoc, <- !Z.pow_add_r by lia.
    replace (ex - ez + (ez + 108)) with (ex + 108) by lia.
    replace (- er + (er - ez + (ez + 108))) with 108 by lia. reflexivity. }
  pose proof (digits2_pos_bounds s) as Hds.
  set (d := Z.pos (digits2_pos s)) in *.
  assert (Hpx : 1 <= 2 ^ (ex - ez)).
  { assert (0 < 2 ^ (ex - ez)) by (apply Z.pow_pos_nonneg; lia). lia. }
  assert (Hd53 : 53 <= d).
  { destruct (Z_le_gt_dec 53 d); [assumption|]. exfalso.
    assert (2 ^ d <= 2 ^ 52) by (apply Z.pow_le_mono_r; lia).
    assert (Z.pos mx <= Z.pos ax) by (rewrite Hax; nia). lia. }
  assert (Hpz : 0 < 2 ^ (ez + 108)) by (apply Z.pow_pos_nonneg; lia).
  assert (Hdez : d + ez <= 48).
  { destruct (Z_le_gt_dec (d + ez) 48); [assumption|]. exfalso.
    assert (H1 : 2 ^ 156 <= 2 ^ (d - 1 + (ez + 108))) by (apply Z.pow_le_mono_r; lia).
    rewrite Z.pow_add_r in H1 by lia.
    assert (H2 : 2 ^ (d - 1) * 2 ^ (ez + 108) <= scaled s ez).
    { unfold scaled. apply Z.mul_le_mono_nonneg_r; lia. }
    assert (H3 : 2 ^ 155 + 9 * 2 ^ 108 < 2 ^ 156) by reflexivity.
    assert (H4 : 0 < 2 ^ 108) by reflexivity.
    nia. }
  rewrite (proj2 (binary_round_pos s ez ltac:(fold d; lia) ltac:(lia) ltac:(fold d; lia)))
    by (fold d; lia).
  destruct (round_grid s ez) as (my & ey & g & -> & Hg & Heg & _ & Hup & Hlow);
    try (fold d; lia).
  fold d in Hg. rewrite Z.max_r in Hg by lia.
  assert (Hg103 : g <= 103) by lia.
  assert (Hg2 : 2 ^ g <= 2 ^ 103) by (apply Z.pow_le_mono_r; lia).
  exists my, ey. split; [reflexivity|]. split; [lia|].
  rewrite HS in Hup, Hlow. split; [lia|].
  intros c Hc Hle. apply Hlow; [assumption | lia | assumption].
Qed.

(** The float64 computation of one share gives the integer quotient of
    the views by ten, plus the draw, for counts below [2^50]. *)
Lemma share_float_trunc (v r : Z) :
  0 <= v < 2 ^ 50 -> 0 <= r < 10 ->
  trunc_b64 (share_float (Some v) r) = Ret (v / 10 + r).
Proof.
  intros Hv Hr. unfold share_float, cell_float.
  destruct (Z.eq_dec v 0) as [->|Hv0].
  - assert (Hcases : r = 0 \/ r = 1 \/ r = 2 \/ r = 3 \/ r = 4 \/ r = 5
                     \/ r = 6 \/ r = 7 \/ r = 8 \/ r = 9) by lia.
    repeat (destruct Hcases as [->|Hcases]; [reflexivity|]). subst r. reflexivity.
  - destruct (b64_mul_tenth v) as (mx & ex & -> & Hex & Hmx & Hlo & Hhi); [lia|].
    pose proof (Z.mul_div_le v 10 ltac:(lia)) as Ha1.
    pose proof (Z.mul_succ_div_gt v 10 ltac:(lia)) as Ha2.
    set (a := v / 10) in *.
    assert (H108 : 2 ^ 108 = 2 ^ 54 * 2 ^ 54) by reflexivity.
    assert (H102 : 2 ^ 54 * 2 ^ 48 = 2 ^ 102) by reflexivity.
    assert (H103 : 2 ^ 54 * 2 ^ 49 = 2 ^ 103) by reflexivity.
    assert (H155 : 2 ^ 54 * 2 ^ 101 = 2 ^ 155) by reflexivity.
    assert (H50 : 2 ^ 50 * 2 ^ 54 = 2 ^ 104) by reflexivity.
    assert (Hv54 : v * 2 ^ 54 < 2 ^ 104).
    { rewrite <- H50. apply Z.mul_lt_mono_pos_r; [reflexivity | lia]. }
    assert (Hv108 : v * 2 ^ 108 <= (10 * a + 9) * 2 ^ 108).
    { apply Z.mul_le_mono_nonneg_r; [apply Z.pow_nonneg|]; lia. }
    assert (HvW : v * 2 ^ 108 < 2 ^ 50 * 2 ^ 108).
    { apply Z.mul_lt_mono_pos_r; [reflexivity | lia]. }
    assert (HX155 : scaled mx ex < 2 ^ 155).
    { assert (2 ^ 50 * 2 ^ 108 + 2 ^ 104 + 10 * 2 ^ 102 < 10 * 2 ^ 155) by reflexivity.
      lia. }
    destruct (Z.eq_dec r 0) as [->|Hr0].
    + change (b64_of_Z 0) with (S754_zero false). cbn [b64_add SFadd].
      rewrite Z.add_0_r. apply trunc_b64_scaled; [lia|]. split; [exact Hlo|].
      assert (2 ^ 104 + 10 * 2 ^ 102 < 2 ^ 108) by reflexivity. lia.
    + destruct (b64_add_draw mx ex r) as (my & ey & -> & Hey & Hup & Hlow);
        try lia.
      apply trunc_b64_scaled; [lia|]. split.
      * apply Hlow; [lia|].
        replace ((a + r) * 2 ^ 108) with (a * 2 ^ 108 + r * 2 ^ 108) by ring. lia.
      * assert (2 ^ 104 + 10 * 2 ^ 102 + 10 * 2 ^ 103 < 2 ^ 108) by reflexivity.
        replace ((a + r + 1) * 2 ^ 108)
          with ((a + 1) * 2 ^ 108 + r * 2 ^ 108) by ring.
        lia.
Qed.

(* ------------------------------------------------------------------ *)
(** * Integer conversion of a share column *)

Lemma trunc_b64_raises (x : spec_float) (e : exn) :
  trunc_b64 x = Raise e -> e = IntCastingNaNError.
Proof. destruct x; cbn; congruence. Qed.

Lemma astype_int_raises (xs : list spec_float) (e : exn) :
  astype_int xs = Raise e -> e = IntCastingNaNError.
Proof.
  induction xs as [|x xs IH]; cbn; [discriminate|].
  destruct (trunc_b64 x) eqn:E; cbn.
  - destruct (astype_int xs); cbn; [discriminate|]. intros [= <-]. now apply IH.
  - intros [= <-]. eapply trunc_b64_raises; eassumption.
Qed.

Lemma share_float_absent (r : Z) : share_float None r = S754_nan.
Proof. reflexivity. Qed.

Lemma shares_column_raises (col : list (option Z)) (ds : list Z) (e : exn) :
  shares_column col ds = Raise e -> e = IntCastingNaNError.
Proof. apply astype_int_raises. Qed.

(** A column with an absent cell cannot be converted. *)
Lemma shares_column_absent (col : list (option Z)) :
  In None col ->
  forall ds, List.length ds = List.length col ->
             shares_column col ds = Raise IntCastingNaNError.
Proof.
  unfold shares_column.
  induction col as [|c col IH]; intros Hin ds Hlen; [destruct Hin|].
  destruct ds as [|r ds]; [discriminate|]. cbn [combine map astype_int].
  destruct Hin as [->|Hin].
  - reflexivity.
  - rewrite (IH Hin ds) by (cbn in Hlen; lia).
    destruct (trunc_b64 (share_float c r)) eqn:E; cbn; [reflexivity|].
    f_equal. eapply trunc_b64_raises; eassumption.
Qed.

Lemma astype_int_length (xs : list spec_float) (ns : list Z) :
  astype_int xs = Ret ns -> List.length ns = List.length xs.
Proof.
  revert ns. induction xs as [|x xs IH]; cbn; intros ns.
  - now intros [= <-].
  - destruct (trunc_b64 x); cbn; [|discriminate].
    destruct (astype_int xs) as [ms|]; cbn; [|discriminate].
    intros [= <-]. cbn. f_equal. now apply IH.
Qed.

Lemma astype_int_nth (xs : list spec_float) (ns : list Z) (i : nat) (x : spec_float) :
  astype_int xs = Ret ns -> nth_error xs i = Some x ->
  exists n, nth_error ns i = Some n /\ trunc_b64 x = Ret n.
Proof.
  revert ns i. induction xs as [|y xs IH]; cbn; intros ns i.
  - intros _ H. destruct i; discriminate.
  - destruct (trunc_b64 y) as [m|] eqn:E; cbn; [|discriminate].
    destruct (astype_int xs) as [ms|]; cbn; [|discriminate].
    intros [= <-]. destruct i as [|i]; cbn.
    + intros [= <-]. eauto.
    + intros H. eapply IH; eauto.
Qed.

(* ------------------------------------------------------------------ *)
(** * The steps of the pipeline *)

Section PipelineFacts.

Variable network : nat -> string -> outcome response.
Variable noise : Z -> nat -> Z.

Lemma draws_length (pos n : nat) : List.length (draws noise pos n) = n.
Proof. unfold draws. now rewrite length_map, length_seq. Qed.

(** Lines 88 to 96, step by step. *)
Lemma derive_eq (t1 t2 : string) (df1 df2 : DataFrame) (w : world) :
  derive noise t1 t2 df1 df2 w
  = let M := merged_table df1 df2 in
    let N := List.length M in
    if String.eqb t1 t2 then (Raise KeyError, seeded w 0)
    else match shares_column (map views_a M) (draws noise 0 N) with
         | Raise e => (Raise e, seeded w N)
         | Ret sa =>
             match shares_column (map views_b M) (draws noise N N) with
             | Raise e => (Raise e, seeded w (N + N))
             | Ret sb => (Ret (add_shares M sa sb), seeded w (N + N))
             end
         end.
Proof.
  unfold derive, merged_table, bind, np_random_seed, lift, views_column,
    np_random_randint, ret, seeded, draws.
  cbn [stdout requested gen_seed gen_pos].
  destruct (String.eqb t1 t2); [reflexivity|].
  cbn [Nat.add].
  destruct (shares_column (map views_a _) _); [|reflexivity].
  destruct (shares_column (map views_b _) _); reflexivity.
Qed.

(** Lines 68 to 73: the check of the two titles. *)
Lemma analyze_rejects (url1 url2 : string) (s e : date) (w : world)
      (o1 o2 : option string) :
  extract_page_title url1 = Ret o1 ->
  extract_page_title url2 = Ret o2 ->
  truthy o1 && truthy o2 = false ->
  analyze_wiki_pages network noise url1 url2 s e w
  = (Ret None, after_print w msg_bad_input).
Proof.
  intros H1 H2 Ht. unfold analyze_wiki_pages, bind, lift. rewrite H1, H2.
  destruct o1 as [t1|], o2 as [t2|]; try reflexivity.
  now rewrite Ht.
Qed.

(** Lines 75 to 124 once both titles are there and both fetches returned. *)
Lemma analyze_fetched (url1 url2 : string) (s e : date) (w w1 w2 : world)
      (t1 t2 : string) (df1 df2 : DataFrame) :
  extract_page_title url1 = Ret (Some t1) ->
  extract_page_title url2 = Ret (Some t2) ->
  t1 <> EmptyString -> t2 <> EmptyString ->
  fetch_pageviews network t1 s e (after_print w (msg_fetching t1 t2)) = (Ret df1, w1) ->
  fetch_pageviews network t2 s e w1 = (Ret df2, w2) ->
  analyze_wiki_pages network noise url1 url2 s e w
  = if df_empty df1 || df_empty df2
    then (Ret None, after_print w2 msg_no_data)
    else match derive noise t1 t2 df1 df2 w2 with
         | (Ret table, w3) => (Ret (Some table), w3)
         | (Raise exc, w3) => (Raise exc, w3)
         end.
Proof.
  intros H1 H2 Hn1 Hn2 Hf1 Hf2.
  unfold analyze_wiki_pages, bind, lift. rewrite H1, H2.
  assert (Ht : truthy (Some t1) && truthy (Some t2) = true).
  { destruct t1, t2; try congruence; reflexivity. }
  rewrite Ht. unfold print at 1. fold (after_print w (msg_fetching t1 t2)).
  rewrite Hf1, Hf2.
  destruct (df_empty df1 || df_empty df2); [reflexivity|].
  destruct (derive noise t1 t2 df1 df2 w2) as [[table|exc] w3]; reflexivity.
Qed.

(** What a returned table tells about the run. *)
Lemma analyze_returns_table (url1 url2 : string) (s e : date) (w w' : world)
      (table : list SharesRow) :
  analyze_wiki_pages network noise url1 url2 s e w = (Ret (Some table), w') ->
  exists t1 t2 df1 df2 w1 w2,
    extract_page_title url1 = Ret (Some t1)
    /\ extract_page_title url2 = Ret (Some t2)
    /\ fetch_pageviews network t1 s e (after_print w (msg_fetching t1 t2))
       = (Ret df1, w1)
    /\ fetch_pageviews network t2 s e w1 = (Ret df2, w2)
    /\ df1 <> [] /\ df2 <> []
    /\ derive noise t1 t2 df1 df2 w2 = (Ret table, w').
Proof.
  unfold analyze_wiki_pages, bind, lift.
  destruct (extract_page_title url1) as [o1|] eqn:H1; [|discriminate].
  destruct (extract_page_title url2) as [o2|] eqn:H2; [|discriminate].
  destruct o1 as [t1|], o2 as [t2|]; try discriminate.
  destruct (truthy (Some t1) && truthy (Some t2)); [|discriminate].
  unfold print at 1. fold (after_print w (msg_fetching t1 t2)).
  destruct (fetch_pageviews network t1 s e _) as [[df1|] w1] eqn:Hf1; [|discriminate].
  destruct (fetch_pageviews network t2 s e w1) as [[df2|] w2] eqn:Hf2; [|discriminate].
  destruct (df_empty df1 || df_empty df2) eqn:He; [discriminate|].
  apply orb_false_iff in He as [He1 He2].
  destruct (derive noise t1 t2 df1 df2 w2) as [[tb|] w3] eqn:Hd; [|discriminate].
  intros [= <- <-].
  exists t1, t2, df1, df2, w1, w2. repeat split; auto.
  - now destruct df1.
  - now destruct df2.
Qed.

Lemma merged_table_In (df1 df2 : DataFrame) (row : MergedRow) :
  In row (merged_table df1 df2)
  <-> exists k, In k (join_keys df1 df2) /\ In row (rows_for df1 df2 k).
Proof.
  unfold merged_table. rewrite sort_values_In. unfold merge_outer.
  apply in_flat_map.
Qed.

(** A date held by one frame only leaves an absent cell in the table. *)
Lemma merged_table_absent (df1 df2 : DataFrame) :
  ~ same_dates df1 df2 ->
  exists row, In row (merged_table df1 df2)
              /\ (views_a row = None \/ views_b row = None).
Proof.
  intro Hne.
  assert (Hd : exists d,
             (In d (dates df1) /\ ~ In d (dates df2))
             \/ (~ In d (dates df1) /\ In d (dates df2))).
  { assert (Hl : forall l : list date,
               (forall d, In d l -> In d (dates df1) /\ In d (dates df2))
               \/ exists d, In d l /\ (~ In d (dates df1) \/ ~ In d (dates df2))).
    { induction l as [|x l [IH|(d & Hd & Hn)]].
      - left. intros d [].
      - destruct (In_dates_dec x (dates df1)) as [Ha|Ha];
          destruct (In_dates_dec x (dates df2)) as [Hb|Hb];
          try (right; exists x; split; [now left | tauto]).
        left. intros d [<-|Hd]; auto.
      - right. exists d. split; [now right | assumption]. }
    destruct (Hl (dates df1 ++ dates df2)%list) as [Hall|(d & Hd & Hn)].
    - exfalso. apply Hne. intro d. split; intro H;
        apply (Hall d); apply in_app_iff; auto.
    - exists d. apply in_app_iff in Hd. tauto. }
  destruct Hd as (d & [[H1 H2]|[H1 H2]]).
  - destruct (rows_for_left_only df1 df2 d H1 H2) as (row & Hrow & Hb).
    exists row. split; [|now right].
    apply merged_table_In. exists d. split; [|assumption].
    apply join_keys_In. now left.
  - destruct (rows_for_right_only df1 df2 d H1 H2) as (row & Hrow & Ha).
    exists row. split; [|now left].
    apply merged_table_In. exists d. split; [|assumption].
    apply join_keys_In. now right.
Qed.

(** When [derive] returns, the titles differ and both share columns were
    converted. *)
Lemma derive_returns (t1 t2 : string) (df1 df2 : DataFrame) (w w' : world)
      (table : list SharesRow) :
  derive noise t1 t2 df1 df2 w = (Ret table, w') ->
  let M := merged_table df1 df2 in
  let N := List.length M in
  exists sa sb,
    t1 <> t2
    /\ shares_column (map views_a M) (draws noise 0 N) = Ret sa
    /\ shares_column (map views_b M) (draws noise N N) = Ret sb
    /\ table = add_shares M sa sb
    /\ w' = seeded w (N + N).
Proof.
  rewrite derive_eq. cbv zeta.
  destruct (String.eqb t1 t2) eqn:E; [discriminate|].
  apply String.eqb_neq in E.
  destruct (shares_column (map views_a _) _) as [sa|]; [|discriminate].
  destruct (shares_column (map views_b _) _) as [sb|]; [|discriminate].
  intros [= <- <-]. exists sa, sb. auto.
Qed.

Lemma derive_returns_same_dates (t1 t2 : string) (df1 df2 : DataFrame)
      (w w' : world) (table : list SharesRow) :
  derive noise t1 t2 df1 df2 w = (Ret table, w') -> same_dates df1 df2.
Proof.
  intro Hd. destruct (derive_returns _ _ _ _ _ _ _ Hd)
    as (sa & sb & _ & Ha & Hb & _ & _).
  assert (Hpa : ~ In None (map views_a (merged_table df1 df2))).
  { intro Hin. rewrite (shares_column_absent _ Hin) in Ha; [discriminate|].
    now rewrite draws_length, length_map. }
  assert (Hpb : ~ In None (map views_b (merged_table df1 df2))).
  { intro Hin. rewrite (shares_column_absent _ Hin) in Hb; [discriminate|].
    now rewrite draws_length, length_map. }
  intro d. split; intro Hin.
  - destruct (In_dates_dec d (dates df2)) as [|Hn]; [assumption|].
    destruct (rows_for_left_only df1 df2 d Hin Hn) as (row & Hrow & Hnone).
    exfalso. apply Hpb. rewrite <- Hnone. apply in_map.
    apply merged_table_In. exists d. split; [|assumption].
    apply join_keys_In. now left.
  - destruct (In_dates_dec d (dates df1)) as [|Hn]; [assumption|].
    destruct (rows_for_right_only df1 df2 d Hn Hin) as (row & Hrow & Hnone).
    exfalso. apply Hpa. rewrite <- Hnone. apply in_map.
    apply merged_table_In. exists d. split; [|assumption].
    apply join_keys_In. now right.
Qed.

End PipelineFacts.

(* ------------------------------------------------------------------ *)
(** * Title extraction: the statements of the specification *)

(** C4.  The extractor at a path in which the article prefix occurs twice:
    it returns what stands between the two occurrences, ["A"], where the
    remainder of the path after the prefix is ["A/wiki/B"]. *)
Theorem extract_page_title_second_prefix :
  extract_page_title "https://en.wikipedia.org/wiki/A/wiki/B" = Ret (Some "A")
  /\ UrlLib.urlparse "https://en.wikipedia.org/wiki/A/wiki/B"
     = Ret (UrlLib.mkParseResult "https" "en.wikipedia.org" "/wiki/A/wiki/B" "" "" "")
  /\ UrlLib.unquote (remainder "/wiki/A/wiki/B") = "A/wiki/B".
Proof. repeat split. Qed.

(** Where the prefix does not occur again the extractor does return the
    decoded remainder, and off the prefix it returns [None]. *)
Lemma extract_page_title_remainder (url : string) (parsed : UrlLib.ParseResult) :
  UrlLib.urlparse url = Ret parsed ->
  (PyStr.startswith (UrlLib.path parsed) wiki_prefix = true ->
   occurs wiki_prefix (remainder (UrlLib.path parsed)) = false ->
   extract_page_title url
   = Ret (Some (UrlLib.unquote (remainder (UrlLib.path parsed)))))
  /\ (PyStr.startswith (UrlLib.path parsed) wiki_prefix = false ->
      extract_page_title url = Ret None).
Proof.
  intro Hu. split.
  - intros Hp Ho. rewrite (extract_page_title_on_prefix _ _ Hu Hp).
    now rewrite until_sep_absent.
  - now apply extract_page_title_off_prefix.
Qed.

Example extract_page_title_Foo_Bar :
  extract_page_title "https://en.wikipedia.org/wiki/Foo_Bar" = Ret (Some "Foo_Bar").
Proof. reflexivity. Qed.

Example extract_page_title_decodes :
  extract_page_title "https://en.wikipedia.org/wiki/C%2B%2B" = Ret (Some "C++").
Proof. reflexivity. Qed.

Example extract_page_title_other_path :
  extract_page_title "https://en.wikipedia.org/w/index.php?title=Foo" = Ret None.
Proof. reflexivity. Qed.

Example extract_page_title_unmatched_bracket :
  extract_page_title "http://[/wiki/Foo" = Raise ValueError.
Proof. reflexivity. Qed.




(* ------------------------------------------------------------------ *)
(** * Fetcher: witnesses and the statement of C9 *)

Lemma fetch_pageviews_success_witness :
  exists recs,
    fetch_pageviews network_two_items "Foo" (jan 1) (jan 31) world0
    = (Ret recs, after_request world0 (api_url "Foo" (jan 1) (jan 31)))
    /\ List.length recs = List.length two_items
    /\ Forall2 (fun it r => item_bears it (rec_date r) (rec_views r)) two_items recs.
Proof.
  apply (fetch_pageviews_success network_two_items "Foo" (jan 1) (jan 31) world0
           (mkResponse 200 (Some (mkPayload (Some two_items)))) two_items).
  - reflexivity.
  - reflexivity.
  - reflexivity.
  - repeat constructor.
    + exists (jan 1), 100, "2022010100". repeat split.
    + exists (jan 2), 205, "2022010200". repeat split.
Defined.

Lemma fetch_pageviews_non_success_witness :
  fetch_pageviews network_not_found "Foo" (jan 1) (jan 31) world0
  = (Ret [], after_print (after_request world0 (api_url "Foo" (jan 1) (jan 31)))
               (msg_http_error "Foo" 404)).
Proof.
  apply (fetch_pageviews_non_success network_not_found "Foo" (jan 1) (jan 31)
           world0 (mkResponse 404 None)).
  - reflexivity.
  - discriminate.
Defined.

(** C9, as stated, fails: a body without [items] raises nothing. *)
Lemma fetch_pageviews_missing_items_returns :
  ~ (forall network title s e w resp p,
        network (List.length (requested w)) (api_url title s e) = Ret resp ->
        status_code resp = 200 ->
        body resp = Some p ->
        (items p = None
         \/ exists its, items p = Some its /\ Exists lacks_field its) ->
        raises (fst (fetch_pageviews network title s e w))).
Proof.
  intro H.
  destruct (H network_no_items "Foo" (jan 1) (jan 31) world0
              (mkResponse 200 (Some (mkPayload None))) (mkPayload None)
              eq_refl eq_refl eq_refl (or_introl eq_refl)) as [exc Hexc].
  discriminate Hexc.
Qed.

Lemma fetch_pageviews_unexpected_shape_witness :
  (items (mkPayload None) = None ->
   fetch_pageviews network_no_items "Foo" (jan 1) (jan 31) world0
   = (Ret [], after_request world0 (api_url "Foo" (jan 1) (jan 31))))
  /\ (forall its, items (mkPayload None) = Some its -> Exists lacks_field its ->
      exists exc,
        fetch_pageviews network_no_items "Foo" (jan 1) (jan 31) world0
        = (Raise exc, after_request world0 (api_url "Foo" (jan 1) (jan 31)))
        /\ (exc = KeyError \/ exc = ValueError)).
Proof.
  apply (fetch_pageviews_unexpected_shape network_no_items "Foo" (jan 1) (jan 31)
           world0 (mkResponse 200 (Some (mkPayload None))) (mkPayload None));
    reflexivity.
Defined.

Example fetch_pageviews_missing_views :
  fst (fetch_pageviews network_no_views "Foo" (jan 1) (jan 31) world0)
  = Raise KeyError.
Proof. reflexivity. Qed.

(* ------------------------------------------------------------------ *)
(** * Merge: the statements of the specification *)

(** C2, as stated, fails: a frame that holds a date twice gives the
    merged table two rows of that date. *)
Lemma merged_table_repeated_date :
  ~ (forall df1 df2 : DataFrame,
        df1 <> [] -> df2 <> [] ->
        NoDup (map row_date (merged_table df1 df2))).
Proof.
  intro H.
  specialize (H [mkRecord (jan 1) 1; mkRecord (jan 1) 2] [mkRecord (jan 1) 3]).
  assert (Hnd : NoDup [jan 1; jan 1]) by (apply H; discriminate).
  inversion Hnd as [|? ? Hnot _]. apply Hnot. now left.
Qed.

Ltac date_facts :=
  repeat match goal with
    | H : date_lt ?a ?b |- _ =>
        lazymatch goal with
        | _ : date_eqb a b = false |- _ => fail
        | _ =>
            assert (date_eqb a b = false)
              by (apply date_eqb_neq; intros ->; exact (date_lt_irrefl _ H));
            assert (date_eqb b a = false)
              by (apply date_eqb_neq; intros ->; exact (date_lt_irrefl _ H));
            assert (date_ltb b a = false)
              by (let E := fresh in
                  destruct (date_ltb b a) eqn:E; [|reflexivity];
                  exfalso;
                  exact (date_lt_irrefl a (date_lt_trans a b a H E)))
        end
    end.

(** The three dates of the specification's example. *)
Lemma merged_table_three_dates (d1 d2 d3 : date) (a1 a2 b2 b3 : Z) :
  date_lt d1 d2 -> date_lt d2 d3 ->
  merged_table [mkRecord d1 a1; mkRecord d2 a2] [mkRecord d2 b2; mkRecord d3 b3]
  = [mkRow d1 (Some a1) None; mkRow d2 (Some a2) (Some b2); mkRow d3 None (Some b3)].
Proof.
  intros H12 H23.
  assert (H13 : date_lt d1 d3) by (eapply date_lt_trans; eassumption).
  date_facts.
  assert (Hirr : forall d, date_ltb d d = false).
  { intro d. destruct (date_ltb d d) eqn:E; [|reflexivity].
    exfalso. exact (date_lt_irrefl d E). }
  unfold date_lt in *.
  unfold merged_table, merge_outer, join_keys.
  cbn [map app fold_right insert_key rec_date].
  repeat (rewrite ?H12, ?H23, ?H13, ?Hirr, ?date_eqb_refl;
          cbn [map app fold_right insert_key rec_date]).
  cbn [flat_map]. unfold rows_for, with_date.
  cbn [filter rec_date].
  repeat match goal with
         | H : date_eqb _ _ = false |- _ => rewrite H
         end.
  rewrite ?date_eqb_refl. cbn [map flat_map app rec_views].
  unfold sort_values. cbn [rev app].
  repeat (cbn [fold_right insert_row row_date];
          repeat match goal with
                 | H : date_ltb _ _ = _ |- _ => rewrite H
                 end).
  reflexivity.
Qed.

(** C2, as amended.  For two non-empty frames neither of which holds a
    date twice, the merged table has one row for each date of either frame,
    in ascending order of the date, a cell being absent (not zero) exactly
    where its frame lacks the date; where the counts are ones a float64
    holds exactly, it is the outer join on the date, each present cell
    holding the views its frame records for the date.  On dates [D1, D2]
    and [D2, D3] it has the three rows of D1, D2 and D3. *)
Theorem merged_table_outer_join :
  (forall df1 df2 : DataFrame,
      df1 <> [] -> df2 <> [] ->
      NoDup (dates df1) -> NoDup (dates df2) ->
      let M := merged_table df1 df2 in
      StronglySorted date_lt (map row_date M)
      /\ (forall d, In d (map row_date M) <-> In d (dates df1) \/ In d (dates df2))
      /\ (forall row, In row M ->
            (views_a row = None <-> ~ In (row_date row) (dates df1))
            /\ (views_b row = None <-> ~ In (row_date row) (dates df2)))
      /\ (float_exact df1 -> float_exact df2 ->
          M = map (joined_row df1 df2) (join_keys df1 df2)
          /\ forall row, In row M ->
               views_a row = views_on (row_date row) df1
               /\ views_b row = views_on (row_date row) df2))
  /\ (forall (d1 d2 d3 : date) (a1 a2 b2 b3 : Z),
        date_lt d1 d2 -> date_lt d2 d3 ->
        let df1 := [mkRecord d1 a1; mkRecord d2 a2] in
        let df2 := [mkRecord d2 b2; mkRecord d3 b3] in
        (exists x1 x2 y2 y3,
            merged_table df1 df2
            = [mkRow d1 (Some x1) None; mkRow d2 (Some x2) (Some y2);
               mkRow d3 None (Some y3)])
        /\ (float_exact df1 -> float_exact df2 ->
            merged_table df1 df2
            = [mkRow d1 (Some a1) None; mkRow d2 (Some a2) (Some b2);
               mkRow d3 None (Some b3)])).
Proof.
  split.
  - intros df1 df2 _ _ H1 H2 M.
    assert (HM : M = map (joined_row df1 df2) (join_keys df1 df2))
      by (apply merged_table_nodup; assumption).
    assert (Hdates : map row_date M = join_keys df1 df2).
    { rewrite HM, map_map. cbn [joined_row row_date]. apply map_id. }
    assert (Hcells : forall row, In row M ->
              views_a row = views_on (row_date row) df1
              /\ views_b row = views_on (row_date row) df2).
    { intros row Hrow. rewrite HM in Hrow.
      apply in_map_iff in Hrow as (k & <- & _). split; reflexivity. }
    rewrite Hdates.
    split; [apply join_keys_sorted|].
    split; [intro d; apply join_keys_In|].
    split; [|intros _ _; split; [exact HM | exact Hcells]].
    intros row Hrow. destruct (Hcells row Hrow) as [-> ->].
    split; apply views_on_None.
  - intros d1 d2 d3 a1 a2 b2 b3 H12 H23 df1 df2.
    pose proof (merged_table_three_dates d1 d2 d3 a1 a2 b2 b3 H12 H23) as HM.
    split; [exists a1, a2, b2, b3; exact HM | intros _ _; exact HM].
Qed.

Lemma merged_table_outer_join_witness :
  let df1 := [mkRecord (jan 1) 100; mkRecord (jan 2) 205] in
  let df2 := [mkRecord (jan 2) 30; mkRecord (jan 3) 47] in
  (merged_table df1 df2 = map (joined_row df1 df2) (join_keys df1 df2)
   /\ forall row, In row (merged_table df1 df2) ->
        views_a row = views_on (row_date row) df1
        /\ views_b row = views_on (row_date row) df2)
  /\ merged_table df1 df2
     = [mkRow (jan 1) (Some 100) None; mkRow (jan 2) (Some 205) (Some 30);
        mkRow (jan 3) None (Some 47)].
Proof.
  intros df1 df2.
  assert (E1 : float_exact df1) by (repeat constructor; cbn; lia).
  assert (E2 : float_exact df2) by (repeat constructor; cbn; lia).
  split.
  - apply (proj1 merged_table_outer_join df1 df2).
    + discriminate.
    + discriminate.
    + repeat constructor; cbn; intuition discriminate.
    + repeat constructor; cbn; intuition discriminate.
    + exact E1.
    + exact E2.
  - apply (proj2 merged_table_outer_join (jan 1) (jan 2) (jan 3) 100 205 30 47).
    + reflexivity.
    + reflexivity.
    + exact E1.
    + exact E2.
Defined.

(* ------------------------------------------------------------------ *)
(** * Pipeline: the statements of the specification *)

(** C3.  For non-empty frames whose sets of dates differ, the merged
    table has an absent views cell, the integer conversion of a share column
    raises on it, and the derivation raises; hence the pipeline returns a
    table only when the two fetched frames hold the same dates. *)
Theorem different_dates_no_table
        (network : nat -> string -> outcome response) (noise : Z -> nat -> Z) :
  (forall df1 df2 : DataFrame,
      df1 <> [] -> df2 <> [] -> ~ same_dates df1 df2 ->
      let M := merged_table df1 df2 in
      (exists row, In row M /\ (views_a row = None \/ views_b row = None))
      /\ (forall ds, List.length ds = List.length M ->
            shares_column (map views_a M) ds = Raise IntCastingNaNError
            \/ shares_column (map views_b M) ds = Raise IntCastingNaNError)
      /\ (forall t1 t2 w, raises (fst (derive noise t1 t2 df1 df2 w))))
  /\ (forall url1 url2 s e w w' table,
        analyze_wiki_pages network noise url1 url2 s e w = (Ret (Some table), w') ->
        exists t1 t2 df1 df2 w1 w2,
          extract_page_title url1 = Ret (Some t1)
          /\ extract_page_title url2 = Ret (Some t2)
          /\ fetch_pageviews network t1 s e (after_print w (msg_fetching t1 t2))
             = (Ret df1, w1)
          /\ fetch_pageviews network t2 s e w1 = (Ret df2, w2)
          /\ same_dates df1 df2).
Proof.
  split.
  - intros df1 df2 _ _ Hne M.
    destruct (merged_table_absent df1 df2 Hne) as (row & Hrow & Hnone).
    split; [exists row; auto|]. split.
    + intros ds Hlen. destruct Hnone as [Ha|Hb]; [left|right];
        apply shares_column_absent; rewrite ?length_map; auto.
      * rewrite <- Ha. now apply in_map.
      * rewrite <- Hb. now apply in_map.
    + intros t1 t2 w.
      destruct (derive noise t1 t2 df1 df2 w) as [[table|exc] w'] eqn:Hd.
      * exfalso. apply Hne. eapply derive_returns_same_dates; eassumption.
      * now exists exc.
  - intros url1 url2 s e w w' table Hrun.
    destruct (analyze_returns_table _ _ _ _ _ _ _ _ _ Hrun)
      as (t1 & t2 & df1 & df2 & w1 & w2 & H1 & H2 & Hf1 & Hf2 & _ & _ & Hd).
    exists t1, t2, df1, df2, w1, w2. repeat split; auto.
    all: apply (derive_returns_same_dates _ _ _ _ _ _ _ _ Hd).
Qed.

Lemma different_dates_no_table_witness :
  raises (fst (derive sample_noise "A" "B"
                 [mkRecord (jan 1) 100; mkRecord (jan 2) 205]
                 [mkRecord (jan 2) 30; mkRecord (jan 3) 47] world0)).
Proof.
  apply (proj1 (different_dates_no_table network_two_items sample_noise)
           [mkRecord (jan 1) 100; mkRecord (jan 2) 205]
           [mkRecord (jan 2) 30; mkRecord (jan 3) 47]).
  - discriminate.
  - discriminate.
  - intro H. destruct (proj1 (H (jan 1)) (or_introl eq_refl)) as [E|[E|[]]];
      discriminate E.
Defined.

Example analyze_wiki_pages_uneven :
  fst (analyze_wiki_pages network_uneven sample_noise url_python url_java
         (jan 1) (jan 31) world0)
  = Raise IntCastingNaNError.
Proof. vm_compute. reflexivity. Qed.

(** An exception of either extraction leaves the pipeline as it is. *)
Lemma analyze_wiki_pages_extract_raises
      (network : nat -> string -> outcome response) (noise : Z -> nat -> Z)
      (url1 url2 : string) (s e : date) (w : world) (exc : exn) :
  extract_page_title url1 = Raise exc
  \/ (returns_value (extract_page_title url1)
      /\ extract_page_title url2 = Raise exc) ->
  analyze_wiki_pages network noise url1 url2 s e w = (Raise exc, w).
Proof.
  unfold analyze_wiki_pages, bind, lift. intros [-> | [[o ->] ->]]; reflexivity.
Qed.

(** C7, as stated, fails: both extractions run before the test of their
    results, so a URL that makes [urlparse] raise ends the run with its
    exception also when the other URL gives no title. *)
Lemma analyze_wiki_pages_absent_title_raises :
  ~ (forall (network : nat -> string -> outcome response) (noise : Z -> nat -> Z)
            (url1 url2 : string) (s e : date) (w : world),
        extract_page_title url1 = Ret None \/ extract_page_title url2 = Ret None ->
        fst (analyze_wiki_pages network noise url1 url2 s e w) = Ret None).
Proof.
  intro H.
  specialize (H network_two_items sample_noise
                "https://en.wikipedia.org/w/index.php?title=Foo"
                "http://[/wiki/Foo" (jan 1) (jan 31) world0
                (or_introl eq_refl)).
  vm_compute in H. discriminate H.
Qed.

(** C7, as amended.  When both extractions return and one of them yields
    an absent value, the pipeline prints the bad-input message and returns
    [None], and it sends no request. *)
Theorem analyze_wiki_pages_bad_input
        (network : nat -> string -> outcome response) (noise : Z -> nat -> Z)
        (url1 url2 : string) (s e : date) (w : world) (o1 o2 : option string) :
  extract_page_title url1 = Ret o1 ->
  extract_page_title url2 = Ret o2 ->
  o1 = None \/ o2 = None ->
  analyze_wiki_pages network noise url1 url2 s e w
  = (Ret None, after_print w msg_bad_input)
  /\ requested (snd (analyze_wiki_pages network noise url1 url2 s e w))
     = requested w.
Proof.
  intros H1 H2 Hnone.
  assert (Hrun : analyze_wiki_pages network noise url1 url2 s e w
                 = (Ret None, after_print w msg_bad_input)).
  { apply (analyze_rejects _ _ _ _ _ _ _ _ _ H1 H2).
    destruct Hnone as [-> | ->]; [reflexivity | apply andb_false_r]. }
  split; [exact Hrun | now rewrite Hrun].
Qed.

Lemma analyze_wiki_pages_bad_input_witness :
  analyze_wiki_pages network_two_items sample_noise
    "https://en.wikipedia.org/w/index.php?title=Foo" url_java (jan 1) (jan 31) world0
  = (Ret None, after_print world0 msg_bad_input)
  /\ requested (snd (analyze_wiki_pages network_two_items sample_noise
                       "https://en.wikipedia.org/w/index.php?title=Foo" url_java
                       (jan 1) (jan 31) world0))
     = requested world0.
Proof.
  apply (analyze_wiki_pages_bad_input network_two_items sample_noise
           "https://en.wikipedia.org/w/index.php?title=Foo" url_java
           (jan 1) (jan 31) world0 None (Some "Java_(programming_language)")).
  - reflexivity.
  - reflexivity.
  - left. reflexivity.
Defined.

(** An empty title is rejected in the same way as an absent one. *)
Lemma analyze_wiki_pages_empty_title
      (network : nat -> string -> outcome response) (noise : Z -> nat -> Z)
      (url1 url2 : string) (s e : date) (w : world) (o1 o2 : option string) :
  extract_page_title url1 = Ret o1 ->
  extract_page_title url2 = Ret o2 ->
  o1 = Some EmptyString \/ o2 = Some EmptyString ->
  analyze_wiki_pages network noise url1 url2 s e w
  = (Ret None, after_print w msg_bad_input).
Proof.
  intros H1 H2 Hnone.
  apply (analyze_rejects _ _ _ _ _ _ _ _ _ H1 H2).
  destruct Hnone as [-> | ->]; [reflexivity | apply andb_false_r].
Qed.

(** C8, as stated, fails: the second page is fetched before the frames
    are tested, so after an empty first frame a second fetch that raises
    ends the run with its exception. *)
Lemma analyze_wiki_pages_empty_frame_raises :
  ~ (forall (network : nat -> string -> outcome response) (noise : Z -> nat -> Z)
            (url1 url2 : string) (s e : date) (w w1 : world) (t1 t2 : string),
        extract_page_title url1 = Ret (Some t1) ->
        extract_page_title url2 = Ret (Some t2) ->
        t1 <> EmptyString -> t2 <> EmptyString ->
        fetch_pageviews network t1 s e (after_print w (msg_fetching t1 t2))
        = (Ret [], w1) ->
        fst (analyze_wiki_pages network noise url1 url2 s e w) = Ret None).
Proof.
  intro H.
  pose (t1 := "Python_(programming_language)").
  pose (t2 := "Java_(programming_language)").
  specialize (H network_not_found_then_no_views sample_noise
                url_python url_java (jan 1) (jan 31) world0
                (snd (fetch_pageviews network_not_found_then_no_views t1
                        (jan 1) (jan 31)
                        (after_print world0 (msg_fetching t1 t2))))
                t1 t2 eq_refl eq_refl).
  assert (Hraise : fst (analyze_wiki_pages network_not_found_then_no_views
                          sample_noise url_python url_java (jan 1) (jan 31) world0)
                   = Raise KeyError) by (vm_compute; reflexivity).
  rewrite Hraise in H.
  assert (Hc : Raise KeyError = Ret (@None (list SharesRow)));
    [|discriminate Hc].
  apply H; [discriminate | discriminate | vm_compute; reflexivity].
Qed.

(** C8, as amended.  When both titles are extracted, both fetches return
    and at least one of the two frames is empty, the pipeline prints the
    no-data message, which is not the bad-input message, and returns
    [None]; nothing is raised. *)
Theorem analyze_wiki_pages_no_data
        (network : nat -> string -> outcome response) (noise : Z -> nat -> Z)
        (url1 url2 : string) (s e : date) (w w1 w2 : world)
        (t1 t2 : string) (df1 df2 : DataFrame) :
  extract_page_title url1 = Ret (Some t1) ->
  extract_page_title url2 = Ret (Some t2) ->
  t1 <> EmptyString -> t2 <> EmptyString ->
  fetch_pageviews network t1 s e (after_print w (msg_fetching t1 t2)) = (Ret df1, w1) ->
  fetch_pageviews network t2 s e w1 = (Ret df2, w2) ->
  df1 = [] \/ df2 = [] ->
  analyze_wiki_pages network noise url1 url2 s e w
  = (Ret None, after_print w2 msg_no_data)
  /\ msg_no_data <> msg_bad_input.
Proof.
  intros H1 H2 Hn1 Hn2 Hf1 Hf2 Hempty. split; [|discriminate].
  rewrite (analyze_fetched _ _ _ _ _ _ _ _ _ _ _ _ _ H1 H2 Hn1 Hn2 Hf1 Hf2).
  destruct Hempty as [-> | ->]; [reflexivity|].
  now rewrite orb_true_r.
Qed.

Lemma analyze_wiki_pages_no_data_witness :
  fst (analyze_wiki_pages network_not_found sample_noise url_python url_java
         (jan 1) (jan 31) world0)
  = Ret None.
Proof.
  pose (t1 := "Python_(programming_language)").
  pose (t2 := "Java_(programming_language)").
  pose (w1 := snd (fetch_pageviews network_not_found t1 (jan 1) (jan 31)
                     (after_print world0 (msg_fetching t1 t2)))).
  pose (w2 := snd (fetch_pageviews network_not_found t2 (jan 1) (jan 31) w1)).
  assert (H : analyze_wiki_pages network_not_found sample_noise url_python url_java
                (jan 1) (jan 31) world0
              = (Ret None, after_print w2 msg_no_data)
              /\ msg_no_data <> msg_bad_input).
  { apply (analyze_wiki_pages_no_data network_not_found sample_noise
             url_python url_java (jan 1) (jan 31) world0 w1 w2 t1 t2 [] []).
    - reflexivity.
    - reflexivity.
    - discriminate.
    - discriminate.
    - reflexivity.
    - reflexivity.
    - left. reflexivity. }
  rewrite (proj1 H). reflexivity.
Defined.

(** A fetch that raises leaves the pipeline as an exception, also after
    an empty first frame. *)
Example analyze_wiki_pages_second_fetch_raises :
  fst (analyze_wiki_pages network_not_found_then_no_views sample_noise
         url_python url_java (jan 1) (jan 31) world0)
  = Raise KeyError.
Proof. vm_compute. reflexivity. Qed.

(* ------------------------------------------------------------------ *)
(** * Synthetic shares: the statement of the specification *)

Lemma nth_error_combine {A B} (l1 : list A) (l2 : list B) (i : nat) :
  nth_error (combine l1 l2) i
  = match nth_error l1 i, nth_error l2 i with
    | Some a, Some b => Some (a, b)
    | _, _ => None
    end.
Proof.
  revert l2 i. induction l1 as [|a l1 IH]; intros [|b l2] [|i]; cbn; auto.
  - destruct (nth_error l1 i); reflexivity.
Qed.

Lemma draws_nth (noise : Z -> nat -> Z) (pos n i : nat) :
  nth_error (draws noise pos n) i
  = if (i <? n)%nat then Some (noise 42 (pos + i)%nat) else None.
Proof.
  unfold draws. rewrite nth_error_map, nth_error_seq.
  destruct (i <? n)%nat; reflexivity.
Qed.

(** One converted column, cell by cell. *)
Lemma shares_column_nth (noise : Z -> nat -> Z) (col : list (option Z))
      (pos n : nat) (ss : list Z) (i : nat) (v : Z) :
  n = List.length col ->
  shares_column col (draws noise pos n) = Ret ss ->
  nth_error col i = Some (Some v) ->
  exists n,
    nth_error ss i = Some n
    /\ trunc_b64 (share_float (Some v) (noise 42 (pos + i)%nat)) = Ret n.
Proof.
  unfold shares_column. intros -> Hs Hi.
  eapply astype_int_nth; [exact Hs|].
  rewrite nth_error_map, nth_error_combine, Hi, draws_nth.
  assert (Hlt : (i < List.length col)%nat)
    by (apply nth_error_Some; congruence).
  apply Nat.ltb_lt in Hlt. rewrite Hlt. reflexivity.
Qed.

Lemma shares_column_length (col : list (option Z)) (ds ss : list Z) :
  List.length ds = List.length col ->
  shares_column col ds = Ret ss -> List.length ss = List.length col.
Proof.
  unfold shares_column. intros Hl Hs.
  rewrite (astype_int_length _ _ Hs), length_map, length_combine. lia.
Qed.

(** A column whose counts are all present and below [2^50] is converted. *)
Lemma shares_column_returns (col : list (option Z)) :
  Forall (fun c => exists v, c = Some v /\ 0 <= v < 2 ^ 50) col ->
  forall ds, Forall (fun r => 0 <= r < 10) ds ->
             exists ss, shares_column col ds = Ret ss.
Proof.
  unfold shares_column.
  induction 1 as [|c col (v & -> & Hv) _ IH]; intros ds Hds.
  - exists []. reflexivity.
  - destruct Hds as [|r ds Hr Hds]; [exists []; reflexivity|].
    destruct (IH ds Hds) as (ss & Hss). exists ((v / 10 + r) :: ss).
    cbn [combine map astype_int].
    rewrite (share_float_trunc v r Hv Hr). cbn [obind]. now rewrite Hss.
Qed.

(** C1, as stated, fails: for a count above [2^53] the float64 product
    rounds up to the next multiple of ten. *)
Lemma shares_large_count :
  ~ (forall (noise : Z -> nat -> Z) t1 t2 df1 df2 w w' table,
        (forall s i, 0 <= noise s i < 10) ->
        derive noise t1 t2 df1 df2 w = (Ret table, w') ->
        forall i row v,
          nth_error table i = Some row ->
          views_a (merged row) = Some v ->
          shares_a row = v / 10 + noise 42 i).
Proof.
  intro H.
  specialize (H (fun _ _ => 0) "A" "B"
                [mkRecord (jan 1) 9007199254740999] [mkRecord (jan 1) 1]
                world0 (seeded world0 2)
                [mkSharesRow (mkRow (jan 1) (Some 9007199254740999) (Some 1))
                             900719925474100 0]).
  specialize (H ltac:(intros; lia) ltac:(vm_compute; reflexivity) O _
                9007199254740999 eq_refl eq_refl).
  vm_compute in H. discriminate H.
Qed.

Example share_float_large_count (r : Z) :
  0 <= r < 10 ->
  trunc_b64 (share_float (Some 9007199254740999) r)
  = Ret (9007199254740999 / 10 + 1 + r).
Proof.
  intro Hr.
  assert (Hcases : r = 0 \/ r = 1 \/ r = 2 \/ r = 3 \/ r = 4 \/ r = 5
                   \/ r = 6 \/ r = 7 \/ r = 8 \/ r = 9) by lia.
  repeat (destruct Hcases as [->|Hcases]; [vm_compute; reflexivity|]).
  subst r. vm_compute. reflexivity.
Qed.

(** C1, as amended.  When the derivation returns its table of N rows,
    the generator was seeded with 42 at its start and 2N draws were taken
    from its sequence; row i holds row i of the merged table, and where its
    views are a count from 0 to below [2^50], the share of page A is
    [floor(views / 10)] plus draw i and the share of page B is
    [floor(views / 10)] plus draw N + i. *)
Theorem shares_of_derive
        (noise : Z -> nat -> Z) (t1 t2 : string) (df1 df2 : DataFrame)
        (w w' : world) (table : list SharesRow) :
  (forall i, 0 <= noise 42 i < 10) ->
  derive noise t1 t2 df1 df2 w = (Ret table, w') ->
  let M := merged_table df1 df2 in
  let N := List.length M in
  List.length table = N
  /\ w' = seeded w (N + N)
  /\ forall i row,
      nth_error table i = Some row ->
      nth_error M i = Some (merged row)
      /\ (forall v, views_a (merged row) = Some v -> 0 <= v < 2 ^ 50 ->
                    shares_a row = v / 10 + noise 42 i)
      /\ (forall v, views_b (merged row) = Some v -> 0 <= v < 2 ^ 50 ->
                    shares_b row = v / 10 + noise 42 (N + i)%nat).
Proof.
  intros Hnoise Hd. cbv zeta.
  destruct (derive_returns _ _ _ _ _ _ _ _ Hd) as (sa & sb & _ & Ha & Hb & -> & ->).
  clear Hd.
  set (M := merged_table df1 df2) in *. set (N := List.length M) in *.
  assert (Hla : List.length sa = N).
  { rewrite (shares_column_length _ _ _ (eq_trans (draws_length _ _ _)
               (eq_sym (length_map _ _))) Ha). apply length_map. }
  assert (Hlb : List.length sb = N).
  { rewrite (shares_column_length _ _ _ (eq_trans (draws_length _ _ _)
               (eq_sym (length_map _ _))) Hb). apply length_map. }
  split.
  { unfold add_shares. rewrite length_map, !length_combine, Hla, Hlb.
    lia. }
  split; [reflexivity|].
  intros i row Hrow. unfold add_shares in Hrow.
  rewrite nth_error_map, !nth_error_combine in Hrow.
  destruct (nth_error M i) as [r|] eqn:Hr; [|discriminate Hrow].
  destruct (nth_error sa i) as [a|] eqn:Hsa; [|discriminate Hrow].
  destruct (nth_error sb i) as [b|] eqn:Hsb; [|discriminate Hrow].
  cbn in Hrow. injection Hrow as <-. cbn [merged shares_a shares_b].
  split; [reflexivity|].
  assert (HNa : N = List.length (map views_a M)) by (symmetry; apply length_map).
  assert (HNb : N = List.length (map views_b M)) by (symmetry; apply length_map).
  split; intros v Hv Hrange.
  - destruct (shares_column_nth noise _ 0 N sa i v HNa Ha) as (n & Hn & Ht).
    { rewrite nth_error_map, Hr. cbn. now rewrite Hv. }
    rewrite (share_float_trunc v _ Hrange (Hnoise _)) in Ht.
    cbn [Nat.add] in Ht. congruence.
  - destruct (shares_column_nth noise _ N N sb i v HNb Hb) as (n & Hn & Ht).
    { rewrite nth_error_map, Hr. cbn. now rewrite Hv. }
    rewrite (share_float_trunc v _ Hrange (Hnoise _)) in Ht.
    congruence.
Qed.

Lemma shares_of_derive_witness :
  let table :=
    [mkSharesRow (mkRow (jan 1) (Some 100) (Some 47)) 10 6;
     mkSharesRow (mkRow (jan 2) (Some 205) (Some 30)) 21 6] in
  List.length table = 2%nat
  /\ seeded world0 4 = seeded world0 (2 + 2)
  /\ forall i row,
      nth_error table i = Some row ->
      nth_error (merged_table [mkRecord (jan 1) 100; mkRecord (jan 2) 205]
                              [mkRecord (jan 1) 47; mkRecord (jan 2) 30]) i
      = Some (merged row)
      /\ (forall v, views_a (merged row) = Some v -> 0 <= v < 2 ^ 50 ->
                    shares_a row = v / 10 + sample_noise 42 i)
      /\ (forall v, views_b (merged row) = Some v -> 0 <= v < 2 ^ 50 ->
                    shares_b row = v / 10 + sample_noise 42 (2 + i)%nat).
Proof.
  apply (shares_of_derive sample_noise "A" "B"
           [mkRecord (jan 1) 100; mkRecord (jan 2) 205]
           [mkRecord (jan 1) 47; mkRecord (jan 2) 30] world0 (seeded world0 4)).
  - intro i. unfold sample_noise.
    pose proof (Nat.mod_upper_bound i 10 ltac:(discriminate)). lia.
  - vm_compute. reflexivity.
Defined.

(** The derivation does return on frames with the same dates, each once,
    distinct titles and counts below [2^50]. *)
Lemma derive_total
      (noise : Z -> nat -> Z) (t1 t2 : string) (df1 df2 : DataFrame) (w : world) :
  (forall i, 0 <= noise 42 i < 10) ->
  t1 <> t2 ->
  Forall (fun row => (exists v, views_a row = Some v /\ 0 <= v < 2 ^ 50)
                     /\ (exists v, views_b row = Some v /\ 0 <= v < 2 ^ 50))
         (merged_table df1 df2) ->
  exists table,
    derive noise t1 t2 df1 df2 w
    = (Ret table, seeded w (List.length (merged_table df1 df2)
                            + List.length (merged_table df1 df2))).
Proof.
  intros Hnoise Ht Hrows. rewrite derive_eq. cbv zeta.
  apply String.eqb_neq in Ht. rewrite Ht.
  assert (Hds : forall pos n, Forall (fun r => 0 <= r < 10) (draws noise pos n)).
  { intros pos n. unfold draws. apply Forall_forall. intros r Hr.
    apply in_map_iff in Hr as (i & <- & _). apply Hnoise. }
  destruct (shares_column_returns (map views_a (merged_table df1 df2)))
    with (ds := draws noise 0 (List.length (merged_table df1 df2))) as (sa & ->);
    [|apply Hds|].
  { apply Forall_forall. intros c Hc. apply in_map_iff in Hc as (row & <- & Hrow).
    rewrite Forall_forall in Hrows. apply (Hrows row Hrow). }
  destruct (shares_column_returns (map views_b (merged_table df1 df2)))
    with (ds := draws noise (List.length (merged_table df1 df2))
                  (List.length (merged_table df1 df2))) as (sb & ->);
    [|apply Hds|].
  { apply Forall_forall. intros c Hc. apply in_map_iff in Hc as (row & <- & Hrow).
    rewrite Forall_forall in Hrows. apply (Hrows row Hrow). }
  eexists. reflexivity.
Qed.

(* ------------------------------------------------------------------ *)
(** * More on the title extractor *)

(** The extractor raises only where [urlparse] does: indexing the split
    path at 1 never fails, since the path starts with the separator. *)
Theorem extract_page_title_raises_iff (url : string) (e : exn) :
  extract_page_title url = Raise e <-> UrlLib.urlparse url = Raise e.
Proof.
  split.
  - intro He. destruct (UrlLib.urlparse url) as [parsed|e'] eqn:Hu.
    + destruct (PyStr.startswith (UrlLib.path parsed) wiki_prefix) eqn:Hp.
      * rewrite (extract_page_title_on_prefix _ _ Hu Hp) in He. discriminate.
      * rewrite (extract_page_title_off_prefix _ _ Hu Hp) in He. discriminate.
    + rewrite (extract_page_title_parse_error _ _ Hu) in He. congruence.
  - apply extract_page_title_parse_error.
Qed.

Section UrlShape.
Import PyStr.

Lemma contains_app (c : ascii) (a b : string) :
  contains c (a ++ b) = contains c a || contains c b.
Proof.
  induction a as [|d a IH]; cbn; [reflexivity|].
  destruct (Ascii.eqb c d); [reflexivity | exact IH].
Qed.

Lemma remove_absent (c : ascii) (s : string) :
  contains c s = false -> remove c s = s.
Proof.
  induction s as [|d s IH]; cbn; [reflexivity|].
  destruct (Ascii.eqb c d); [discriminate|]. intro H. now rewrite IH.
Qed.

Lemma find_absent (c : ascii) (s : string) :
  contains c s = false -> find c s = None.
Proof.
  induction s as [|d s IH]; cbn; [reflexivity|].
  destruct (Ascii.eqb c d); [discriminate|]. intro H. now rewrite IH.
Qed.

Lemma find_app (c : ascii) (a b : string) :
  contains c a = false ->
  find c (a ++ b)
  = match find c b with
    | Some i => Some (String.length a + i)%nat
    | None => None
    end.
Proof.
  induction a as [|d a IH]; cbn.
  - intros _. destruct (find c b); reflexivity.
  - destruct (Ascii.eqb c d); [discriminate|]. intro H. rewrite (IH H).
    destruct (find c b); reflexivity.
Qed.

Lemma take_app (a b : string) : take (String.length a) (a ++ b) = a.
Proof. induction a as [|d a IH]; cbn; [now destruct b | now rewrite IH]. Qed.

Lemma drop_app (a b : string) : drop (String.length a) (a ++ b) = b.
Proof. induction a as [|d a IH]; cbn; [reflexivity | exact IH]. Qed.

Lemma string_length_app (a b : string) :
  String.length (a ++ b) = (String.length a + String.length b)%nat.
Proof. induction a as [|d a IH]; cbn; [reflexivity | now rewrite IH]. Qed.

Lemma free_of_app (cs a b : string) :
  free_of cs (a ++ b) = free_of cs a && free_of cs b.
Proof.
  induction cs as [|c cs IH]; cbn; [reflexivity|].
  rewrite contains_app, IH, negb_orb.
  destruct (contains c a), (contains c b), (free_of cs a), (free_of cs b);
    reflexivity.
Qed.

(** [split_once c] cuts at the first [c]. *)
Lemma split_once_app (c : ascii) (a b : string) :
  contains c a = false ->
  UrlLib.split_once c (a ++ String c b) = (a, b).
Proof.
  intro H. unfold UrlLib.split_once. rewrite (find_app c a _ H). cbn [find].
  rewrite Ascii.eqb_refl, Nat.add_0_r, take_app.
  replace (S (String.length a)) with (String.length (a ++ String c "")).
  - replace (a ++ String c b) with ((a ++ String c "") ++ b)
      by (now rewrite append_assoc).
    now rewrite drop_app.
  - rewrite string_length_app. cbn. lia.
Qed.

Lemma split_once_absent (c : ascii) (a : string) :
  contains c a = false -> UrlLib.split_once c a = (a, EmptyString).
Proof. intro H. unfold UrlLib.split_once. now rewrite (find_absent c a H). Qed.

(** The path is what stands before the query and the fragment. *)
Lemma path_before_suffix (p sfx : string) :
  contains "?" p = false -> contains "#" p = false ->
  match sfx with
  | EmptyString => true
  | String c _ => Ascii.eqb c "?" || Ascii.eqb c "#"
  end = true ->
  fst (UrlLib.split_once "?" (fst (UrlLib.split_once "#" (p ++ sfx)))) = p.
Proof.
  intros Hq Hf Hs. destruct sfx as [|c sfx].
  - rewrite append_empty_r, (split_once_absent "#" p Hf). cbn [fst].
    now rewrite (split_once_absent "?" p Hq).
  - apply orb_true_iff in Hs as [Hc|Hc]; apply Ascii.eqb_eq in Hc; subst c.
    + (* a query, perhaps followed by a fragment *)
      destruct (contains "#" sfx) eqn:Hfs.
      * unfold UrlLib.split_once at 2.
        rewrite (find_app "#" p _ Hf). cbn [find]. cbn [Ascii.eqb Bool.eqb].
        destruct (find "#" sfx) as [i|] eqn:Hi.
        -- cbn [fst].
           replace (take (String.length p + S i) (p ++ String "?" sfx))
             with (p ++ String "?" (take i sfx)).
           ++ now rewrite (split_once_app "?" p _ Hq).
           ++ clear. induction p as [|d p IH]; cbn; [reflexivity | now rewrite IH].
        -- cbn [fst]. now rewrite (split_once_app "?" p _ Hq).
      * rewrite (split_once_absent "#").
        -- cbn [fst]. now rewrite (split_once_app "?" p _ Hq).
        -- rewrite contains_app, Hf. cbn. exact Hfs.
    + rewrite (split_once_app "#" p _ Hf). cbn [fst].
      now rewrite (split_once_absent "?" p Hq).
Qed.

(** [_splitnetloc] ends the authority at the first slash when no other
    delimiter stands before it. *)
Lemma splitnetloc_host (host rest : string) :
  contains "/" host = false -> contains "?" host = false ->
  contains "#" host = false ->
  UrlLib.splitnetloc ("//" ++ host ++ String "/" rest) = (host, String "/" rest).
Proof.
  intros Hs Hq Hf. unfold UrlLib.splitnetloc, find_from.
  change (drop 2 ("//" ++ host ++ String "/" rest)) with (host ++ String "/" rest).
  rewrite (find_app "/" host _ Hs), (find_app "?" host _ Hq), (find_app "#" host _ Hf).
  cbn [find]. rewrite Ascii.eqb_refl, Nat.add_0_r.
  assert (Hlen : String.length ("//" ++ host ++ String "/" rest)
                 = (2 + String.length host + S (String.length rest))%nat).
  { cbn. rewrite string_length_app. cbn. lia. }
  rewrite Hlen.
  change (Ascii.eqb "?" "/") with false. change (Ascii.eqb "#" "/") with false.
  cbv iota.
  destruct (find "?" rest), (find "#" rest); cbn [UrlLib.min_opt];
    match goal with
    | |- (drop 2 (take ?d _), drop ?d _) = _ =>
        replace d with (2 + String.length host)%nat by lia
    end;
    cbn [Nat.add take drop append]; now rewrite take_app, drop_app.
Qed.

End UrlShape.
Section AnyHost.
Import PyStr.

Lemma prefix_append (p s : string) : String.prefix p (p ++ s) = true.
Proof.
  induction p as [|c p IH]; cbn; [now destruct s|].
  destruct (ascii_dec c c); [exact IH | congruence].
Qed.

Lemma remove_unsafe_free (s : string) :
  free_of unsafe_chars s = true -> UrlLib.remove_unsafe s = s.
Proof.
  cbn [free_of unsafe_chars]. rewrite !andb_true_iff, !negb_true_iff.
  intros (Ht & Hr & Hn & _). unfold UrlLib.remove_unsafe.
  now rewrite (remove_absent _ s Ht), (remove_absent _ s Hr), (remove_absent _ s Hn).
Qed.

Lemma unquote_go_no_percent (s : string) :
  contains "%" s = false -> UrlLib.unquote_go s 0 = s.
Proof.
  induction s as [|c s IH]; cbn [contains UrlLib.unquote_go]; [reflexivity|].
  rewrite Ascii.eqb_sym. destruct (Ascii.eqb c "%"); [discriminate|].
  intro H. now rewrite IH.
Qed.

(** What [urlparse] makes of an https URL with a plain host, an article
    path, and a query or a fragment. *)
Lemma urlparse_https (host t sfx : string) :
  plain_host host = true -> plain_title t = true -> query_or_fragment sfx = true ->
  exists q f,
    UrlLib.urlparse ("https://" ++ host ++ "/wiki/" ++ t ++ sfx)
    = Ret (UrlLib.mkParseResult "https" host ("/wiki/" ++ t) "" q f).
Proof.
  unfold plain_host, plain_title, query_or_fragment.
  intros Hh Ht Hs. apply andb_true_iff in Hs as [Hsu Hsf].
  apply andb_true_iff in Hh as [Hh _].
  assert (Hhu : free_of unsafe_chars host = true).
  { cbn [free_of append unsafe_chars] in Hh |- *.
    rewrite !andb_true_iff in Hh. rewrite !andb_true_iff. tauto. }
  assert (Htu : free_of unsafe_chars t = true).
  { cbn [free_of append unsafe_chars] in Ht |- *.
    rewrite !andb_true_iff in Ht. rewrite !andb_true_iff. tauto. }
  cbn [free_of append unsafe_chars] in Hh, Ht.
  rewrite !andb_true_iff, !negb_true_iff in Hh, Ht.
  destruct Hh as (Hh1 & Hh2 & Hh3 & Hh4 & Hh5 & _).
  destruct Ht as (Ht1 & Ht2 & Ht3 & _).
  set (rest := host ++ "/wiki/" ++ t ++ sfx).
  assert (Hfree : free_of unsafe_chars ("https://" ++ rest) = true).
  { unfold rest. rewrite !free_of_app, Hhu, Htu, Hsu. reflexivity. }
  unfold UrlLib.urlparse, UrlLib.urlsplit.
  change (UrlLib.lstrip_c0 ("https://" ++ rest)) with ("https://" ++ rest).
  rewrite (remove_unsafe_free _ Hfree).
  change (UrlLib.split_scheme ("https://" ++ rest)) with ("https", "//" ++ rest).
  cbv iota beta.
  rewrite (prefix_append "//" rest). cbv iota.
  unfold rest.
  change ("//" ++ host ++ "/wiki/" ++ t ++ sfx)
    with ("//" ++ host ++ String "/" ("wiki/" ++ t ++ sfx)).
  rewrite (splitnetloc_host host _ Hh1 Hh2 Hh3), Hh4, Hh5.
  cbn [xorb obind].
  change (String "/" ("wiki/" ++ t ++ sfx)) with (("/wiki/" ++ t) ++ sfx).
  assert (Hq : contains "?" ("/wiki/" ++ t) = false)
    by (rewrite contains_app, Ht1; reflexivity).
  assert (Hf : contains "#" ("/wiki/" ++ t) = false)
    by (rewrite contains_app, Ht2; reflexivity).
  assert (Hsc : contains ";" ("/wiki/" ++ t) = false)
    by (rewrite contains_app, Ht3; reflexivity).
  pose proof (path_before_suffix ("/wiki/" ++ t) sfx Hq Hf Hsf) as Hpath.
  destruct (UrlLib.split_once "#" (("/wiki/" ++ t) ++ sfx)) as [u frag].
  cbn [fst] in Hpath.
  destruct (UrlLib.split_once "?" u) as [p q]. cbn [fst] in Hpath. subst p.
  cbn [obind UrlLib.scheme UrlLib.path]. rewrite Hsc, andb_false_r.
  exists q, frag. reflexivity.
Qed.

End AnyHost.

(** The host is not looked at and a query or fragment does not count: an
    https URL [host/wiki/title], whatever the host, followed by nothing, a
    query or a fragment, gives the decoded title (up to a second
    [/wiki/]); a title without escapes and without a second [/wiki/] comes
    back as it is. *)
Theorem extract_page_title_any_host (host t sfx : string) :
  plain_host host = true -> plain_title t = true -> query_or_fragment sfx = true ->
  extract_page_title ("https://" ++ host ++ "/wiki/" ++ t ++ sfx)
  = Ret (Some (UrlLib.unquote (until_sep wiki_prefix t)))
  /\ (occurs wiki_prefix t = false -> PyStr.contains "%" t = false ->
      extract_page_title ("https://" ++ host ++ "/wiki/" ++ t ++ sfx)
      = Ret (Some t)).
Proof.
  intros Hh Ht Hs.
  destruct (urlparse_https host t sfx Hh Ht Hs) as (q & f & Hu).
  assert (He : extract_page_title ("https://" ++ host ++ "/wiki/" ++ t ++ sfx)
               = Ret (Some (UrlLib.unquote (until_sep wiki_prefix t)))).
  { rewrite (extract_page_title_on_prefix _ _ Hu); [reflexivity|].
    apply (prefix_append wiki_prefix t). }
  split; [exact He|].
  intros Ho Hp. rewrite He, (until_sep_absent _ _ Ho).
  unfold UrlLib.unquote. now rewrite unquote_go_no_percent.
Qed.

Lemma extract_page_title_any_host_witness :
  extract_page_title ("https://" ++ "example.org:8080" ++ "/wiki/" ++ "C%2B%2B" ++ "?action=raw#top")
  = Ret (Some "C++").
Proof.
  exact (proj1 (extract_page_title_any_host "example.org:8080" "C%2B%2B"
                  "?action=raw#top" eq_refl eq_refl eq_refl)).
Defined.

(* ------------------------------------------------------------------ *)
(** * More on the fetcher *)

Lemma records_loop_acc (its : list item) :
  forall acc,
    records_loop its acc
    = obind (records_loop its []) (fun rs => Ret (acc ++ rs)%list).
Proof.
  induction its as [|it its IH]; intro acc; cbn [records_loop].
  - cbn. now rewrite app_nil_r.
  - destruct (record_of_item it) as [r|e]; cbn [obind]; [|reflexivity].
    rewrite (IH (acc ++ [r])%list), (IH ([] ++ [r])%list).
    destruct (records_loop its []) as [rs|e]; cbn [obind]; [|reflexivity].
    now rewrite <- app_assoc.
Qed.

Lemma records_loop_cons (it : item) (its : list item) :
  records_loop (it :: its) []
  = obind (record_of_item it) (fun r =>
      obind (records_loop its []) (fun rs => Ret (r :: rs))).
Proof.
  cbn [records_loop]. destruct (record_of_item it) as [r|e]; cbn [obind];
    [|reflexivity].
  now rewrite records_loop_acc.
Qed.

Lemma records_loop_returns_iff (its : list item) (recs : list PageviewRecord) :
  records_loop its [] = Ret recs <-> Forall2 converts_to its recs.
Proof.
  revert recs. induction its as [|it its IH]; intro recs.
  - cbn. split.
    + intros [= <-]. constructor.
    + intro H. inversion H. reflexivity.
  - rewrite records_loop_cons. unfold converts_to at 1. split.
    + destruct (record_of_item it) as [r|e] eqn:E; cbn [obind]; [|discriminate].
      destruct (records_loop its []) as [rs|e] eqn:E2; cbn [obind]; [|discriminate].
      intros [= <-]. constructor; [exact E | now apply IH].
    + intro H. inversion H as [|? r ? rs Hr Hrs]; subst.
      unfold converts_to in Hr. rewrite Hr. cbn [obind].
      apply IH in Hrs. now rewrite Hrs.
Qed.

Lemma records_loop_first_failure (good rest : list item) (bad : item) (exc : exn) :
  Forall (fun it => returns_value (record_of_item it)) good ->
  record_of_item bad = Raise exc ->
  records_loop (good ++ bad :: rest)%list [] = Raise exc.
Proof.
  intros Hgood Hbad. induction Hgood as [|it good [r Hr] _ IH].
  - cbn [app]. rewrite records_loop_cons, Hbad. reflexivity.
  - cbn [app]. rewrite records_loop_cons, Hr. cbn [obind]. now rewrite IH.
Qed.

(** One call sends one request, to the URL of the page and the dates,
    whatever the answer; it prints only on a status other than 200 and
    leaves the generator alone. *)
Theorem fetch_pageviews_effects
        (network : nat -> string -> outcome response)
        (title : string) (s e : date) (w : world) :
  let url := api_url title s e in
  let answer := network (List.length (requested w)) url in
  let w' := snd (fetch_pageviews network title s e w) in
  requested w' = (requested w ++ [url])%list
  /\ stdout w' = (stdout w ++ fetch_output title answer)%list
  /\ gen_seed w' = gen_seed w /\ gen_pos w' = gen_pos w.
Proof.
  cbv zeta.
  destruct (network (List.length (requested w)) (api_url title s e))
    as [resp|exc] eqn:Hn.
  - rewrite (fetch_pageviews_answered _ _ _ _ _ _ Hn). unfold fetch_output.
    rewrite <- (negb_involutive (status_code resp =? 200)).
    destruct (negb (status_code resp =? 200)); cbn;
      rewrite ?app_nil_r; auto.
  - unfold fetch_pageviews, bind, requests_get. rewrite Hn. cbn.
    rewrite app_nil_r. auto.
Qed.

(** On an answer with status 200 and a body of the expected shape (the
    timestamps ASCII) the fetcher returns a frame exactly when every item
    converts, and then the frame holds the items' records in order: there
    is no partial frame. *)
Theorem fetch_pageviews_returns_iff
        (network : nat -> string -> outcome response)
        (title : string) (s e : date) (w : world)
        (resp : response) (p : payload) (recs : list PageviewRecord) :
  network (List.length (requested w)) (api_url title s e) = Ret resp ->
  status_code resp = 200 ->
  body resp = Some p ->
  ascii_stamps (get_default (items p) []) ->
  fst (fetch_pageviews network title s e w) = Ret recs
  <-> Forall2 converts_to (get_default (items p) []) recs.
Proof.
  intros Hn Hs Hb _.
  rewrite (fetch_pageviews_answered _ _ _ _ _ _ Hn), Hs. cbn [Z.eqb negb Pos.eqb].
  unfold json. rewrite Hb. cbn [obind fst].
  apply records_loop_returns_iff.
Qed.

Lemma fetch_pageviews_returns_iff_witness :
  fst (fetch_pageviews network_two_items "Foo" (jan 1) (jan 31) world0)
  = Ret [mkRecord (jan 1) 100; mkRecord (jan 2) 205]
  <-> Forall2 converts_to (get_default (items (mkPayload (Some two_items))) [])
        [mkRecord (jan 1) 100; mkRecord (jan 2) 205].
Proof.
  apply (fetch_pageviews_returns_iff network_two_items "Foo" (jan 1) (jan 31) world0
           (mkResponse 200 (Some (mkPayload (Some two_items))))
           (mkPayload (Some two_items))).
  - reflexivity.
  - reflexivity.
  - reflexivity.
  - repeat constructor.
Defined.

(** The first item that does not convert ends the call with its
    exception: the items after it are not looked at and the records read
    before it are dropped. *)
Theorem fetch_pageviews_first_failure
        (network : nat -> string -> outcome response)
        (title : string) (s e : date) (w : world)
        (resp : response) (good rest : list item) (bad : item) (exc : exn) :
  network (List.length (requested w)) (api_url title s e) = Ret resp ->
  status_code resp = 200 ->
  body resp = Some (mkPayload (Some (good ++ bad :: rest)%list)) ->
  Forall (fun it => returns_value (record_of_item it)) good ->
  record_of_item bad = Raise exc ->
  fetch_pageviews network title s e w
  = (Raise exc, after_request w (api_url title s e)).
Proof.
  intros Hn Hs Hb Hgood Hbad.
  rewrite (fetch_pageviews_answered _ _ _ _ _ _ Hn), Hs. cbn [Z.eqb negb Pos.eqb].
  unfold json. rewrite Hb. cbn [obind items get_default].
  now rewrite (records_loop_first_failure good rest bad exc Hgood Hbad).
Qed.

Lemma fetch_pageviews_first_failure_witness :
  fetch_pageviews network_no_views "Foo" (jan 1) (jan 31) world0
  = (Raise KeyError, after_request world0 (api_url "Foo" (jan 1) (jan 31))).
Proof.
  apply (fetch_pageviews_first_failure network_no_views "Foo" (jan 1) (jan 31)
           world0
           (mkResponse 200 (Some (mkPayload (Some
              [mkItem (Some "2022010100") (Some 100);
               mkItem (Some "2022010200") None]))))
           [mkItem (Some "2022010100") (Some 100)] []
           (mkItem (Some "2022010200") None) KeyError).
  - reflexivity.
  - reflexivity.
  - reflexivity.
  - repeat constructor. exists (mkRecord (jan 1) 100). reflexivity.
  - reflexivity.
Defined.

(** With bodies of the expected shape (the timestamps ASCII): a request
    that fails, a body with status 200 that is not JSON, and an item that
    does not convert (the first such one) end the call with their
    exception, and nothing else does; a status other than 200 never does,
    whatever the body. *)
Theorem fetch_pageviews_raises_iff
        (network : nat -> string -> outcome response)
        (title : string) (s e : date) (w : world) (exc : exn) :
  (forall resp p,
      network (List.length (requested w)) (api_url title s e) = Ret resp ->
      body resp = Some p ->
      ascii_stamps (get_default (items p) [])) ->
  fst (fetch_pageviews network title s e w) = Raise exc
  <-> network (List.length (requested w)) (api_url title s e) = Raise exc
      \/ exists resp,
          network (List.length (requested w)) (api_url title s e) = Ret resp
          /\ status_code resp = 200
          /\ ((body resp = None /\ exc = JSONDecodeError)
              \/ exists p good bad rest,
                  body resp = Some p
                  /\ get_default (items p) [] = (good ++ bad :: rest)%list
                  /\ Forall (fun it => returns_value (record_of_item it)) good
                  /\ record_of_item bad = Raise exc).
Proof.
  intros _.
  destruct (network (List.length (requested w)) (api_url title s e))
    as [resp|exc'] eqn:Hn.
  - rewrite (fetch_pageviews_answered _ _ _ _ _ _ Hn).
    destruct (status_code resp =? 200) eqn:Hs; cbn [negb fst].
    + apply Z.eqb_eq in Hs. unfold json.
      destruct (body resp) as [p|] eqn:Hb; cbn [obind].
      * split.
        -- intro Hl. right. exists resp. split; [reflexivity|]. split; [exact Hs|].
           right. exists p.
           revert Hl. generalize (get_default (items p) []). intro its.
           induction its as [|it its IH]; [discriminate|].
           rewrite records_loop_cons.
           destruct (record_of_item it) as [r|e0] eqn:E; cbn [obind].
           ++ destruct (records_loop its []) as [rs|e1] eqn:E2; cbn [obind];
                [discriminate|].
              intros [= <-].
              destruct (IH eq_refl) as (good & bad & rest & _ & -> & Hg & Hbad).
              exists (it :: good), bad, rest. repeat split; auto.
              constructor; [now exists r | exact Hg].
           ++ intros [= <-]. exists [], it, its. repeat split; auto.
        -- intros [Hc | (resp' & Hr & _ & Hcases)]; [discriminate|].
           injection Hr as <-.
           destruct Hcases as [[Hc _] | (p' & good & bad & rest & Hp & Hi & Hg & Hbad)];
             [congruence|].
           rewrite Hb in Hp. injection Hp as <-. rewrite Hi.
           now apply records_loop_first_failure.
      * split.
        -- intros [= <-]. right. exists resp. auto.
        -- intros [Hc | (resp' & Hr & _ & Hcases)]; [discriminate|].
           injection Hr as <-.
           destruct Hcases as [[_ ->] | (p' & good & bad & rest & Hp & _)];
             [reflexivity | congruence].
    + apply Z.eqb_neq in Hs. split; [discriminate|].
      intros [Hc | (resp' & Hr & Hs' & _)]; [discriminate|].
      injection Hr as <-. contradiction.
  - unfold fetch_pageviews, bind, requests_get. rewrite Hn. cbn [fst].
    split.
    + intros [= <-]. now left.
    + intros [[= <-] | (resp & Hr & _)]; [reflexivity | discriminate].
Qed.

Lemma fetch_pageviews_raises_iff_witness :
  fst (fetch_pageviews network_no_views "Foo" (jan 1) (jan 31) world0)
  = Raise KeyError
  <-> network_no_views (List.length (requested world0))
        (api_url "Foo" (jan 1) (jan 31)) = Raise KeyError
      \/ exists resp,
          network_no_views (List.length (requested world0))
            (api_url "Foo" (jan 1) (jan 31)) = Ret resp
          /\ status_code resp = 200
          /\ ((body resp = None /\ KeyError = JSONDecodeError)
              \/ exists p good bad rest,
                  body resp = Some p
                  /\ get_default (items p) [] = (good ++ bad :: rest)%list
                  /\ Forall (fun it => returns_value (record_of_item it)) good
                  /\ record_of_item bad = Raise KeyError).
Proof.
  apply (fetch_pageviews_raises_iff network_no_views "Foo" (jan 1) (jan 31)
           world0 KeyError).
  intros resp p Hn Hb. injection Hn as <-. injection Hb as <-.
  repeat constructor.
Defined.

Lemma digit_val_digit_char (n : Z) : digit_val (digit_char n) = Some (n mod 10).
Proof.
  unfold digit_char.
  pose proof (Z.mod_pos_bound n 10 ltac:(lia)) as Hk.
  set (k := n mod 10) in *.
  assert (Hcases : k = 0 \/ k = 1 \/ k = 2 \/ k = 3 \/ k = 4 \/ k = 5
                   \/ k = 6 \/ k = 7 \/ k = 8 \/ k = 9) by lia.
  repeat (destruct Hcases as [->|Hcases]; [reflexivity|]).
  subst k. rewrite Hcases. reflexivity.
Qed.

Lemma ymd_digits_strftime (d : date) :
  0 <= year d <= 9999 -> 0 <= month d <= 99 -> 0 <= day d <= 99 ->
  ymd_digits (strftime_Ymd d) = Some d.
Proof.
  intros Hy Hm Hd. unfold ymd_digits, strftime_Ymd.
  rewrite !digit_val_digit_char. destruct d as [y m dd]. cbn [year month day] in *.
  f_equal. f_equal; Z.div_mod_to_equations; lia.
Qed.

(** The dates of the request and of the answer are written alike: the
    eight characters [strftime] makes of a date are read back by [strptime]
    as that date, so an item stamped with them and any hour converts to a
    record of that date. *)
Theorem stamped_item_converts (d : date) (hour : string) (v : Z) :
  valid_date d = true -> 1000 <= year d ->
  strptime_Ymd (strftime_Ymd d) = Ret d
  /\ record_of_item (mkItem (Some (strftime_Ymd d ++ hour)) (Some v))
     = Ret (mkRecord d v).
Proof.
  intros Hv Hy.
  assert (Hb : 0 <= year d <= 9999 /\ 0 <= month d <= 99 /\ 0 <= day d <= 99).
  { pose proof (valid_date_bounds d Hv).
    unfold valid_date in Hv. rewrite !andb_true_iff, !Z.leb_le in Hv. lia. }
  assert (Hp : strptime_Ymd (strftime_Ymd d) = Ret d).
  { apply strptime_Ymd_digits; [|exact Hv]. apply ymd_digits_strftime; lia. }
  split; [exact Hp|].
  unfold record_of_item. cbn [timestamp item_views getitem obind].
  replace (PyStr.take 8 (strftime_Ymd d ++ hour)) with (strftime_Ymd d)
    by reflexivity.
  now rewrite Hp.
Qed.

Lemma stamped_item_converts_witness :
  strptime_Ymd (strftime_Ymd (mkDate 2024 2 29)) = Ret (mkDate 2024 2 29)
  /\ record_of_item (mkItem (Some (strftime_Ymd (mkDate 2024 2 29) ++ "00")) (Some 7))
     = Ret (mkRecord (mkDate 2024 2 29) 7).
Proof.
  apply (stamped_item_converts (mkDate 2024 2 29) "00" 7).
  - reflexivity.
  - cbn. lia.
Defined.

(* ------------------------------------------------------------------ *)
(** * More on the merged table *)

Lemma date_le_spec (a b : date) :
  date_le a b
  <-> ~ (year b < year a
         \/ (year b = year a
             /\ (month b < month a \/ (month b = month a /\ day b < day a)))).
Proof.
  unfold date_le. rewrite <- date_ltb_spec.
  destruct (date_ltb b a); split; congruence.
Qed.

Lemma date_lt_le_trans (a b c : date) : date_lt a b -> date_le b c -> date_le a c.
Proof. unfold date_lt. rewrite date_ltb_spec, !date_le_spec. lia. Qed.

Lemma date_le_trans (a b c : date) : date_le a b -> date_le b c -> date_le a c.
Proof. rewrite !date_le_spec. lia. Qed.

Lemma insert_row_In (r x : MergedRow) (rows : list MergedRow) :
  In x (insert_row r rows) <-> x = r \/ In x rows.
Proof.
  split.
  - intro H. apply (Permutation_in _ (Permutation_sym (insert_row_perm r rows))) in H.
    destruct H; auto.
  - intro H. apply (Permutation_in _ (insert_row_perm r rows)).
    destruct H; [left | right]; auto.
Qed.

Lemma insert_row_sorted (r : MergedRow) (rows : list MergedRow) :
  StronglySorted (fun x y => date_le (row_date x) (row_date y)) rows ->
  StronglySorted (fun x y => date_le (row_date x) (row_date y)) (insert_row r rows).
Proof.
  induction 1 as [|x rows Hs IH Hall]; cbn [insert_row].
  - repeat constructor.
  - destruct (date_ltb (row_date r) (row_date x)) eqn:E.
    + constructor; [now constructor|]. constructor.
      * apply date_le_spec. apply date_ltb_spec in E. lia.
      * eapply Forall_impl; [|exact Hall]. intros y Hy.
        eapply date_lt_le_trans; eassumption.
    + constructor; [exact IH|].
      apply Forall_forall. intros y Hy. apply insert_row_In in Hy as [->|Hy].
      * exact E.
      * rewrite Forall_forall in Hall. now apply Hall.
Qed.

Lemma sort_values_sorted_le (rows : list MergedRow) :
  StronglySorted (fun x y => date_le (row_date x) (row_date y)) (sort_values rows).
Proof.
  unfold sort_values. induction (rev rows) as [|r l IH]; cbn [fold_right].
  - constructor.
  - now apply insert_row_sorted.
Qed.

(** The rows of one key, whatever the frames hold. *)
Lemma rows_for_cells (df1 df2 : DataFrame) (k : date) (row : MergedRow) :
  In row (rows_for df1 df2 k) ->
  cell_of df1 k (views_a row) /\ cell_of df2 k (views_b row)
  /\ (views_a row <> None \/ views_b row <> None).
Proof.
  unfold rows_for.
  destruct (with_date k df1) as [|l ls] eqn:E1; [|destruct (with_date k df2) as [|r rs] eqn:E2].
  - intro H. apply in_map_iff in H as (r & <- & Hr). cbn [views_a views_b cell_of].
    split; [now apply with_date_nil|]. split; [|right; discriminate].
    exists r. apply with_date_In in Hr as [Hr Hd]. auto.
  - intro H. apply in_map_iff in H as (l' & <- & Hl). cbn [views_a views_b cell_of].
    split; [|split; [now apply with_date_nil | left; discriminate]].
    exists l'. rewrite <- E1 in Hl. apply with_date_In in Hl as [Hl Hd]. auto.
  - intro H. apply in_flat_map in H as (l' & Hl & H).
    apply in_map_iff in H as (r' & <- & Hr). cbn [views_a views_b cell_of].
    rewrite <- E1 in Hl. rewrite <- E2 in Hr.
    apply with_date_In in Hl as [Hl Hdl]. apply with_date_In in Hr as [Hr Hdr].
    split; [exists l'; auto|]. split; [exists r'; auto | left; discriminate].
Qed.

Lemma rows_for_keeps_left (df1 df2 : DataFrame) (r : PageviewRecord) :
  In r df1 ->
  exists row, In row (rows_for df1 df2 (rec_date r))
              /\ views_a row = Some (rec_views r).
Proof.
  intro Hr. unfold rows_for.
  assert (Hin : In r (with_date (rec_date r) df1)) by (apply with_date_In; auto).
  destruct (with_date (rec_date r) df1) as [|l ls] eqn:E1; [destruct Hin|].
  destruct (with_date (rec_date r) df2) as [|r2 rs] eqn:E2.
  - eexists. split; [apply in_map; exact Hin | reflexivity].
  - exists (mkRow (rec_date r) (Some (rec_views r)) (Some (rec_views r2))).
    split; [|reflexivity].
    apply in_flat_map. exists r. split; [exact Hin|]. left. reflexivity.
Qed.

Lemma rows_for_keeps_right (df1 df2 : DataFrame) (r : PageviewRecord) :
  In r df2 ->
  exists row, In row (rows_for df1 df2 (rec_date r))
              /\ views_b row = Some (rec_views r).
Proof.
  intro Hr. unfold rows_for.
  assert (Hin : In r (with_date (rec_date r) df2)) by (apply with_date_In; auto).
  destruct (with_date (rec_date r) df1) as [|l ls] eqn:E1.
  - eexists. split; [apply in_map; exact Hin | reflexivity].
  - destruct (with_date (rec_date r) df2) as [|r2 rs] eqn:E2; [destruct Hin|].
    exists (mkRow (rec_date r) (Some (rec_views l)) (Some (rec_views r))).
    split; [|reflexivity].
    apply in_flat_map. exists l. split; [now left|].
    apply in_map_iff. exists r. split; [reflexivity | exact Hin].
Qed.

Lemma merged_table_ascending (df1 df2 : DataFrame) :
  StronglySorted date_le (map row_date (merged_table df1 df2)).
Proof.
  unfold merged_table.
  pose proof (sort_values_sorted_le (merge_outer df1 df2)) as H.
  induction H as [|x l Hs IH Hall]; cbn [map]; constructor; [exact IH|].
  apply Forall_forall. intros d Hd. apply in_map_iff in Hd as (y & <- & Hy).
  rewrite Forall_forall in Hall. now apply Hall.
Qed.

(** For any two frames, with or without repeated dates, whose counts are
    ones a float64 holds exactly: the merged table is in ascending order of
    the date; it loses no record (every record of either frame is the cell
    of some row of its date) and invents none (every cell is absent
    exactly when its frame lacks the row's date, else it is the views of a
    record of that date), and no row is empty on both sides. *)
Theorem merged_table_sound_complete (df1 df2 : DataFrame) :
  float_exact df1 -> float_exact df2 ->
  let M := merged_table df1 df2 in
  StronglySorted date_le (map row_date M)
  /\ (forall row, In row M ->
        cell_of df1 (row_date row) (views_a row)
        /\ cell_of df2 (row_date row) (views_b row)
        /\ (views_a row <> None \/ views_b row <> None))
  /\ (forall r, In r df1 ->
        exists row, In row M /\ row_date row = rec_date r
                    /\ views_a row = Some (rec_views r))
  /\ (forall r, In r df2 ->
        exists row, In row M /\ row_date row = rec_date r
                    /\ views_b row = Some (rec_views r)).
Proof.
  intros _ _.
  cbv zeta. split; [|split; [|split]].
  - apply merged_table_ascending.
  - intros row Hrow. apply merged_table_In in Hrow as (k & _ & Hrow).
    rewrite (rows_for_date _ _ _ _ Hrow). now apply rows_for_cells.
  - intros r Hr. destruct (rows_for_keeps_left df1 df2 r Hr) as (row & Hrow & Hv).
    exists row. split; [|split; [eapply rows_for_date; eassumption | exact Hv]].
    apply merged_table_In. exists (rec_date r). split; [|exact Hrow].
    apply join_keys_In. left. unfold dates. now apply in_map.
  - intros r Hr. destruct (rows_for_keeps_right df1 df2 r Hr) as (row & Hrow & Hv).
    exists row. split; [|split; [eapply rows_for_date; eassumption | exact Hv]].
    apply merged_table_In. exists (rec_date r). split; [|exact Hrow].
    apply join_keys_In. right. unfold dates. now apply in_map.
Qed.

Lemma merged_table_sound_complete_witness :
  let df1 := [mkRecord (jan 2) 7; mkRecord (jan 1) 5; mkRecord (jan 2) 9] in
  let df2 := [mkRecord (jan 3) 4; mkRecord (jan 2) 6] in
  let M := merged_table df1 df2 in
  StronglySorted date_le (map row_date M)
  /\ (forall row, In row M ->
        cell_of df1 (row_date row) (views_a row)
        /\ cell_of df2 (row_date row) (views_b row)
        /\ (views_a row <> None \/ views_b row <> None))
  /\ (forall r, In r df1 ->
        exists row, In row M /\ row_date row = rec_date r
                    /\ views_a row = Some (rec_views r))
  /\ (forall r, In r df2 ->
        exists row, In row M /\ row_date row = rec_date r
                    /\ views_b row = Some (rec_views r)).
Proof.
  intros df1 df2.
  apply (merged_table_sound_complete df1 df2).
  - repeat constructor; cbn; lia.
  - repeat constructor; cbn; lia.
Defined.

(* ------------------------------------------------------------------ *)
(** * More on the pipeline *)

Section PipelineEffects.

Variable network : nat -> string -> outcome response.
Variable noise : Z -> nat -> Z.

Lemma fetch_pageviews_split (title : string) (s e : date) (w : world) :
  fetch_pageviews network title s e w
  = (fetch_result network title s e (List.length (requested w)),
     fetch_world network title s e w).
Proof.
  unfold fetch_result, fetch_world.
  destruct (network (List.length (requested w)) (api_url title s e))
    as [resp|exc] eqn:Hn.
  - rewrite (fetch_pageviews_answered _ _ _ _ _ _ Hn). unfold fetch_output.
    destruct (status_code resp =? 200); cbn [negb].
    + unfold after_request. now rewrite app_nil_r.
    + reflexivity.
  - unfold fetch_pageviews, bind, requests_get. rewrite Hn. cbn [fetch_output].
    now rewrite app_nil_r.
Qed.

(** [derive] touches the world through the generator only, and what it
    returns does not depend on the world. *)
Lemma derive_split (t1 t2 : string) (df1 df2 : DataFrame) :
  exists (R : outcome (list SharesRow)) (K : nat),
    forall w, derive noise t1 t2 df1 df2 w = (R, seeded w K).
Proof.
  destruct (String.eqb t1 t2) eqn:Et.
  - exists (Raise KeyError), O. intro w. rewrite derive_eq. cbv zeta. now rewrite Et.
  - set (M := merged_table df1 df2). set (N := List.length M).
    destruct (shares_column (map views_a M) (draws noise 0 N)) as [sa|exc] eqn:Ea.
    + destruct (shares_column (map views_b M) (draws noise N N)) as [sb|exc] eqn:Eb.
      * exists (Ret (add_shares M sa sb)), (N + N)%nat. intro w.
        rewrite derive_eq. cbv zeta. fold M. fold N. now rewrite Et, Ea, Eb.
      * exists (Raise exc), (N + N)%nat. intro w.
        rewrite derive_eq. cbv zeta. fold M. fold N. now rewrite Et, Ea, Eb.
    + exists (Raise exc), N. intro w.
      rewrite derive_eq. cbv zeta. fold M. fold N. now rewrite Et, Ea.
Qed.

(** The whole pipeline, step by step, once the titles are there. *)
Lemma analyze_titles (url1 url2 : string) (s e : date) (w : world)
      (t1 t2 : string) :
  extract_page_title url1 = Ret (Some t1) ->
  extract_page_title url2 = Ret (Some t2) ->
  t1 <> EmptyString -> t2 <> EmptyString ->
  let n := List.length (requested w) in
  let w0 := after_print w (msg_fetching t1 t2) in
  let w1 := fetch_world network t1 s e w0 in
  let w2 := fetch_world network t2 s e w1 in
  analyze_wiki_pages network noise url1 url2 s e w
  = match fetch_result network t1 s e n with
    | Raise exc => (Raise exc, w1)
    | Ret df1 =>
        match fetch_result network t2 s e (S n) with
        | Raise exc => (Raise exc, w2)
        | Ret df2 =>
            if df_empty df1 || df_empty df2
            then (Ret None, after_print w2 msg_no_data)
            else match derive noise t1 t2 df1 df2 w2 with
                 | (Ret table, w3) => (Ret (Some table), w3)
                 | (Raise exc, w3) => (Raise exc, w3)
                 end
        end
    end.
Proof.
  intros H1 H2 Hn1 Hn2. cbv zeta.
  unfold analyze_wiki_pages, bind, lift. rewrite H1, H2.
  assert (Ht : truthy (Some t1) && truthy (Some t2) = true).
  { destruct t1, t2; try congruence; reflexivity. }
  rewrite Ht. unfold print at 1. fold (after_print w (msg_fetching t1 t2)).
  rewrite fetch_pageviews_split.
  change (List.length (requested (after_print w (msg_fetching t1 t2))))
    with (List.length (requested w)).
  destruct (fetch_result network t1 s e (List.length (requested w))) as [df1|exc];
    [|reflexivity].
  rewrite fetch_pageviews_split.
  replace (List.length
             (requested (fetch_world network t1 s e (after_print w (msg_fetching t1 t2)))))
    with (S (List.length (requested w)))
    by (cbn [fetch_world requested after_print]; rewrite length_app; cbn; lia).
  destruct (fetch_result network t2 s e (S (List.length (requested w)))) as [df2|exc];
    [|reflexivity].
  destruct (df_empty df1 || df_empty df2); [reflexivity|].
  destruct (derive noise t1 t2 df1 df2 _) as [[table|exc] w3]; reflexivity.
Qed.

(** Either the titles are there, or every run ends at once: with the
    exception of an extraction, or with the bad-input message. *)
Lemma analyze_cases (url1 url2 : string) (s e : date) :
  (exists t1 t2,
      extract_page_title url1 = Ret (Some t1)
      /\ extract_page_title url2 = Ret (Some t2)
      /\ t1 <> EmptyString /\ t2 <> EmptyString)
  \/ (exists exc, forall w,
         analyze_wiki_pages network noise url1 url2 s e w = (Raise exc, w))
  \/ (forall w, analyze_wiki_pages network noise url1 url2 s e w
                = (Ret None, after_print w msg_bad_input)).
Proof.
  destruct (extract_page_title url1) as [o1|exc] eqn:H1.
  - destruct (extract_page_title url2) as [o2|exc] eqn:H2.
    + destruct (truthy o1 && truthy o2) eqn:Ht.
      * left. apply andb_true_iff in Ht as [Ha Hb].
        destruct o1 as [[|c1 t1]|], o2 as [[|c2 t2]|]; try discriminate.
        exists (String c1 t1), (String c2 t2). repeat split; discriminate.
      * right. right. intro w. now apply (analyze_rejects _ _ _ _ _ _ _ _ _ H1 H2).
    + right. left. exists exc. intro w.
      unfold analyze_wiki_pages, bind, lift. now rewrite H1, H2.
  - right. left. exists exc. intro w.
    unfold analyze_wiki_pages, bind, lift. now rewrite H1.
Qed.

End PipelineEffects.

(** What a run of the pipeline does to its surroundings: it only adds to
    what is printed; it sends at most two requests, and a run that returns
    (a table or nothing) has sent none or both, so the second page is
    fetched also when the first frame is empty; a run that returns nothing
    leaves the generator as it was. *)
Theorem analyze_wiki_pages_effects
        (network : nat -> string -> outcome response) (noise : Z -> nat -> Z)
        (url1 url2 : string) (s e : date) (w : world) :
  let run := analyze_wiki_pages network noise url1 url2 s e w in
  (exists lines, stdout (snd run) = (stdout w ++ lines)%list)
  /\ (exists urls,
         requested (snd run) = (requested w ++ urls)%list
         /\ (List.length urls <= 2)%nat
         /\ (returns_value (fst run) ->
             urls = [] \/ List.length urls = 2%nat))
  /\ (fst run = Ret None ->
      gen_seed (snd run) = gen_seed w /\ gen_pos (snd run) = gen_pos w).
Proof.
  cbv zeta.
  destruct (analyze_cases network noise url1 url2 s e)
    as [(t1 & t2 & H1 & H2 & Hn1 & Hn2) | [(exc & Hw) | Hw]]; [|rewrite Hw..].
  - rewrite (analyze_titles network noise _ _ _ _ _ _ _ H1 H2 Hn1 Hn2). cbv zeta.
    set (u1 := api_url t1 s e). set (u2 := api_url t2 s e).
    destruct (fetch_result network t1 s e _) as [df1|exc].
    + destruct (fetch_result network t2 s e _) as [df2|exc].
      * destruct (df_empty df1 || df_empty df2).
        -- cbn [fst snd fetch_world after_print stdout requested gen_seed gen_pos].
           split; [|split].
           ++ eexists. rewrite <- !app_assoc. reflexivity.
           ++ exists [u1; u2]. rewrite <- app_assoc. cbn. auto.
           ++ auto.
        -- destruct (derive_split noise t1 t2 df1 df2) as (R & K & HR).
           rewrite HR. destruct R as [table|exc];
             cbn [fst snd seeded fetch_world after_print stdout requested
                  gen_seed gen_pos].
           ++ split; [|split].
              ** eexists. rewrite <- !app_assoc. reflexivity.
              ** exists [u1; u2]. rewrite <- app_assoc. cbn. auto.
              ** discriminate.
           ++ split; [|split].
              ** eexists. rewrite <- !app_assoc. reflexivity.
              ** exists [u1; u2]. rewrite <- app_assoc. cbn.
                 repeat split; auto.
              ** discriminate.
      * cbn [fst snd fetch_world after_print stdout requested gen_seed gen_pos].
        split; [|split].
        -- eexists. rewrite <- !app_assoc. reflexivity.
        -- exists [u1; u2]. rewrite <- app_assoc. cbn.
           repeat split; auto; try (intros [a Ha]; discriminate).
        -- discriminate.
    + cbn [fst snd fetch_world after_print stdout requested gen_seed gen_pos].
      split; [|split].
      * eexists. rewrite <- !app_assoc. reflexivity.
      * exists [u1]. cbn. repeat split; auto; try (intros [a Ha]; discriminate).
      * discriminate.
  - cbn [fst snd]. split; [|split].
    + exists []. now rewrite app_nil_r.
    + exists []. rewrite app_nil_r. cbn. auto.
    + discriminate.
  - cbn [fst snd after_print stdout requested gen_seed gen_pos]. split; [|split].
    + eexists. reflexivity.
    + exists []. rewrite app_nil_r. cbn. auto.
    + auto.
Qed.

(** What a run returns or raises depends on the world only through the
    number of requests sent before: neither what was printed nor the state
    of the generator counts, since the generator is seeded anew. *)
Theorem analyze_wiki_pages_reproducible
        (network : nat -> string -> outcome response) (noise : Z -> nat -> Z)
        (url1 url2 : string) (s e : date) (w w' : world) :
  List.length (requested w) = List.length (requested w') ->
  fst (analyze_wiki_pages network noise url1 url2 s e w)
  = fst (analyze_wiki_pages network noise url1 url2 s e w').
Proof.
  intro Hlen.
  destruct (analyze_cases network noise url1 url2 s e)
    as [(t1 & t2 & H1 & H2 & Hn1 & Hn2) | [(exc & Hw) | Hw]].
  - rewrite !(analyze_titles network noise _ _ _ _ _ _ _ H1 H2 Hn1 Hn2). cbv zeta.
    rewrite <- Hlen.
    destruct (fetch_result network t1 s e _) as [df1|exc]; [|reflexivity].
    destruct (fetch_result network t2 s e _) as [df2|exc]; [|reflexivity].
    destruct (df_empty df1 || df_empty df2); [reflexivity|].
    destruct (derive_split noise t1 t2 df1 df2) as (R & K & HR).
    rewrite !HR. destruct R; reflexivity.
  - now rewrite !Hw.
  - now rewrite !Hw.
Qed.

Lemma analyze_wiki_pages_reproducible_witness :
  fst (analyze_wiki_pages network_two_items sample_noise url_python url_java
         (jan 1) (jan 31) world0)
  = fst (analyze_wiki_pages network_two_items sample_noise url_python url_java
           (jan 1) (jan 31) (mkWorld ["earlier output"] [] 7 3)).
Proof.
  apply (analyze_wiki_pages_reproducible network_two_items sample_noise
           url_python url_java (jan 1) (jan 31)
           world0 (mkWorld ["earlier output"] [] 7 3)).
  reflexivity.
Defined.

Section PipelineTables.

Variable network : nat -> string -> outcome response.
Variable noise : Z -> nat -> Z.

Lemma add_shares_merged (M : list MergedRow) (sa sb : list Z) :
  List.length sa = List.length M -> List.length sb = List.length M ->
  map merged (add_shares M sa sb) = M.
Proof.
  unfold add_shares. revert sa sb.
  induction M as [|r M IH]; intros [|a sa] [|b sb] Ha Hb; try discriminate;
    [reflexivity|].
  cbn [combine map merged]. f_equal. apply IH; cbn in Ha, Hb; lia.
Qed.

(** The rows of a table that [derive] returned (the float64 arithmetic
    of a share, for counts below [2^50]). *)
Lemma derive_rows (t1 t2 : string) (df1 df2 : DataFrame) (w w' : world)
      (table : list SharesRow) :
  (forall i, 0 <= noise 42 i < 10) ->
  derive noise t1 t2 df1 df2 w = (Ret table, w') ->
  map merged table = merged_table df1 df2
  /\ forall i row,
      nth_error table i = Some row ->
      (forall v, views_a (merged row) = Some v -> 0 <= v < 2 ^ 50 ->
                 shares_a row = v / 10 + noise 42 i)
      /\ (forall v, views_b (merged row) = Some v -> 0 <= v < 2 ^ 50 ->
                    shares_b row
                    = v / 10 + noise 42 (List.length (merged_table df1 df2) + i)%nat).
Proof.
  intros Hnoise Hd.
  destruct (derive_returns _ _ _ _ _ _ _ _ Hd) as (sa & sb & _ & Ha & Hb & -> & ->).
  clear Hd.
  set (M := merged_table df1 df2) in *. set (N := List.length M) in *.
  assert (HNa : N = List.length (map views_a M)) by (symmetry; apply length_map).
  assert (HNb : N = List.length (map views_b M)) by (symmetry; apply length_map).
  assert (Hla : List.length sa = N).
  { rewrite (shares_column_length _ _ _ (eq_trans (draws_length _ _ _) HNa) Ha).
    now symmetry. }
  assert (Hlb : List.length sb = N).
  { rewrite (shares_column_length _ _ _ (eq_trans (draws_length _ _ _) HNb) Hb).
    now symmetry. }
  split; [now apply add_shares_merged|].
  intros i row Hrow. unfold add_shares in Hrow.
  rewrite nth_error_map, !nth_error_combine in Hrow.
  destruct (nth_error M i) as [r|] eqn:Hr; [|discriminate Hrow].
  destruct (nth_error sa i) as [a|] eqn:Hsa; [|discriminate Hrow].
  destruct (nth_error sb i) as [b|] eqn:Hsb; [|discriminate Hrow].
  cbn in Hrow. injection Hrow as <-. cbn [merged shares_a shares_b].
  split; intros v Hv Hrange.
  - destruct (shares_column_nth noise _ 0 N sa i v HNa Ha) as (n & Hn & Ht).
    { rewrite nth_error_map, Hr. cbn. now rewrite Hv. }
    rewrite (share_float_trunc v _ Hrange (Hnoise _)) in Ht.
    cbn [Nat.add] in Ht. congruence.
  - destruct (shares_column_nth noise _ N N sb i v HNb Hb) as (n & Hn & Ht).
    { rewrite nth_error_map, Hr. cbn. now rewrite Hv. }
    rewrite (share_float_trunc v _ Hrange (Hnoise _)) in Ht.
    congruence.
Qed.

Lemma derive_returns_present (t1 t2 : string) (df1 df2 : DataFrame)
      (w w' : world) (table : list SharesRow) :
  derive noise t1 t2 df1 df2 w = (Ret table, w') ->
  forall row, In row (merged_table df1 df2) ->
              views_a row <> None /\ views_b row <> None.
Proof.
  intros Hd row Hrow.
  destruct (derive_returns _ _ _ _ _ _ _ _ Hd) as (sa & sb & _ & Ha & Hb & _ & _).
  split; intro Hnone.
  - rewrite (shares_column_absent (map views_a (merged_table df1 df2))) in Ha;
      [discriminate | | now rewrite draws_length, length_map].
    rewrite <- Hnone. now apply in_map.
  - rewrite (shares_column_absent (map views_b (merged_table df1 df2))) in Hb;
      [discriminate | | now rewrite draws_length, length_map].
    rewrite <- Hnone. now apply in_map.
Qed.

Lemma merged_table_nonempty (df1 df2 : DataFrame) :
  df1 <> [] -> merged_table df1 df2 <> [].
Proof.
  intros Hne. destruct df1 as [|r df1]; [congruence|].
  destruct (rows_for_keeps_left (r :: df1) df2 r (or_introl eq_refl))
    as (row & Hrow & _).
  assert (Hin : In row (merged_table (r :: df1) df2)).
  { apply merged_table_In. exists (rec_date r). split; [|exact Hrow].
    apply join_keys_In. left. now left. }
  intro Hnil. rewrite Hnil in Hin. destruct Hin.
Qed.

Lemma sorted_lt_NoDup (l : list date) : StronglySorted date_lt l -> NoDup l.
Proof.
  induction 1 as [|d l Hs IH Hall]; constructor; [|exact IH].
  intro Hin. rewrite Forall_forall in Hall.
  exact (date_lt_irrefl d (Hall d Hin)).
Qed.

Lemma join_keys_length (df1 df2 : DataFrame) :
  NoDup (dates df1) -> same_dates df1 df2 ->
  List.length (join_keys df1 df2) = List.length df1.
Proof.
  intros Hnd Hsame.
  replace (List.length df1) with (List.length (dates df1))
    by (unfold dates; apply length_map).
  apply Permutation_length, NoDup_Permutation;
    [apply sorted_lt_NoDup, join_keys_sorted | exact Hnd |].
  intro d. rewrite join_keys_In. specialize (Hsame d). tauto.
Qed.

Lemma views_on_range (df : DataFrame) (k : date) (v : Z) :
  Forall (fun r => 0 <= rec_views r < 2 ^ 50) df ->
  views_on k df = Some v -> 0 <= v < 2 ^ 50.
Proof.
  unfold views_on. intros Hall Hv.
  destruct (List.find _ df) as [r|] eqn:E; [|discriminate].
  injection Hv as <-. apply find_some in E as [Hin _].
  rewrite Forall_forall in Hall. now apply Hall.
Qed.

Lemma views_on_present (df : DataFrame) (k : date) :
  In k (dates df) -> exists v, views_on k df = Some v.
Proof.
  intro Hin. destruct (views_on k df) as [v|] eqn:E; [now exists v|].
  apply views_on_None in E. contradiction.
Qed.

End PipelineTables.

(** Two URLs that give the same title never give a table: once both
    frames are fetched and hold data, the two views columns would need one
    name, and the lookup of that name raises [KeyError] (after both
    requests were spent). *)
Theorem analyze_wiki_pages_same_title
        (network : nat -> string -> outcome response) (noise : Z -> nat -> Z)
        (url1 url2 : string) (s e : date) (t : string) :
  extract_page_title url1 = Ret (Some t) ->
  extract_page_title url2 = Ret (Some t) ->
  (forall w w' table,
      analyze_wiki_pages network noise url1 url2 s e w <> (Ret (Some table), w'))
  /\ (forall w w1 w2 df1 df2,
        t <> EmptyString ->
        fetch_pageviews network t s e (after_print w (msg_fetching t t)) = (Ret df1, w1) ->
        fetch_pageviews network t s e w1 = (Ret df2, w2) ->
        df1 <> [] -> df2 <> [] ->
        analyze_wiki_pages network noise url1 url2 s e w
        = (Raise KeyError, seeded w2 0)).
Proof.
  intros H1 H2. split.
  - intros w w' table Hrun.
    destruct (analyze_returns_table _ _ _ _ _ _ _ _ _ Hrun)
      as (t1 & t2 & df1 & df2 & w1 & w2 & H1' & H2' & _ & _ & _ & _ & Hd).
    destruct (derive_returns _ _ _ _ _ _ _ _ Hd) as (_ & _ & Hne & _).
    congruence.
  - intros w w1 w2 df1 df2 Hn Hf1 Hf2 Hd1 Hd2.
    rewrite (analyze_fetched _ _ _ _ _ _ _ _ _ _ _ _ _ H1 H2 Hn Hn Hf1 Hf2).
    destruct df1, df2; try congruence. cbn [df_empty orb].
    rewrite derive_eq. cbv zeta. now rewrite String.eqb_refl.
Qed.

Lemma analyze_wiki_pages_same_title_witness :
  analyze_wiki_pages network_two_items sample_noise url_java url_java
    (jan 1) (jan 31) world0
  = (Raise KeyError,
     seeded
       (snd (fetch_pageviews network_two_items "Java_(programming_language)"
               (jan 1) (jan 31)
               (snd (fetch_pageviews network_two_items
                       "Java_(programming_language)" (jan 1) (jan 31)
                       (after_print world0
                          (msg_fetching "Java_(programming_language)"
                                        "Java_(programming_language)"))))))
       0).
Proof.
  apply (proj2 (analyze_wiki_pages_same_title network_two_items sample_noise
                  url_java url_java (jan 1) (jan 31)
                  "Java_(programming_language)" eq_refl eq_refl)
               world0
               (snd (fetch_pageviews network_two_items
                       "Java_(programming_language)" (jan 1) (jan 31)
                       (after_print world0
                          (msg_fetching "Java_(programming_language)"
                                        "Java_(programming_language)"))))
               _
               [mkRecord (jan 1) 100; mkRecord (jan 2) 205]
               [mkRecord (jan 1) 100; mkRecord (jan 2) 205]).
  - discriminate.
  - vm_compute. reflexivity.
  - vm_compute. reflexivity.
  - discriminate.
  - discriminate.
Defined.

(** A table that the pipeline returns is not empty, is in ascending order
    of the date and has no absent cell; the run sent exactly two requests
    and left the generator seeded with 42, two draws per row used. *)
Theorem analyze_wiki_pages_table
        (network : nat -> string -> outcome response) (noise : Z -> nat -> Z)
        (url1 url2 : string) (s e : date) (w w' : world)
        (table : list SharesRow) :
  analyze_wiki_pages network noise url1 url2 s e w = (Ret (Some table), w') ->
  table <> []
  /\ StronglySorted date_le (map (fun row => row_date (merged row)) table)
  /\ (forall row, In row table ->
        exists va vb, views_a (merged row) = Some va
                      /\ views_b (merged row) = Some vb)
  /\ List.length (requested w') = (List.length (requested w) + 2)%nat
  /\ gen_seed w' = 42
  /\ gen_pos w' = (List.length table + List.length table)%nat.
Proof.
  intro Hrun.
  destruct (analyze_returns_table _ _ _ _ _ _ _ _ _ Hrun)
    as (t1 & t2 & df1 & df2 & w1 & w2 & _ & _ & Hf1 & Hf2 & Hd1 & _ & Hd).
  pose proof (derive_returns_present _ _ _ _ _ _ _ _ Hd) as Hpresent.
  destruct (derive_returns _ _ _ _ _ _ _ _ Hd) as (sa & sb & _ & Ha & Hb & Ht & Hw).
  assert (Hla : List.length sa = List.length (merged_table df1 df2)).
  { rewrite (shares_column_length _ _ _ (eq_trans (draws_length _ _ _)
               (eq_sym (length_map _ _))) Ha). apply length_map. }
  assert (Hlb : List.length sb = List.length (merged_table df1 df2)).
  { rewrite (shares_column_length _ _ _ (eq_trans (draws_length _ _ _)
               (eq_sym (length_map _ _))) Hb). apply length_map. }
  assert (Hm : map merged table = merged_table df1 df2)
    by (rewrite Ht; now apply add_shares_merged).
  assert (Hlen : List.length table = List.length (merged_table df1 df2))
    by (rewrite <- Hm; symmetry; apply length_map).
  split; [|split; [|split; [|split; [|split]]]].
  - intro Hnil. apply (merged_table_nonempty df1 df2 Hd1).
    rewrite <- Hm, Hnil. reflexivity.
  - replace (map (fun row => row_date (merged row)) table)
      with (map row_date (map merged table)) by apply map_map.
    rewrite Hm. apply (merged_table_ascending df1 df2).
  - intros row Hrow.
    assert (Hin : In (merged row) (merged_table df1 df2))
      by (rewrite <- Hm; now apply in_map).
    destruct (Hpresent _ Hin) as [Hpa Hpb].
    destruct (views_a (merged row)) as [va|]; [|congruence].
    destruct (views_b (merged row)) as [vb|]; [|congruence].
    now exists va, vb.
  - rewrite Hw. rewrite fetch_pageviews_split in Hf1, Hf2.
    injection Hf1 as _ <-. injection Hf2 as _ <-.
    cbn [seeded requested fetch_world after_print].
    rewrite !List.length_app. cbn. lia.
  - rewrite Hw. reflexivity.
  - rewrite Hw, Hlen. reflexivity.
Qed.

Lemma analyze_wiki_pages_table_witness :
  let table :=
    [mkSharesRow (mkRow (jan 1) (Some 100) (Some 100)) 10 12;
     mkSharesRow (mkRow (jan 2) (Some 205) (Some 205)) 21 23] in
  let w' := snd (analyze_wiki_pages network_two_items sample_noise
                   url_python url_java (jan 1) (jan 31) world0) in
  table <> []
  /\ StronglySorted date_le (map (fun row => row_date (merged row)) table)
  /\ (forall row, In row table ->
        exists va vb, views_a (merged row) = Some va
                      /\ views_b (merged row) = Some vb)
  /\ List.length (requested w') = (List.length (requested world0) + 2)%nat
  /\ gen_seed w' = 42
  /\ gen_pos w' = (List.length table + List.length table)%nat.
Proof.
  intros table w'.
  apply (analyze_wiki_pages_table network_two_items sample_noise
           url_python url_java (jan 1) (jan 31) world0 w' table).
  vm_compute. reflexivity.
Defined.

(** The steps of the pipeline taken together, up to the plotting: two
    URLs with distinct titles, two fetched frames, not empty, with the same
    dates, each date once, and counts below [2^50]: the derivation of lines
    83 to 96 does not raise, and its table has one row per date, in
    ascending order of the date, that holds the two counts of the date and,
    for the [i]-th row, the shares [views / 10 + draw], the draws of the
    first column being the first ones after seeding and those of the second
    column the next ones.  Whatever the pipeline then returns is that
    table: it does not return [None]. *)
Theorem analyze_wiki_pages_shares
        (network : nat -> string -> outcome response) (noise : Z -> nat -> Z)
        (url1 url2 : string) (s e : date) (t1 t2 : string)
        (df1 df2 : DataFrame) (w w1 w2 : world) :
  (forall i, 0 <= noise 42 i < 10) ->
  extract_page_title url1 = Ret (Some t1) ->
  extract_page_title url2 = Ret (Some t2) ->
  t1 <> EmptyString -> t2 <> EmptyString -> t1 <> t2 ->
  fetch_pageviews network t1 s e (after_print w (msg_fetching t1 t2)) = (Ret df1, w1) ->
  fetch_pageviews network t2 s e w1 = (Ret df2, w2) ->
  df1 <> [] ->
  NoDup (dates df1) -> NoDup (dates df2) -> same_dates df1 df2 ->
  Forall (fun r => 0 <= rec_views r < 2 ^ 50) df1 ->
  Forall (fun r => 0 <= rec_views r < 2 ^ 50) df2 ->
  exists table,
    derive noise t1 t2 df1 df2 w2
    = (Ret table, seeded w2 (List.length df1 + List.length df1))
    /\ (forall r w',
          analyze_wiki_pages network noise url1 url2 s e w = (Ret r, w') ->
          r = Some table)
    /\ List.length table = List.length df1
    /\ map (fun row => row_date (merged row)) table = join_keys df1 df2
    /\ forall i row,
        nth_error table i = Some row ->
        exists va vb,
          views_on (row_date (merged row)) df1 = Some va
          /\ views_on (row_date (merged row)) df2 = Some vb
          /\ views_a (merged row) = Some va
          /\ views_b (merged row) = Some vb
          /\ shares_a row = va / 10 + noise 42 i
          /\ shares_b row = vb / 10 + noise 42 (List.length df1 + i)%nat.
Proof.
  intros Hnoise H1 H2 Hn1 Hn2 Hne Hf1 Hf2 Hd1 Hnd1 Hnd2 Hsame Hr1 Hr2.
  assert (Hd2 : df2 <> []).
  { destruct df1 as [|r df1]; [congruence|].
    assert (Hin : In (rec_date r) (dates df2))
      by (apply Hsame; left; reflexivity).
    intros ->. destruct Hin. }
  assert (HM : merged_table df1 df2 = map (joined_row df1 df2) (join_keys df1 df2))
    by (unfold merged_table; now apply merged_table_nodup).
  assert (Hlen : List.length (merged_table df1 df2) = List.length df1)
    by (rewrite HM, length_map; now apply join_keys_length).
  assert (Hkeys : forall k, In k (join_keys df1 df2) ->
            exists va vb, views_on k df1 = Some va /\ views_on k df2 = Some vb
                          /\ 0 <= va < 2 ^ 50 /\ 0 <= vb < 2 ^ 50).
  { intros k Hk. apply join_keys_In in Hk.
    assert (Hk1 : In k (dates df1)) by (destruct Hk; [assumption | now apply Hsame]).
    assert (Hk2 : In k (dates df2)) by now apply Hsame.
    destruct (views_on_present df1 k Hk1) as (va & Hva).
    destruct (views_on_present df2 k Hk2) as (vb & Hvb).
    exists va, vb. split; [exact Hva|]. split; [exact Hvb|]. split.
    - exact (views_on_range df1 k va Hr1 Hva).
    - exact (views_on_range df2 k vb Hr2 Hvb). }
  assert (Hrows : Forall (fun row =>
             (exists v, views_a row = Some v /\ 0 <= v < 2 ^ 50)
             /\ (exists v, views_b row = Some v /\ 0 <= v < 2 ^ 50))
            (merged_table df1 df2)).
  { rewrite HM. apply Forall_forall. intros row Hrow.
    apply in_map_iff in Hrow as (k & <- & Hk).
    destruct (Hkeys k Hk) as (va & vb & Hva & Hvb & Hra & Hrb).
    unfold joined_row. cbn [views_a views_b]. split; eauto. }
  destruct (derive_total noise t1 t2 df1 df2 w2 Hnoise Hne Hrows) as (table & Hd).
  exists table.
  destruct (derive_rows noise t1 t2 df1 df2 w2 _ table Hnoise Hd) as [Hm Hshares].
  split; [|split; [|split; [|split]]].
  - rewrite Hd. now rewrite Hlen.
  - intros r w'.
    rewrite (analyze_fetched _ _ _ _ _ _ _ _ _ _ _ _ _ H1 H2 Hn1 Hn2 Hf1 Hf2).
    destruct df1; [congruence|]. destruct df2; [congruence|].
    cbn [df_empty orb]. rewrite Hd. congruence.
  - rewrite <- Hlen, <- Hm. symmetry. apply length_map.
  - replace (map (fun row => row_date (merged row)) table)
      with (map row_date (map merged table)) by apply map_map.
    rewrite Hm, HM, map_map. cbn [joined_row row_date]. apply map_id.
  - intros i row Hrow.
    assert (Hin : In (merged row) (merged_table df1 df2))
      by (rewrite <- Hm; apply in_map; eapply nth_error_In; eauto).
    rewrite HM in Hin. apply in_map_iff in Hin as (k & Hk & Hkin).
    destruct (Hkeys k Hkin) as (va & vb & Hva & Hvb & Hra & Hrb).
    destruct (Hshares i row Hrow) as [Hsa Hsb].
    rewrite <- Hk in *. unfold joined_row in *. cbn [row_date views_a views_b] in *.
    exists va, vb. repeat split; auto.
    rewrite (Hsb vb Hvb Hrb), Hlen. reflexivity.
Qed.

Lemma analyze_wiki_pages_shares_witness :
  let python := "Python_(programming_language)" in
  let java := "Java_(programming_language)" in
  let df := [mkRecord (jan 1) 100; mkRecord (jan 2) 205] in
  let w1 := snd (fetch_pageviews network_two_items python (jan 1) (jan 31)
                   (after_print world0 (msg_fetching python java))) in
  let w2 := snd (fetch_pageviews network_two_items java (jan 1) (jan 31) w1) in
  exists table,
    derive sample_noise python java df df w2
    = (Ret table, seeded w2 (2 + 2))
    /\ (forall r w',
          analyze_wiki_pages network_two_items sample_noise url_python url_java
            (jan 1) (jan 31) world0 = (Ret r, w') ->
          r = Some table)
    /\ List.length table = 2%nat
    /\ map (fun row => row_date (merged row)) table = join_keys df df
    /\ forall i row,
        nth_error table i = Some row ->
        exists va vb,
          views_on (row_date (merged row)) df = Some va
          /\ views_on (row_date (merged row)) df = Some vb
          /\ views_a (merged row) = Some va
          /\ views_b (merged row) = Some vb
          /\ shares_a row = va / 10 + sample_noise 42 i
          /\ shares_b row = vb / 10 + sample_noise 42 (2 + i)%nat.
Proof.
  intros python java df w1 w2.
  apply (analyze_wiki_pages_shares network_two_items sample_noise
           url_python url_java (jan 1) (jan 31) python java df df world0 w1 w2).
  - intro i. unfold sample_noise.
    pose proof (Nat.mod_upper_bound i 10 ltac:(discriminate)). lia.
  - vm_compute. reflexivity.
  - vm_compute. reflexivity.
  - discriminate.
  - discriminate.
  - discriminate.
  - vm_compute. reflexivity.
  - vm_compute. reflexivity.
  - discriminate.
  - repeat constructor; cbn; intuition discriminate.
  - repeat constructor; cbn; intuition discriminate.
  - intro d. reflexivity.
  - repeat constructor; cbn; lia.
  - repeat constructor; cbn; lia.
Defined.

(* ------------------------------------------------------------------ *)
(** * The button callback *)

Section StripFacts.

Import Strip.

Lemma space1_not_space2 (a b : ascii) : space1 b = true -> space2 a b = false.
Proof.
  unfold space1, space2. generalize (code a), (code b). intros m n H.
  destruct (Nat.eqb_spec m 194); [|reflexivity]. cbn [andb].
  destruct (Nat.eqb_spec n 133), (Nat.eqb_spec n 160); try reflexivity; subst;
    discriminate H.
Qed.

Lemma space1_not_space3_mid (a b c : ascii) : space1 b = true -> space3 a b c = false.
Proof.
  unfold space1, space3. generalize (code a), (code b), (code c). intros m n k H.
  assert (Hn : (n <= 32)%nat).
  { apply orb_true_iff in H as [H|H]; apply andb_true_iff in H as [_ H];
      apply Nat.leb_le in H; lia. }
  destruct (Nat.eqb_spec n 154); [lia|].
  destruct (Nat.eqb_spec n 128); [lia|].
  destruct (Nat.eqb_spec n 129); [lia|].
  now rewrite !andb_false_r.
Qed.

Lemma space1_not_space3_last (a b c : ascii) : space1 c = true -> space3 a b c = false.
Proof.
  unfold space1, space3. generalize (code a), (code b), (code c). intros m n k H.
  assert (Hk : (k <= 32)%nat).
  { apply orb_true_iff in H as [H|H]; apply andb_true_iff in H as [_ H];
      apply Nat.leb_le in H; lia. }
  destruct (Nat.eqb_spec k 128); [lia|].
  destruct (Nat.eqb_spec k 159); [lia|].
  destruct (Nat.eqb_spec k 168); [lia|].
  destruct (Nat.eqb_spec k 169); [lia|].
  destruct (Nat.eqb_spec k 175); [lia|].
  destruct (Nat.leb_spec 128 k); [lia|].
  cbn [andb orb]. now rewrite !andb_false_r.
Qed.

Variable w2 : ascii -> ascii -> bool.
Variable w3 : ascii -> ascii -> ascii -> bool.
Hypothesis w2_blank : forall a b, space1 b = true -> w2 a b = false.
Hypothesis w3_blank_mid : forall a b c, space1 b = true -> w3 a b c = false.
Hypothesis w3_blank_last : forall a b c, space1 c = true -> w3 a b c = false.

Lemma strip_front_blank (sp s : string) :
  blank sp = true ->
  strip_front space1 w2 w3 (sp ++ s) = strip_front space1 w2 w3 s.
Proof.
  induction sp as [|c sp IH]; intro H; [reflexivity|].
  cbn [blank UrlLib.all_chars] in H. apply andb_true_iff in H as [Hc Hsp].
  cbn [append strip_front]. rewrite Hc. now apply IH.
Qed.

Lemma strip_front_all_blank (sp : string) :
  blank sp = true -> strip_front space1 w2 w3 sp = EmptyString.
Proof.
  intro H. rewrite <- (append_empty_r sp). now rewrite strip_front_blank.
Qed.

(** Blanks after a string stay where they are, unless the string is white
    space as a whole. *)
Lemma strip_front_app_blank (sp : string) :
  blank sp = true ->
  forall (n : nat) (s : string),
    (String.length s <= n)%nat ->
    strip_front space1 w2 w3 (s ++ sp)
    = match strip_front space1 w2 w3 s with
      | EmptyString => EmptyString
      | r => (r ++ sp)%string
      end.
Proof.
  intro Hsp. induction n as [|n IH]; intros s Hlen.
  - destruct s; [|cbn in Hlen; lia]. cbn [append strip_front].
    now apply strip_front_all_blank.
  - destruct s as [|a s1]; [cbn [append strip_front]; now apply strip_front_all_blank|].
    cbn [String.length] in Hlen.
    cbn [append]. cbn [strip_front].
    destruct (space1 a) eqn:Ea; [apply IH; lia|].
    destruct s1 as [|b s2].
    + cbn [append]. destruct sp as [|b sp]; [reflexivity|].
      cbn [blank UrlLib.all_chars] in Hsp. apply andb_true_iff in Hsp as [Hb Hsp].
      rewrite (w2_blank a b Hb).
      destruct sp as [|c sp]; [reflexivity|].
      now rewrite (w3_blank_mid a b c Hb).
    + cbn [String.length] in Hlen. cbn [append].
      destruct (w2 a b) eqn:Eab; [apply IH; lia|].
      destruct s2 as [|c s3].
      * cbn [append]. destruct sp as [|c sp]; [reflexivity|].
        cbn [blank UrlLib.all_chars] in Hsp. apply andb_true_iff in Hsp as [Hc Hsp].
        now rewrite (w3_blank_last a b c Hc).
      * cbn [String.length] in Hlen. cbn [append].
        destruct (w3 a b c) eqn:Eabc; [apply IH; lia|reflexivity].
Qed.

End StripFacts.

Lemma reverse_app (s t : string) :
  Strip.reverse (s ++ t) = (Strip.reverse t ++ Strip.reverse s)%string.
Proof.
  unfold Strip.reverse. revert t. induction s as [|c s IH]; intro t.
  - cbn [append PyStr.rev_string]. now rewrite append_empty_r.
  - cbn [append PyStr.rev_string].
    rewrite (rev_string_app (s ++ t)), (rev_string_app s), IH.
    now rewrite append_assoc.
Qed.

Lemma blank_app (s t : string) : blank (s ++ t) = blank s && blank t.
Proof.
  unfold blank. induction s as [|c s IH]; [reflexivity|].
  cbn [append UrlLib.all_chars]. rewrite IH. now rewrite andb_assoc.
Qed.

Lemma blank_reverse (s : string) : blank s = true -> blank (Strip.reverse s) = true.
Proof.
  induction s as [|c s IH]; [reflexivity|]. intro H.
  change (String c s) with (String c EmptyString ++ s)%string.
  rewrite reverse_app, blank_app.
  change (String c EmptyString ++ s)%string with (String c s) in H.
  cbn [blank UrlLib.all_chars] in H. apply andb_true_iff in H as [Hc Hs].
  rewrite (IH Hs). cbn. now rewrite Hc.
Qed.

Lemma rstrip_app_blank (s sp : string) :
  blank sp = true -> Strip.rstrip (s ++ sp) = Strip.rstrip s.
Proof.
  intro H. unfold Strip.rstrip. rewrite reverse_app.
  rewrite strip_front_blank by (apply blank_reverse, H). reflexivity.
Qed.

(** Blanks around a string do not change what [strip] gives. *)
Lemma strip_padded (sp1 s sp2 : string) :
  blank sp1 = true -> blank sp2 = true ->
  Strip.strip (sp1 ++ s ++ sp2) = Strip.strip s.
Proof.
  intros H1 H2. unfold Strip.strip, Strip.lstrip.
  rewrite strip_front_blank by exact H1.
  rewrite (strip_front_app_blank Strip.space2 Strip.space3
             space1_not_space2 space1_not_space3_mid space1_not_space3_last
             sp2 H2 (String.length s) s (le_n _)).
  destruct (Strip.strip_front Strip.space1 Strip.space2 Strip.space3 s) as [|c r];
    [reflexivity|].
  now apply rstrip_app_blank.
Qed.

Lemma strip_blank (sp : string) : blank sp = true -> Strip.strip sp = EmptyString.
Proof.
  intro H. unfold Strip.strip, Strip.lstrip.
  now rewrite strip_front_all_blank.
Qed.

Section CallbackFacts.

Variable network : nat -> string -> outcome response.
Variable noise : Z -> nat -> Z.

(** What a run of the pipeline prints, asks for and leaves in the
    generator is fixed by the number of requests sent before. *)
Lemma analyze_frame (url1 url2 : string) (s e : date) (n : nat) :
  exists (R : outcome (option (list SharesRow))) (lines urls : list string)
         (G : option nat),
    (List.length urls <= 2)%nat
    /\ (forall table, R = Ret (Some table) -> G <> None /\ List.length urls = 2%nat)
    /\ forall w,
      List.length (requested w) = n ->
      analyze_wiki_pages network noise url1 url2 s e w
      = (R, mkWorld (stdout w ++ lines) (requested w ++ urls)
                    (match G with Some _ => 42 | None => gen_seed w end)
                    (match G with Some k => k | None => gen_pos w end)).
Proof.
  destruct (analyze_cases network noise url1 url2 s e)
    as [(t1 & t2 & H1 & H2 & Hn1 & Hn2) | [(exc & Hw) | Hw]].
  - set (u1 := api_url t1 s e). set (u2 := api_url t2 s e).
    set (o1 := fetch_output t1 (network n u1)).
    set (o2 := fetch_output t2 (network (S n) u2)).
    assert (Hrun : forall w, List.length (requested w) = n ->
              analyze_wiki_pages network noise url1 url2 s e w
              = match fetch_result network t1 s e n with
                | Raise exc =>
                    (Raise exc,
                     mkWorld (stdout w ++ msg_fetching t1 t2 :: o1)
                             (requested w ++ [u1]) (gen_seed w) (gen_pos w))
                | Ret df1 =>
                    let w2 := mkWorld (stdout w ++ msg_fetching t1 t2 :: o1 ++ o2)
                                      (requested w ++ [u1; u2])
                                      (gen_seed w) (gen_pos w) in
                    match fetch_result network t2 s e (S n) with
                    | Raise exc => (Raise exc, w2)
                    | Ret df2 =>
                        if df_empty df1 || df_empty df2
                        then (Ret None, after_print w2 msg_no_data)
                        else match derive noise t1 t2 df1 df2 w2 with
                             | (Ret table, w3) => (Ret (Some table), w3)
                             | (Raise exc, w3) => (Raise exc, w3)
                             end
                    end
                end).
    { intros w Hlen.
      rewrite (analyze_titles network noise _ _ _ _ _ _ _ H1 H2 Hn1 Hn2). cbv zeta.
      rewrite Hlen.
      assert (E1 : fetch_world network t1 s e (after_print w (msg_fetching t1 t2))
                   = mkWorld (stdout w ++ msg_fetching t1 t2 :: o1)
                             (requested w ++ [u1]) (gen_seed w) (gen_pos w)).
      { unfold fetch_world, after_print. cbn [stdout requested gen_seed gen_pos].
        rewrite Hlen. fold u1. fold o1. now rewrite <- app_assoc. }
      rewrite E1.
      assert (E2 : fetch_world network t2 s e
                     (mkWorld (stdout w ++ msg_fetching t1 t2 :: o1)
                              (requested w ++ [u1]) (gen_seed w) (gen_pos w))
                   = mkWorld (stdout w ++ msg_fetching t1 t2 :: o1 ++ o2)
                             (requested w ++ [u1; u2]) (gen_seed w) (gen_pos w)).
      { unfold fetch_world. cbn [stdout requested gen_seed gen_pos].
        rewrite length_app, Hlen. cbn [List.length]. rewrite Nat.add_1_r.
        fold u2. fold o2. rewrite <- !app_assoc. reflexivity. }
      rewrite E2. reflexivity. }
    destruct (fetch_result network t1 s e n) as [df1|exc].
    + destruct (fetch_result network t2 s e (S n)) as [df2|exc].
      * destruct (df_empty df1 || df_empty df2).
        -- exists (Ret None), (msg_fetching t1 t2 :: o1 ++ o2 ++ [msg_no_data]),
             [u1; u2], None.
           split; [cbn; lia|]. split; [discriminate|].
           intros w Hlen. rewrite (Hrun w Hlen). cbv zeta.
           unfold after_print. cbn [stdout requested gen_seed gen_pos].
           repeat (rewrite <- app_assoc; cbn [app]). reflexivity.
        -- destruct (derive_split noise t1 t2 df1 df2) as (R & K & HR).
           exists (match R with Ret table => Ret (Some table) | Raise exc => Raise exc end),
             (msg_fetching t1 t2 :: o1 ++ o2), [u1; u2], (Some K).
           split; [cbn; lia|]. split; [intros; split; [discriminate|reflexivity]|].
           intros w Hlen. rewrite (Hrun w Hlen). cbv zeta.
           rewrite HR. destruct R; reflexivity.
      * exists (Raise exc), (msg_fetching t1 t2 :: o1 ++ o2), [u1; u2], None.
        split; [cbn; lia|]. split; [discriminate|].
        intros w Hlen. now rewrite (Hrun w Hlen).
    + exists (Raise exc), (msg_fetching t1 t2 :: o1), [u1], None.
      split; [cbn; lia|]. split; [discriminate|].
      intros w Hlen. now rewrite (Hrun w Hlen).
  - exists (Raise exc), [], [], None. split; [cbn; lia|]. split; [discriminate|].
    intros w _.
    rewrite Hw, !app_nil_r. now destruct w.
  - exists (Ret None), [msg_bad_input], [], None. split; [cbn; lia|].
    split; [discriminate|]. intros w _.
    rewrite Hw, app_nil_r. reflexivity.
Qed.

Lemma on_run_button_clicked_eq (ws : widgets) (nb : notebook) :
  on_run_button_clicked network noise ws nb
  = match start_value ws, end_value ws with
    | Some start_date, Some end_date =>
        match analyze_wiki_pages network noise
                (Strip.strip (url1_value ws)) (Strip.strip (url2_value ws))
                start_date end_date
                (after_print (cleared (nb_world nb)) msg_starting) with
        | (Ret (Some df_result), w') =>
            (Ret tt, mkNotebook (after_print w' msg_merged) [df_result])
        | (Ret None, w') => (Ret tt, mkNotebook w' [])
        | (Raise exc, w') => (Raise exc, mkNotebook w' [])
        end
    | _, _ =>
        (Ret tt, mkNotebook (after_print (cleared (nb_world nb)) msg_select_dates) [])
    end.
Proof. reflexivity. Qed.

Lemma extract_page_title_empty : extract_page_title EmptyString = Ret None.
Proof. vm_compute. reflexivity. Qed.

End CallbackFacts.

(** A click with a date picker unset: whatever the URLs and whatever the
    output area held, the area then holds the one message and no table;
    no request is sent and the generator is not touched. *)
Theorem on_run_button_clicked_unset_date
        (network : nat -> string -> outcome response) (noise : Z -> nat -> Z)
        (ws : widgets) (nb : notebook) :
  start_value ws = None \/ end_value ws = None ->
  on_run_button_clicked network noise ws nb
  = (Ret tt,
     mkNotebook (mkWorld [msg_select_dates] (requested (nb_world nb))
                         (gen_seed (nb_world nb)) (gen_pos (nb_world nb)))
                []).
Proof.
  intros [H|H]; rewrite on_run_button_clicked_eq, H;
    [|destruct (start_value ws)]; reflexivity.
Qed.

Lemma on_run_button_clicked_unset_date_witness :
  on_run_button_clicked network_two_items sample_noise
    (mkWidgets url_python url_java (Some (jan 1)) None)
    (mkNotebook (mkWorld ["earlier output"] ["earlier request"] 7 3) [[]])
  = (Ret tt, mkNotebook (mkWorld [msg_select_dates] ["earlier request"] 7 3) []).
Proof.
  apply (on_run_button_clicked_unset_date network_two_items sample_noise
           (mkWidgets url_python url_java (Some (jan 1)) None)
           (mkNotebook (mkWorld ["earlier output"] ["earlier request"] 7 3) [[]])).
  right. reflexivity.
Defined.

(** After a click the output area holds what this click printed only: the
    first line is one of the two opening messages.  It holds at most one
    table; when it holds one, the body ended without an exception, the
    heading of the table is the last line printed, two requests were sent
    and the generator was seeded.  A click sends at most two requests. *)
Theorem on_run_button_clicked_shows
        (network : nat -> string -> outcome response) (noise : Z -> nat -> Z)
        (ws : widgets) (nb : notebook) :
  let run := on_run_button_clicked network noise ws nb in
  let out := stdout (nb_world (snd run)) in
  (out = [msg_select_dates] \/ exists lines, out = msg_starting :: lines)
  /\ (nb_shown (snd run) = []
      \/ exists table lines urls,
          nb_shown (snd run) = [table]
          /\ fst run = Ret tt
          /\ out = msg_starting :: (lines ++ [msg_merged])%list
          /\ requested (nb_world (snd run))
             = (requested (nb_world nb) ++ urls)%list
          /\ List.length urls = 2%nat
          /\ gen_seed (nb_world (snd run)) = 42)
  /\ (exists urls,
        requested (nb_world (snd run)) = (requested (nb_world nb) ++ urls)%list
        /\ (List.length urls <= 2)%nat).
Proof.
  cbv zeta. rewrite on_run_button_clicked_eq.
  destruct (start_value ws) as [sd|], (end_value ws) as [ed|];
    try (cbn; split; [now left|split; [now left|]];
         exists []; rewrite app_nil_r; cbn; auto).
  destruct (analyze_frame network noise (Strip.strip (url1_value ws))
              (Strip.strip (url2_value ws)) sd ed
              (List.length (requested (nb_world nb))))
    as (R & lines & urls & G & Hu & HG & Hrun).
  rewrite (Hrun (after_print (cleared (nb_world nb)) msg_starting) eq_refl).
  destruct R as [[table|]|exc];
    cbn [fst snd nb_world nb_shown after_print cleared stdout requested gen_seed
         gen_pos app].
  - destruct (HG table eq_refl) as [HGn Hlen].
    split; [right; eexists; reflexivity|].
    split; [|exists urls; auto].
    right. exists table, lines, urls. repeat split; auto.
    destruct G; [reflexivity|congruence].
  - split; [right; eexists; reflexivity|].
    split; [now left|exists urls; auto].
  - split; [right; eexists; reflexivity|].
    split; [now left|exists urls; auto].
Qed.

(** What the output area holds after a click, and whether the body ended
    with an exception, does not depend on what the area held before nor
    on the state of the generator before. *)
Theorem on_run_button_clicked_fresh
        (network : nat -> string -> outcome response) (noise : Z -> nat -> Z)
        (ws : widgets) (nb1 nb2 : notebook) :
  List.length (requested (nb_world nb1)) = List.length (requested (nb_world nb2)) ->
  let run1 := on_run_button_clicked network noise ws nb1 in
  let run2 := on_run_button_clicked network noise ws nb2 in
  fst run1 = fst run2
  /\ stdout (nb_world (snd run1)) = stdout (nb_world (snd run2))
  /\ nb_shown (snd run1) = nb_shown (snd run2).
Proof.
  intro Hlen. cbv zeta. rewrite !on_run_button_clicked_eq.
  destruct (start_value ws) as [sd|], (end_value ws) as [ed|];
    try solve [cbn; auto].
  destruct (analyze_frame network noise (Strip.strip (url1_value ws))
              (Strip.strip (url2_value ws)) sd ed
              (List.length (requested (nb_world nb1))))
    as (R & lines & urls & G & _ & _ & Hrun).
  rewrite (Hrun (after_print (cleared (nb_world nb1)) msg_starting) eq_refl).
  rewrite (Hrun (after_print (cleared (nb_world nb2)) msg_starting) (eq_sym Hlen)).
  destruct R as [[table|]|exc]; cbn; auto.
Qed.

Lemma on_run_button_clicked_fresh_witness :
  let nb1 := mkNotebook world0 [] in
  let nb2 := mkNotebook (mkWorld ["earlier output"] [] 7 3) [[]] in
  let run1 := on_run_button_clicked network_two_items sample_noise default_widgets nb1 in
  let run2 := on_run_button_clicked network_two_items sample_noise default_widgets nb2 in
  fst run1 = fst run2
  /\ stdout (nb_world (snd run1)) = stdout (nb_world (snd run2))
  /\ nb_shown (snd run1) = nb_shown (snd run2).
Proof.
  intros nb1 nb2.
  apply (on_run_button_clicked_fresh network_two_items sample_noise
           default_widgets nb1 nb2).
  reflexivity.
Defined.

(** Blanks typed around the URLs do not count: the click does what it
    does on the URLs without them. *)
Theorem on_run_button_clicked_padded
        (network : nat -> string -> outcome response) (noise : Z -> nat -> Z)
        (a1 u1 b1 a2 u2 b2 : string) (sd ed : option date) (nb : notebook) :
  blank a1 = true -> blank b1 = true -> blank a2 = true -> blank b2 = true ->
  on_run_button_clicked network noise
    (mkWidgets (a1 ++ u1 ++ b1) (a2 ++ u2 ++ b2) sd ed) nb
  = on_run_button_clicked network noise (mkWidgets u1 u2 sd ed) nb.
Proof.
  intros Ha1 Hb1 Ha2 Hb2. rewrite !on_run_button_clicked_eq.
  cbn [url1_value url2_value start_value end_value].
  now rewrite !strip_padded.
Qed.

Lemma on_run_button_clicked_padded_witness :
  on_run_button_clicked network_two_items sample_noise
    (mkWidgets ("  " ++ url_python ++ " ") ("" ++ url_java ++ newline)
               (Some (jan 1)) (Some (jan 31)))
    (mkNotebook world0 [])
  = on_run_button_clicked network_two_items sample_noise
      (mkWidgets url_python url_java (Some (jan 1)) (Some (jan 31)))
      (mkNotebook world0 []).
Proof.
  apply (on_run_button_clicked_padded network_two_items sample_noise
           "  " url_python " " "" url_java newline
           (Some (jan 1)) (Some (jan 31)) (mkNotebook world0 []));
    reflexivity.
Defined.

(** A click with a URL field left blank (both dates set): no request is
    sent, no table is shown and the generator is not touched; the area
    holds the opening line and the bad-input message, unless the other
    URL made the extraction raise. *)
Theorem on_run_button_clicked_blank_url
        (network : nat -> string -> outcome response) (noise : Z -> nat -> Z)
        (ws : widgets) (nb : notebook) (sd ed : date) :
  start_value ws = Some sd -> end_value ws = Some ed ->
  blank (url1_value ws) = true \/ blank (url2_value ws) = true ->
  let run := on_run_button_clicked network noise ws nb in
  requested (nb_world (snd run)) = requested (nb_world nb)
  /\ gen_seed (nb_world (snd run)) = gen_seed (nb_world nb)
  /\ gen_pos (nb_world (snd run)) = gen_pos (nb_world nb)
  /\ nb_shown (snd run) = []
  /\ ((fst run = Ret tt
       /\ stdout (nb_world (snd run)) = [msg_starting; msg_bad_input])
      \/ (exists exc, fst run = Raise exc
                       /\ stdout (nb_world (snd run)) = [msg_starting])).
Proof.
  intros Hs He Hblank. cbv zeta. rewrite on_run_button_clicked_eq, Hs, He.
  set (w := after_print (cleared (nb_world nb)) msg_starting).
  assert (Hrun : analyze_wiki_pages network noise
                   (Strip.strip (url1_value ws)) (Strip.strip (url2_value ws))
                   sd ed w
                 = (Ret None, after_print w msg_bad_input)
                 \/ exists exc,
                     analyze_wiki_pages network noise
                       (Strip.strip (url1_value ws)) (Strip.strip (url2_value ws))
                       sd ed w
                     = (Raise exc, w)).
  { destruct Hblank as [Hb|Hb]; rewrite (strip_blank _ Hb).
    - destruct (extract_page_title (Strip.strip (url2_value ws))) as [o2|exc] eqn:H2.
      + left. now apply (analyze_rejects network noise _ _ _ _ _ None o2
                           extract_page_title_empty H2).
      + right. exists exc. unfold analyze_wiki_pages, bind, lift.
        now rewrite extract_page_title_empty, H2.
    - destruct (extract_page_title (Strip.strip (url1_value ws))) as [o1|exc] eqn:H1.
      + left. apply (analyze_rejects network noise _ _ _ _ _ o1 None
                       H1 extract_page_title_empty).
        apply andb_false_r.
      + right. exists exc. unfold analyze_wiki_pages, bind, lift.
        now rewrite H1. }
  destruct Hrun as [-> | (exc & ->)]; cbn; repeat split; auto.
  right. now exists exc.
Qed.

Lemma on_run_button_clicked_blank_url_witness :
  let run := on_run_button_clicked network_two_items sample_noise
               (mkWidgets "   " url_java (Some (jan 1)) (Some (jan 31)))
               (mkNotebook world0 []) in
  requested (nb_world (snd run)) = []
  /\ gen_seed (nb_world (snd run)) = 0
  /\ gen_pos (nb_world (snd run)) = 0%nat
  /\ nb_shown (snd run) = []
  /\ ((fst run = Ret tt
       /\ stdout (nb_world (snd run)) = [msg_starting; msg_bad_input])
      \/ (exists exc, fst run = Raise exc
                       /\ stdout (nb_world (snd run)) = [msg_starting])).
Proof.
  apply (on_run_button_clicked_blank_url network_two_items sample_noise
           (mkWidgets "   " url_java (Some (jan 1)) (Some (jan 31)))
           (mkNotebook world0 []) (jan 1) (jan 31)).
  - reflexivity.
  - reflexivity.
  - left. reflexivity.
Defined.
